(** * Hamro Patro scrapper: rate limiter, validators and scrape loop

    A shallow embedding of the acquisition core of the scraper
    ([rate-limiter.ts], [dist/utils/validation.js], [dist/scraper.js],
    the JSON exporter) together with the properties its specification
    states about it.  The embedding also covers the extraction callback
    of the page, the option handling of [cli.js] and the row and sheet
    builders of the CSV and Excel exporters; Part III proves further
    properties of all of these.

    Conventions of the embedding.
    - A JavaScript string is the list of its UTF-16 code units
      ([jsstring]); [split('')] and [join('')] are then the identity on
      that list, and the Devanagari digits U+0966..U+096F are single units.
    - A JavaScript number that the code uses as a count, an index, a day
      or month number or a delay in milliseconds is an integer of [Z];
      [NaN], the only non-integer the code tests for, is the [None] of
      [parseInt].
    - A field of an object that may be absent ([undefined]) is an
      [option]; this is what the run-time checks of the validators
      ([!day.day], [Array.isArray], [typeof ... !== 'boolean']) look at.
    - Methods that read or write [this] are functions from the state
      before to the result and the state after. *)

From Stdlib Require Import ZArith List String Ascii Bool Lia.
From Stdlib Require Import DecimalString DecimalZ DecimalPos FinFun.
From stdpp Require Import gmap list.
Import ListNotations.

Open Scope Z_scope.
Set Warnings "-register-all".

(* ================================================================== *)
(** * Part I: the embedding                                            *)
(* ================================================================== *)

(** ** JavaScript strings and the built-ins the code calls *)

Module JS.

Abbreviation jsstring := (list N) (only parsing).

(** An ASCII literal of the source as a [jsstring]. *)
Definition lit (s : string) : jsstring :=
  map N_of_ascii (list_ascii_of_string s).
Arguments lit s%_string.

(** [String(n)] / [`${n}`] for an integer [n]. *)
Definition showZ (z : Z) : jsstring :=
  lit (NilZero.string_of_int (Z.to_int z)).

(** [`${v}`] for a value that may be [undefined]. *)
Definition showOpt {A : Type} (show : A -> jsstring) (v : option A) : jsstring :=
  match v with
  | Some a => show a
  | None => lit "undefined"
  end.

(** Truthiness of a string that may be absent: [undefined] and [''] are
    falsy. *)
Definition truthyStr (v : option jsstring) : bool :=
  match v with
  | Some (_ :: _) => true
  | _ => false
  end.

(** ECMAScript [WhiteSpace] and [LineTerminator] code units, which
    [parseInt] skips at the front of its argument. *)
Definition isWhiteSpace (c : N) : bool :=
  ((9 <=? c) && (c <=? 13) || (c =? 32) || (c =? 160) || (c =? 5760)
   || (8192 <=? c) && (c <=? 8202) || (c =? 8232) || (c =? 8233)
   || (c =? 8239) || (c =? 8287) || (c =? 12288) || (c =? 65279))%N.

Definition isDigit (c : N) : bool := ((48 <=? c) && (c <=? 57))%N.

Definition digitValue (c : N) : Z := Z.of_N c - 48.

Fixpoint dropWhile {A : Type} (p : A -> bool) (l : list A) : list A :=
  match l with
  | x :: l' => if p x then dropWhile p l' else l
  | [] => []
  end.

Fixpoint takeWhile {A : Type} (p : A -> bool) (l : list A) : list A :=
  match l with
  | x :: l' => if p x then x :: takeWhile p l' else []
  | [] => []
  end.

Definition digitsValue (ds : list N) : Z :=
  fold_left (fun acc c => acc * 10 + digitValue c) ds 0.

(** [parseInt(s, 10)]: leading white space is skipped, one sign is
    read, then the longest run of decimal digits; [None] is [NaN]. *)
Definition parseInt10 (s : jsstring) : option Z :=
  let s1 := dropWhile isWhiteSpace s in
  let '(sign, s2) :=
    match s1 with
    | c :: r =>
        if (c =? 45)%N then (-1, r)
        else if (c =? 43)%N then (1, r)
        else (1, s1)
    | [] => (1, s1)
    end in
  match takeWhile isDigit s2 with
  | [] => None
  | ds => Some (sign * digitsValue ds)
  end.

(** [/^\d{1,2}$/.test(s)]. *)
Definition testOneOrTwoDigits (s : jsstring) : bool :=
  match s with
  | [a] => isDigit a
  | [a; b] => isDigit a && isDigit b
  | _ => false
  end.

Fixpoint startsWith (needle s : jsstring) : bool :=
  match needle, s with
  | [], _ => true
  | a :: needle', b :: s' => (a =? b)%N && startsWith needle' s'
  | _ :: _, [] => false
  end.

(** [s.includes(needle)]. *)
Fixpoint includes (needle s : jsstring) : bool :=
  startsWith needle s ||
  match s with
  | [] => false
  | _ :: s' => includes needle s'
  end.

(** [xs.join(', ')]. *)
Fixpoint joinWith (sep : jsstring) (xs : list jsstring) : jsstring :=
  match xs with
  | [] => []
  | [x] => x
  | x :: xs' => x ++ sep ++ joinWith sep xs'
  end.

End JS.

Import JS.

(** ** The clock the rate limiter runs against

    [W] is the state of everything outside the program (the wall clock,
    the browser, the remote site); reading the clock and sleeping are
    its operations. *)

Class Clock (W : Type) : Type := {
  dateNow : W -> Z * W;
  sleep : Z -> W -> W
}.

(** ** rate-limiter.ts *)

Module RateLimiter.

Record RateLimiterConfig : Type := {
  minDelay : Z;
  maxDelay : Z;
  useExponentialBackoff : bool
}.

(** The two private fields of the class. *)
Record State : Type := {
  lastRequestTime : Z;
  consecutiveErrors : Z
}.

(** Field initialisers of a new [RateLimiter]. *)
Definition initial : State :=
  {| lastRequestTime := 0; consecutiveErrors := 0 |}.

Definition createDefaultRateLimiterConfig : RateLimiterConfig :=
  {| minDelay := 1000; maxDelay := 30000; useExponentialBackoff := true |}.

Definition recordSuccess (s : State) : State :=
  {| lastRequestTime := lastRequestTime s; consecutiveErrors := 0 |}.

Definition recordError (s : State) : State :=
  {| lastRequestTime := lastRequestTime s;
     consecutiveErrors := consecutiveErrors s + 1 |}.

Definition reset (s : State) : State :=
  {| lastRequestTime := 0; consecutiveErrors := 0 |}.

(** The delay both [getCurrentDelay] and [waitForNextRequest] compute. *)
Definition backoffDelay (cfg : RateLimiterConfig) (s : State) : Z :=
  if useExponentialBackoff cfg && (consecutiveErrors s >? 0) then
    Z.min (minDelay cfg * 2 ^ consecutiveErrors s) (maxDelay cfg)
  else minDelay cfg.


(** [waitForNextRequest()]: [Date.now()] is read on entry, [sleep] is
    awaited when some delay remains, and [Date.now()] is read again for
    [lastRequestTime]. *)
Section Waiting.
Context {W : Type} {clock : Clock W}.

Definition waitForNextRequest (cfg : RateLimiterConfig) (s : State) (w : W)
    : State * W :=
  let '(now, w) := dateNow w in
  let timeSinceLastRequest := now - lastRequestTime s in
  let delay := backoffDelay cfg s in
  let remainingDelay := Z.max 0 (delay - timeSinceLastRequest) in
  let w := if remainingDelay >? 0 then sleep remainingDelay w else w in
  let '(now', w) := dateNow w in
  ({| lastRequestTime := now'; consecutiveErrors := consecutiveErrors s |}, w).

End Waiting.


End RateLimiter.

(** ** types.ts: the calendar records and the error class *)

Module Types.

Record CalendarDay : Type := {
  isHoliday : option bool;
  tithi : option jsstring;
  event : option jsstring;
  day : option jsstring;
  dayInEn : option jsstring;
  en : option jsstring
}.

Record CalendarMonth : Type := {
  month : option Z;
  days : option (list CalendarDay)
}.

Definition CalendarYear : Type := list CalendarMonth.

Record ValidationResult : Type := {
  isValid : bool;
  errors : list jsstring;
  warnings : list jsstring
}.

Inductive ScraperErrorType : Type :=
| NETWORK_ERROR
| PARSING_ERROR
| VALIDATION_ERROR
| FILE_SYSTEM_ERROR
| TIMEOUT_ERROR.

(** What a [catch] clause can receive: a [ScraperError] (with its type
    tag, message and wrapped cause), another [Error] instance with its
    message, or a value that is no [Error] at all. *)
Inductive Thrown : Type :=
| ScraperError (type : ScraperErrorType) (message : jsstring)
    (originalError : option Thrown)
| PlainError (message : jsstring)
| NonError.

(** [error instanceof ScraperError]. *)
Definition isScraperError (e : Thrown) : bool :=
  match e with
  | ScraperError _ _ _ => true
  | _ => false
  end.

Record ScrapingProgress : Type := {
  currentYear : Z;
  currentMonth : Z;
  totalYears : Z;
  totalMonths : Z;
  completedYears : Z;
  completedMonths : Z
}.

Record ScraperConfig : Type := {
  years : list Z;
  months : list Z;
  requestDelay : Z;
  maxRetries : Z;
  timeout : Z;
  saveIndividualYears : bool
}.

End Types.

Import Types.

(** ** dist/utils/validation.js *)

Module Validation.

(** The ten entries of [nepaliToEnglishMap]: U+0966..U+096F to
    ['0']..['9']. *)
Definition nepaliToEnglishMap : list (N * N) :=
  [ (2406, 48); (2407, 49); (2408, 50); (2409, 51); (2410, 52);
    (2411, 53); (2412, 54); (2413, 55); (2414, 56); (2415, 57) ]%N.

Fixpoint mapGet (table : list (N * N)) (c : N) : option N :=
  match table with
  | [] => None
  | (k, v) :: table' => if (k =? c)%N then Some v else mapGet table' c
  end.

(** [char => nepaliToEnglishMap[char] || char]. *)
Definition convertChar (c : N) : N :=
  match mapGet nepaliToEnglishMap c with
  | Some e => e
  | None => c
  end.

(** [nepaliStr.split('').map(...).join('')]. *)
Definition convertNepaliToEnglish (nepaliStr : jsstring) : jsstring :=
  map convertChar nepaliStr.

(** [errors.push(msg)] under a condition. *)
Definition pushIf (c : bool) (msg : jsstring) (l : list jsstring) : list jsstring :=
  if c then l ++ [msg] else l.

Definition showStr (s : jsstring) : jsstring := s.

(** [parseInt(v, 10)] of a field that may be absent: [undefined] is
    first turned into the text ["undefined"], which has no digits. *)
Definition parseIntField (v : option jsstring) : option Z :=
  parseInt10 (showOpt showStr v).

Definition dayLabel (dayIndex : Z) : jsstring :=
  lit "Day " ++ showZ (dayIndex + 1).

Definition mismatchWarning (dayIndex : Z) (d dE : jsstring) : jsstring :=
  dayLabel dayIndex ++ lit ": Nepali day '" ++ d
    ++ lit "' doesn't match English day '" ++ dE ++ lit "'".

Definition invalidDayNumberError (dayIndex : Z) (dE : jsstring) : jsstring :=
  dayLabel dayIndex ++ lit ": Invalid day number '" ++ dE ++ lit "'".

Definition validateCalendarDay (d : CalendarDay) (dayIndex : Z) : ValidationResult :=
  let errors := [] in
  let warnings := [] in
  (* Check required fields *)
  let errors := pushIf (negb (truthyStr (day d)))
    (dayLabel dayIndex ++ lit ": Missing 'day' field") errors in
  let errors := pushIf (negb (truthyStr (dayInEn d)))
    (dayLabel dayIndex ++ lit ": Missing 'dayInEn' field") errors in
  let errors := pushIf (negb (truthyStr (en d)))
    (dayLabel dayIndex ++ lit ": Missing 'en' field") errors in
  (* Validate day number consistency *)
  let warnings :=
    match day d, dayInEn d with
    | Some dv, Some dE =>
        if truthyStr (day d) && truthyStr (dayInEn d) then
          let nepaliToEnglish := convertNepaliToEnglish dv in
          pushIf (negb (bool_decide (nepaliToEnglish = dE)))
            (mismatchWarning dayIndex dv dE) warnings
        else warnings
    | _, _ => warnings
    end in
  (* Validate English date format *)
  let warnings :=
    match en d with
    | Some e =>
        pushIf (truthyStr (en d) && negb (testOneOrTwoDigits e))
          (dayLabel dayIndex ++ lit ": English date '" ++ e
             ++ lit "' should be a number") warnings
    | None => warnings
    end in
  (* Check for reasonable day numbers *)
  let errors :=
    match dayInEn d with
    | Some dE =>
        if truthyStr (dayInEn d) then
          let dayNum := parseInt10 dE in
          pushIf (match dayNum with
                  | None => true
                  | Some n => (n <? 1) || (n >? 32)
                  end)
            (invalidDayNumberError dayIndex dE) errors
        else errors
    | None => errors
    end in
  (* Validate boolean fields *)
  let errors :=
    pushIf (match isHoliday d with Some _ => false | None => true end)
      (dayLabel dayIndex ++ lit ": 'isHoliday' must be a boolean") errors in
  {| isValid := (length errors =? 0)%nat; errors := errors; warnings := warnings |}.

Definition monthLabel (monthIndex : Z) : jsstring :=
  lit "Month " ++ showZ (monthIndex + 1).

Definition sequenceWarning (monthIndex : Z) (i : nat) : jsstring :=
  monthLabel monthIndex ++ lit ": Non-sequential day numbers at position "
    ++ showZ (Z.of_nat i).

(** [xs.forEach((x, index) => ...)] as a left fold that also passes the
    index. *)
Fixpoint forEachIndexed {A S : Type} (f : A -> nat -> S -> S) (xs : list A)
    (index : nat) (s : S) : S :=
  match xs with
  | [] => s
  | x :: xs' => forEachIndexed f xs' (Datatypes.S index) (f x index s)
  end.

(** [month.days.map(day => parseInt(day.dayInEn, 10)).filter(num => !isNaN(num))]. *)
Definition dayNumbersOf (ds : list CalendarDay) : list Z :=
  omap (fun d => parseIntField (dayInEn d)) ds.

(** One iteration of the [for (let i = 1; ...)] loop of the month
    validator. *)
Definition sequenceStep (monthIndex : Z) (dayNumbers : list Z)
    (warnings : list jsstring) (i : nat) : list jsstring :=
  match dayNumbers !! i, dayNumbers !! (i - 1)%nat with
  | Some currentDay, Some previousDay =>
      if negb (currentDay =? previousDay + 1) then
        (* Allow for month transitions (e.g., 31 -> 1) *)
        if negb ((previousDay >? 28) && (currentDay =? 1)) then
          warnings ++ [sequenceWarning monthIndex i]
        else warnings
      else warnings
  | _, _ => warnings
  end.

Definition sequenceCheck (monthIndex : Z) (dayNumbers : list Z)
    (warnings : list jsstring) : list jsstring :=
  if (1 <? length dayNumbers)%nat then
    fold_left (sequenceStep monthIndex dayNumbers)
      (seq 1 (length dayNumbers - 1)) warnings
  else warnings.

Definition validateCalendarMonth (m : CalendarMonth) (monthIndex : Z)
    : ValidationResult :=
  let errors := [] in
  let warnings := [] in
  (* Check month number *)
  let errors :=
    pushIf (match month m with
            | None => true
            | Some n => (n =? 0) || (n <? 1) || (n >? 12)
            end)
      (monthLabel monthIndex ++ lit ": Invalid month number '"
         ++ showOpt showZ (month m) ++ lit "'") errors in
  (* Check if days array exists *)
  match days m with
  | None =>
      let errors := errors ++ [monthLabel monthIndex ++ lit ": 'days' must be an array"] in
      {| isValid := false; errors := errors; warnings := warnings |}
  | Some ds =>
      (* Check reasonable number of days *)
      let warnings :=
        pushIf ((length ds <? 28)%nat || (32 <? length ds)%nat)
          (monthLabel monthIndex ++ lit ": Unusual number of days ("
             ++ showZ (Z.of_nat (length ds)) ++ lit ")") warnings in
      (* Validate each day *)
      let '(errors, warnings) :=
        forEachIndexed (fun d dayIndex '(errors, warnings) =>
          let dayValidation := validateCalendarDay d (Z.of_nat dayIndex) in
          (errors ++ map (fun err => monthLabel monthIndex ++ lit ", " ++ err)
                       (Types.errors dayValidation),
           warnings ++ map (fun warn => monthLabel monthIndex ++ lit ", " ++ warn)
                         (Types.warnings dayValidation)))
          ds 0%nat (errors, warnings) in
      (* Check for sequential day numbers *)
      let dayNumbers := dayNumbersOf ds in
      let warnings := sequenceCheck monthIndex dayNumbers warnings in
      {| isValid := (length errors =? 0)%nat; errors := errors; warnings := warnings |}
  end.

Definition yearLabel (yearNumber : Z) : jsstring :=
  lit "Year " ++ showZ yearNumber.

Definition monthCountError (yearNumber : Z) (n : nat) : jsstring :=
  yearLabel yearNumber ++ lit ": Must have exactly 12 months, found "
    ++ showZ (Z.of_nat n).

Definition monthPositionError (yearNumber : Z) (index : nat) (m : CalendarMonth)
    : jsstring :=
  yearLabel yearNumber ++ lit ": Month at index " ++ showZ (Z.of_nat index)
    ++ lit " has incorrect month number " ++ showOpt showZ (month m).

Definition yearPrefix (yearNumber : Z) (msg : jsstring) : jsstring :=
  yearLabel yearNumber ++ lit ", " ++ msg.

(** The argument is [None] when [Array.isArray(year)] is false. *)
Definition validateCalendarYear (year : option CalendarYear) (yearNumber : Z)
    : ValidationResult :=
  let errors := [] in
  let warnings := [] in
  (* Check if it's an array *)
  match year with
  | None =>
      let errors := errors ++ [yearLabel yearNumber ++ lit ": Must be an array of months"] in
      {| isValid := false; errors := errors; warnings := warnings |}
  | Some ms =>
      (* Check number of months *)
      let errors :=
        pushIf (negb (length ms =? 12)%nat)
          (monthCountError yearNumber (length ms)) errors in
      (* Validate each month *)
      let '(errors, warnings) :=
        forEachIndexed (fun m monthIndex '(errors, warnings) =>
          let monthValidation := validateCalendarMonth m (Z.of_nat monthIndex) in
          (errors ++ map (yearPrefix yearNumber) (Types.errors monthValidation),
           warnings ++ map (yearPrefix yearNumber) (Types.warnings monthValidation)))
          ms 0%nat (errors, warnings) in
      (* Check month sequence *)
      let errors :=
        forEachIndexed (fun m index errors =>
          pushIf (negb (bool_decide (month m = Some (Z.of_nat index + 1))))
            (monthPositionError yearNumber index m) errors)
          ms 0%nat errors in
      {| isValid := (length errors =? 0)%nat; errors := errors; warnings := warnings |}
  end.

(** [validateScrapedData(data: unknown)]: [None] is a value that is
    falsy or whose [typeof] is not ['object']; otherwise the argument is
    given by its [Object.entries], a year value being [None] when it is
    not an array. *)
Definition validateScrapedData
    (data : option (list (jsstring * option CalendarYear))) : ValidationResult :=
  let errors := [] in
  let warnings := [] in
  match data with
  | None =>
      let errors := errors ++ [lit "Data must be an object"] in
      {| isValid := false; errors := errors; warnings := warnings |}
  | Some calendarData =>
      (* Validate each year *)
      let '(errors, warnings) :=
        fold_left (fun '(errors, warnings) '(yearStr, yearData) =>
          match parseInt10 yearStr with
          | None =>
              (errors ++ [lit "Invalid year key: '" ++ yearStr ++ lit "'"], warnings)
          | Some yearNumber =>
              match yearData with
              | None =>
                  (errors ++ [yearLabel yearNumber ++ lit ": Data must be an array"],
                   warnings)
              | Some _ =>
                  let yearValidation := validateCalendarYear yearData yearNumber in
                  (errors ++ Types.errors yearValidation,
                   warnings ++ Types.warnings yearValidation)
              end
          end) calendarData (errors, warnings) in
      {| isValid := (length errors =? 0)%nat; errors := errors; warnings := warnings |}
  end.

(** *** Notions the properties of the validators are stated with *)

(** Whether [dayInEn] parses to a day number the validator accepts. *)
Definition dayNumberInRange (dE : jsstring) : bool :=
  match parseInt10 dE with
  | Some n => (1 <=? n) && (n <=? 32)
  | None => false
  end.


Definition gapAt (dayNumbers : list Z) (i : nat) : bool :=
  match dayNumbers !! i, dayNumbers !! (i - 1)%nat with
  | Some current, Some previous =>
      negb (current =? previous + 1)
      && negb ((previous >? 28) && (current =? 1))
  | _, _ => false
  end.


Definition jsstring_eq_dec : forall x y : list N, {x = y} + {x <> y} :=
  List.list_eq_dec N.eq_dec.

(** What a [forEach] whose callback only appends has appended at the
    end: the pieces [g x index], in order. *)
Fixpoint collectIndexed {A B : Type} (g : A -> nat -> list B) (xs : list A)
    (index : nat) : list B :=
  match xs with
  | [] => []
  | x :: xs' => g x index ++ collectIndexed g xs' (S index)
  end.

End Validation.

(** ** dist/scraper.js *)

(** The browser the scraper drives.  Each operation of puppeteer that
    the code awaits either resolves or rejects with some thrown value;
    [evaluateDays] is [page.evaluate] applied to the extraction callback,
    whose result is the list of day objects of the page. *)

Definition Handle : Type := N.

Class Puppeteer (W : Type) : Type := {
  launch : W -> (Thrown + Handle) * W;
  newPage : Handle -> W -> (Thrown + Handle) * W;
  setUserAgent : Handle -> W -> (Thrown + unit) * W;
  setViewport : Handle -> W -> (Thrown + unit) * W;
  goto : Handle -> jsstring -> Z -> W -> (Thrown + unit) * W;
  evaluateDays : Handle -> W -> (Thrown + list CalendarDay) * W;
  browserClose : Handle -> W -> (Thrown + unit) * W
}.

Module Scraper.

(** What a run does that an observer can see, in order: a call of the
    progress callback, the [page.goto] of a unit, and the three calls
    into the rate limiter. *)
Inductive Event : Type :=
| EProgress (p : ScrapingProgress)
| EFetch (year month : Z)
| ERecordSuccess
| ERecordError
| EWait.

(** The fields of a [HamroPatroScraper] other than its rate limiter. *)
Record Scraper : Type := {
  config : ScraperConfig;
  browser : option Handle;
  page : option Handle
}.

(** [new HamroPatroScraper(config)]. *)
Definition construct (cfg : ScraperConfig) : Scraper :=
  {| config := cfg; browser := None; page := None |}.

Section WithWorld.
Context {W : Type} {clock : Clock W} {puppeteer : Puppeteer W}.

(** What a method runs against: the world, the state of
    [this.rateLimiter] and the events so far. *)
Record Machine : Type := {
  world : W;
  limiter : RateLimiter.State;
  events : list Event
}.

(** A computation that may throw. *)
Definition M (A : Type) : Type := Machine -> (Thrown + A) * Machine.

Definition ret {A : Type} (a : A) : M A := fun s => (inr a, s).

Definition throw {A : Type} (e : Thrown) : M A := fun s => (inl e, s).

Definition bind {A B : Type} (c : M A) (k : A -> M B) : M B :=
  fun s =>
    match c s with
    | (inr a, s') => k a s'
    | (inl e, s') => (inl e, s')
    end.

(** [try { body } catch (error) { handler }]. *)
Definition tryCatch {A : Type} (body : M A) (handler : Thrown -> M A) : M A :=
  fun s =>
    match body s with
    | (inr a, s') => (inr a, s')
    | (inl e, s') => handler e s'
    end.

(** An awaited operation of the world. *)
Definition await {A : Type} (op : W -> (Thrown + A) * W) : M A :=
  fun s =>
    let '(r, w) := op (world s) in
    (r, {| world := w; limiter := limiter s; events := events s |}).

Definition emit (e : Event) : M unit :=
  fun s =>
    (inr tt, {| world := world s; limiter := limiter s;
                events := events s ++ [e] |}).

Definition onLimiter (f : RateLimiter.State -> RateLimiter.State) : M unit :=
  fun s =>
    (inr tt, {| world := world s; limiter := f (limiter s);
                events := events s |}).

Definition rateLimiterConfig : RateLimiter.RateLimiterConfig :=
  RateLimiter.createDefaultRateLimiterConfig.

Definition recordSuccess : M unit :=
  bind (emit ERecordSuccess) (fun _ => onLimiter RateLimiter.recordSuccess).

Definition recordError : M unit :=
  bind (emit ERecordError) (fun _ => onLimiter RateLimiter.recordError).

Definition waitForNextRequest : M unit :=
  bind (emit EWait) (fun _ s =>
    let '(l, w) :=
      RateLimiter.waitForNextRequest rateLimiterConfig (limiter s) (world s) in
    (inr tt, {| world := w; limiter := l; events := events s |})).

Notation "x <- c ;; k" := (bind c (fun x => k))
  (at level 100, c at next level, right associativity).
Notation "c ;;; k" := (bind c (fun _ => k))
  (at level 100, right associativity).

Definition userAgent : jsstring :=
  lit "Mozilla/5.0 (Macintosh; Intel Mac OS X 10_15_7) AppleWebKit/537.36 (KHTML, like Gecko) Chrome/120.0.0.0 Safari/537.36".

(** [initialize()]: the scraper after the call, and what the call threw
    if it did.  [this.browser] and [this.page] are assigned as soon as
    the awaited call resolves. *)
Definition initialize (this : Scraper) (s : Machine)
    : (Thrown + unit) * Scraper * Machine :=
  let failed e := inl (ScraperError NETWORK_ERROR
                         (lit "Failed to initialize browser") (Some e)) in
  match await launch s with
  | (inl e, s) => (failed e, this, s)
  | (inr b, s) =>
      let this := {| config := config this; browser := Some b; page := page this |} in
      match await (newPage b) s with
      | (inl e, s) => (failed e, this, s)
      | (inr p, s) =>
          let this := {| config := config this; browser := browser this;
                         page := Some p |} in
          match await (setUserAgent p) s with
          | (inl e, s) => (failed e, this, s)
          | (inr _, s) =>
              match await (setViewport p) s with
              | (inl e, s) => (failed e, this, s)
              | (inr _, s) => (inr tt, this, s)
              end
          end
      end
  end.

(** [close()]. *)
Definition close (this : Scraper) (s : Machine)
    : (Thrown + unit) * Scraper * Machine :=
  match browser this with
  | Some b =>
      match await (browserClose b) s with
      | (inl e, s) => (inl e, this, s)
      | (inr _, s) =>
          (inr tt, {| config := config this; browser := None; page := None |}, s)
      end
  | None => (inr tt, this, s)
  end.

Definition calendarUrl (year month : Z) : jsstring :=
  lit "https://www.hamropatro.com/calendar/" ++ showZ year ++ lit "/"
    ++ showZ month ++ lit "/".

(** The [catch] clause of [scrapeMonth]. *)
Definition classify (url : jsstring) (error : Thrown) : Thrown :=
  if isScraperError error then error
  else
    match error with
    | PlainError message =>
        if includes (lit "timeout") message then
          ScraperError TIMEOUT_ERROR (lit "Timeout while scraping " ++ url)
            (Some error)
        else
          ScraperError NETWORK_ERROR (lit "Failed to scrape " ++ url) (Some error)
    | _ => ScraperError NETWORK_ERROR (lit "Failed to scrape " ++ url) (Some error)
    end.

Definition scrapeMonth (this : Scraper) (year month : Z) : M CalendarMonth :=
  match page this with
  | None => throw (ScraperError NETWORK_ERROR (lit "Page not available") None)
  | Some p =>
      let url := calendarUrl year month in
      tryCatch
        ((* Navigate to the page with timeout *)
         emit (EFetch year month) ;;;
         await (goto p url (timeout (config this))) ;;;
         (* Extract calendar data *)
         days <- await (evaluateDays p) ;;
         let monthData := {| month := Some month; days := Some days |} in
         (* Validate the scraped data *)
         let validation := Validation.validateCalendarMonth monthData (month - 1) in
         if negb (isValid validation) then
           throw (ScraperError VALIDATION_ERROR
                    (lit "Validation failed for " ++ showZ year ++ lit "/"
                       ++ showZ month ++ lit ": "
                       ++ joinWith (lit ", ") (errors validation)) None)
         else ret monthData)
        (fun error => throw (classify url error))
  end.

(** The inner [for] loop of [scrape], from [monthIndex] on; [ms] are the
    months not yet visited. *)
Fixpoint monthLoop (this : Scraper) (progressCallback : bool)
    (year yearIndex : Z) (ms : list Z) (monthIndex : Z)
    (data : gmap Z (list CalendarMonth)) : M (gmap Z (list CalendarMonth)) :=
  match ms with
  | [] => ret data
  | month :: ms' =>
      (* Update progress *)
      (if progressCallback then
         emit (EProgress
                 {| currentYear := year;
                    currentMonth := month;
                    totalYears := Z.of_nat (length (years (config this)));
                    totalMonths := Z.of_nat (length (months (config this)));
                    completedYears := yearIndex;
                    completedMonths := monthIndex |})
       else ret tt) ;;;
      data <- tryCatch
        (monthData <- scrapeMonth this year month ;;
         let data := alter (fun a => a ++ [monthData]) year data in
         recordSuccess ;;;
         ret data)
        (fun error =>
           recordError ;;;
           if isScraperError error then throw error
           else throw (ScraperError PARSING_ERROR
                         (lit "Failed to scrape year " ++ showZ year
                            ++ lit ", month " ++ showZ month) (Some error))) ;;
      (* Rate limiting *)
      waitForNextRequest ;;;
      monthLoop this progressCallback year yearIndex ms' (monthIndex + 1) data
  end.

(** The outer [for] loop of [scrape]. *)
Fixpoint yearLoop (this : Scraper) (progressCallback : bool)
    (ys : list Z) (yearIndex : Z)
    (data : gmap Z (list CalendarMonth)) : M (gmap Z (list CalendarMonth)) :=
  match ys with
  | [] => ret data
  | year :: ys' =>
      let data := <[year := []]> data in
      data <- monthLoop this progressCallback year yearIndex
                (months (config this)) 0 data ;;
      yearLoop this progressCallback ys' (yearIndex + 1) data
  end.

(** [scrape(progressCallback)]; the flag says whether a callback was
    supplied. *)
Definition scrape (this : Scraper) (progressCallback : bool)
    : M (gmap Z (list CalendarMonth)) :=
  match page this with
  | None =>
      throw (ScraperError NETWORK_ERROR
               (lit "Scraper not initialized. Call initialize() first.") None)
  | Some _ =>
      let data := ∅ in
      yearLoop this progressCallback (years (config this)) 0 data
  end.

(** The machine after an event, and in another world. *)
Definition logged (ev : Event) (s : Machine) : Machine :=
  {| world := world s; limiter := limiter s; events := events s ++ [ev] |}.

Definition atWorld (w : W) (s : Machine) : Machine :=
  {| world := w; limiter := limiter s; events := events s |}.

(** The progress record of the unit the inner loop is at, and the
    machine after the callback, if any, was called with it. *)
Definition progressAt (this : Scraper) (year yearIndex month monthIndex : Z)
    : ScrapingProgress :=
  {| currentYear := year;
     currentMonth := month;
     totalYears := Z.of_nat (length (years (config this)));
     totalMonths := Z.of_nat (length (months (config this)));
     completedYears := yearIndex;
     completedMonths := monthIndex |}.

Definition afterProgress (cb : bool) (p : ScrapingProgress) (s : Machine)
    : Machine :=
  if cb then logged (EProgress p) s else s.

End WithWorld.

Arguments Machine W : clear implicits.

End Scraper.

(** ** The shape of a run

    The units of a configuration in the order [scrape] visits them, each
    with the progress record the callback receives for it, and the events
    one unit leaves behind. *)

Module RunShape.
Import Scraper.

Fixpoint monthUnits (cfg : ScraperConfig) (year yearIndex : Z) (ms : list Z)
    (monthIndex : Z) : list ScrapingProgress :=
  match ms with
  | [] => []
  | month :: ms' =>
      {| currentYear := year;
         currentMonth := month;
         totalYears := Z.of_nat (length (years cfg));
         totalMonths := Z.of_nat (length (months cfg));
         completedYears := yearIndex;
         completedMonths := monthIndex |}
      :: monthUnits cfg year yearIndex ms' (monthIndex + 1)
  end.

Fixpoint yearUnits (cfg : ScraperConfig) (ys : list Z) (yearIndex : Z)
    : list ScrapingProgress :=
  match ys with
  | [] => []
  | year :: ys' =>
      monthUnits cfg year yearIndex (months cfg) 0
      ++ yearUnits cfg ys' (yearIndex + 1)
  end.

Definition unitsOf (cfg : ScraperConfig) : list ScrapingProgress :=
  yearUnits cfg (years cfg) 0.

(** The call of the progress callback, when one was supplied. *)
Definition progressEvents (progressCallback : bool) (p : ScrapingProgress)
    : list Event :=
  if progressCallback then [EProgress p] else [].

(** A unit that is fetched and validated. *)
Definition successBlock (progressCallback : bool) (p : ScrapingProgress)
    : list Event :=
  progressEvents progressCallback p
  ++ [EFetch (currentYear p) (currentMonth p); ERecordSuccess; EWait].

(** A unit whose fetch or validation throws. *)
Definition failureBlock (progressCallback : bool) (p : ScrapingProgress)
    : list Event :=
  progressEvents progressCallback p
  ++ [EFetch (currentYear p) (currentMonth p); ERecordError].


(** The progress records among some events, in order. *)
Definition progressOf (tr : list Event) : list ScrapingProgress :=
  omap (fun e => match e with EProgress p => Some p | _ => None end) tr.


End RunShape.

(** ** JSON documents: [JSON.stringify(value, null, 2)] and [JSON.parse]

    The values of the documents considered: numbers are integers. *)

Module Json.

Inductive json : Type :=
| JNull
| JBool (b : bool)
| JNumber (z : Z)
| JString (s : jsstring)
| JArray (items : list json)
| JObject (props : list (jsstring * json)).

(** *** Writing *)

Definition hexDigit (d : N) : N :=
  if (d <? 10)%N then (48 + d)%N else (87 + d)%N.

(** [\uXXXX], lower-case. *)
Definition unicodeEscape (c : N) : jsstring :=
  [92; 117; hexDigit (c / 4096); hexDigit ((c / 256) mod 16);
   hexDigit ((c / 16) mod 16); hexDigit (c mod 16)]%N.

Definition isHighSurrogate (c : N) : bool := ((55296 <=? c) && (c <=? 56319))%N.
Definition isLowSurrogate (c : N) : bool := ((56320 <=? c) && (c <=? 57343))%N.

(** How [QuoteJSONString] writes one code unit that is not part of a
    surrogate pair. *)
Definition quoteUnit (c : N) : jsstring :=
  (if c =? 8 then [92; 98]
   else if c =? 9 then [92; 116]
   else if c =? 10 then [92; 110]
   else if c =? 12 then [92; 102]
   else if c =? 13 then [92; 114]
   else if c =? 34 then [92; 34]
   else if c =? 92 then [92; 92]
   else if (c <? 32) || isHighSurrogate c || isLowSurrogate c
        then unicodeEscape c
   else [c])%N.

Fixpoint quoteUnits (s : jsstring) : jsstring :=
  match s with
  | [] => []
  | c :: r =>
      if isHighSurrogate c then
        match r with
        | d :: r' =>
            if isLowSurrogate d then c :: d :: quoteUnits r'
            else quoteUnit c ++ quoteUnits r
        | [] => quoteUnit c
        end
      else quoteUnit c ++ quoteUnits r
  end.

Definition quoteJSONString (s : jsstring) : jsstring :=
  34%N :: quoteUnits s ++ [34%N].

(** A line feed and the indentation of the next line. *)
Definition newline (indent : nat) : jsstring := 10%N :: repeat 32%N indent.

Fixpoint stringifyValue (indent : nat) (v : json) : jsstring :=
  match v with
  | JNull => lit "null"
  | JBool b => if b then lit "true" else lit "false"
  | JNumber z => showZ z
  | JString s => quoteJSONString s
  | JArray items =>
      match items with
      | [] => lit "[]"
      | x :: xs =>
          lit "[" ++ newline (indent + 2) ++ stringifyValue (indent + 2) x
          ++ (fix more (xs : list json) : jsstring :=
                match xs with
                | [] => []
                | y :: ys =>
                    lit "," ++ newline (indent + 2)
                    ++ stringifyValue (indent + 2) y ++ more ys
                end) xs
          ++ newline indent ++ lit "]"
      end
  | JObject props =>
      match props with
      | [] => lit "{}"
      | (k, x) :: ps =>
          lit "{" ++ newline (indent + 2) ++ quoteJSONString k ++ lit ": "
          ++ stringifyValue (indent + 2) x
          ++ (fix more (ps : list (jsstring * json)) : jsstring :=
                match ps with
                | [] => []
                | (k', y) :: ps' =>
                    lit "," ++ newline (indent + 2) ++ quoteJSONString k'
                    ++ lit ": " ++ stringifyValue (indent + 2) y ++ more ps'
                end) ps
          ++ newline indent ++ lit "}"
      end
  end.

(** [JSON.stringify(value, null, 2)]. *)
Definition stringify (v : json) : jsstring := stringifyValue 0 v.

(** *** Reading *)

Definition isJsonWhiteSpace (c : N) : bool :=
  ((c =? 32) || (c =? 9) || (c =? 10) || (c =? 13))%N.

Definition skipWs (s : jsstring) : jsstring := dropWhile isJsonWhiteSpace s.

Definition hexValue (c : N) : option N :=
  (if (48 <=? c) && (c <=? 57) then Some (c - 48)
   else if (97 <=? c) && (c <=? 102) then Some (c - 87)
   else if (65 <=? c) && (c <=? 70) then Some (c - 55)
   else None)%N.

Definition simpleEscape (e : N) : option N :=
  (if e =? 34 then Some 34
   else if e =? 92 then Some 92
   else if e =? 47 then Some 47
   else if e =? 98 then Some 8
   else if e =? 102 then Some 12
   else if e =? 110 then Some 10
   else if e =? 114 then Some 13
   else if e =? 116 then Some 9
   else None)%N.

(** The code units of a string literal, read from just after its
    opening quote, and what follows its closing quote. *)
Fixpoint parseStringBody (s : jsstring) : option (jsstring * jsstring) :=
  match s with
  | [] => None
  | c :: r =>
      if (c =? 34)%N then Some ([], r)
      else if (c =? 92)%N then
        match r with
        | [] => None
        | e :: r1 =>
            if (e =? 117)%N then
              match r1 with
              | h1 :: h2 :: h3 :: h4 :: r2 =>
                  match hexValue h1, hexValue h2, hexValue h3, hexValue h4 with
                  | Some a, Some b, Some c', Some d =>
                      match parseStringBody r2 with
                      | Some (str, rest) =>
                          Some ((a * 4096 + b * 256 + c' * 16 + d)%N :: str, rest)
                      | None => None
                      end
                  | _, _, _, _ => None
                  end
              | _ => None
              end
            else
              match simpleEscape e with
              | Some x =>
                  match parseStringBody r1 with
                  | Some (str, rest) => Some (x :: str, rest)
                  | None => None
                  end
              | None => None
              end
        end
      else if (c <? 32)%N then None
      else
        match parseStringBody r with
        | Some (str, rest) => Some (c :: str, rest)
        | None => None
        end
  end.

(** An integer literal: an optional minus sign, then digits without a
    needless leading zero.  A fraction or an exponent after the digits is
    outside the documents considered. *)
Definition parseNumber (s : jsstring) : option (Z * jsstring) :=
  let '(sign, s1) :=
    match s with
    | c :: r => if (c =? 45)%N then (-1, r) else (1, s)
    | [] => (1, s)
    end in
  let rest := dropWhile isDigit s1 in
  match takeWhile isDigit s1 with
  | [] => None
  | d0 :: ds =>
      if (d0 =? 48)%N && negb (match ds with [] => true | _ => false end)
      then None
      else
        match rest with
        | c :: _ =>
            if ((c =? 46) || (c =? 101) || (c =? 69))%N then None
            else Some (sign * digitsValue (d0 :: ds), rest)
        | [] => Some (sign * digitsValue (d0 :: ds), rest)
        end
  end.

(** [CreateDataProperty] on an object under construction: a key that
    is there already keeps its place and takes the new value. *)
Fixpoint setProp (k : jsstring) (v : json) (props : list (jsstring * json))
    : list (jsstring * json) :=
  match props with
  | [] => [(k, v)]
  | (k', v') :: props' =>
      if bool_decide (k' = k) then (k', v) :: props'
      else (k', v') :: setProp k v props'
  end.

Definition buildObject (members : list (jsstring * json))
    : list (jsstring * json) :=
  fold_left (fun props '(k, v) => setProp k v props) members [].

Fixpoint parseValue (fuel : nat) (s : jsstring) : option (json * jsstring) :=
  match fuel with
  | O => None
  | S fuel' =>
      let s := skipWs s in
      if startsWith (lit "null") s then Some (JNull, skipn 4 s)
      else if startsWith (lit "true") s then Some (JBool true, skipn 4 s)
      else if startsWith (lit "false") s then Some (JBool false, skipn 5 s)
      else
        match s with
        | [] => None
        | c :: r =>
            if (c =? 34)%N then
              match parseStringBody r with
              | Some (str, rest) => Some (JString str, rest)
              | None => None
              end
            else if (c =? 91)%N then
              match skipWs r with
              | c' :: r' =>
                  if (c' =? 93)%N then Some (JArray [], r')
                  else
                    match parseItems fuel' (c' :: r') with
                    | Some (items, rest) => Some (JArray items, rest)
                    | None => None
                    end
              | [] => None
              end
            else if (c =? 123)%N then
              match skipWs r with
              | c' :: r' =>
                  if (c' =? 125)%N then Some (JObject [], r')
                  else
                    match parseMembers fuel' (c' :: r') with
                    | Some (members, rest) =>
                        Some (JObject (buildObject members), rest)
                    | None => None
                    end
              | [] => None
              end
            else
              match parseNumber s with
              | Some (z, rest) => Some (JNumber z, rest)
              | None => None
              end
        end
  end
with parseItems (fuel : nat) (s : jsstring) : option (list json * jsstring) :=
  match fuel with
  | O => None
  | S fuel' =>
      match parseValue fuel' s with
      | Some (v, r) =>
          match skipWs r with
          | c :: r' =>
              if (c =? 44)%N then
                match parseItems fuel' r' with
                | Some (vs, rest) => Some (v :: vs, rest)
                | None => None
                end
              else if (c =? 93)%N then Some ([v], r')
              else None
          | [] => None
          end
      | None => None
      end
  end
with parseMembers (fuel : nat) (s : jsstring)
    : option (list (jsstring * json) * jsstring) :=
  match fuel with
  | O => None
  | S fuel' =>
      match skipWs s with
      | c :: r =>
          if (c =? 34)%N then
            match parseStringBody r with
            | Some (k, r1) =>
                match skipWs r1 with
                | c1 :: r2 =>
                    if (c1 =? 58)%N then
                      match parseValue fuel' r2 with
                      | Some (v, r3) =>
                          match skipWs r3 with
                          | c3 :: r4 =>
                              if (c3 =? 44)%N then
                                match parseMembers fuel' r4 with
                                | Some (ps, rest) => Some ((k, v) :: ps, rest)
                                | None => None
                                end
                              else if (c3 =? 125)%N then Some ([(k, v)], r4)
                              else None
                          | [] => None
                          end
                      | None => None
                      end
                    else None
                | [] => None
                end
            | None => None
            end
          else None
      | [] => None
      end
  end.

(** [JSON.parse(text)]; [None] is a [SyntaxError]. *)
Definition parse (text : jsstring) : option json :=
  match parseValue (S (length text)) text with
  | Some (v, rest) =>
      match skipWs rest with
      | [] => Some v
      | _ :: _ => None
      end
  | None => None
  end.

(** *** Notions the round trip is stated and proved with *)

(** The digits of a decimal numeral, most significant first. *)
Fixpoint digitChars (u : Decimal.uint) : list N :=
  match u with
  | Decimal.Nil => []
  | Decimal.D0 u' => 48%N :: digitChars u'
  | Decimal.D1 u' => 49%N :: digitChars u'
  | Decimal.D2 u' => 50%N :: digitChars u'
  | Decimal.D3 u' => 51%N :: digitChars u'
  | Decimal.D4 u' => 52%N :: digitChars u'
  | Decimal.D5 u' => 53%N :: digitChars u'
  | Decimal.D6 u' => 54%N :: digitChars u'
  | Decimal.D7 u' => 55%N :: digitChars u'
  | Decimal.D8 u' => 56%N :: digitChars u'
  | Decimal.D9 u' => 57%N :: digitChars u'
  end.

Definition digitStep (acc : Z) (c : N) : Z := acc * 10 + digitValue c.

(** What may follow an integer literal for it to end there. *)
Definition endsNumber (rest : list N) : Prop :=
  match rest with
  | [] => True
  | c :: _ => isDigit c = false /\ c <> 46%N /\ c <> 101%N /\ c <> 69%N
  end.

(** A document whose objects have no key twice. *)
Inductive WellFormed : json -> Prop :=
| wf_null : WellFormed JNull
| wf_bool (b : bool) : WellFormed (JBool b)
| wf_number (z : Z) : WellFormed (JNumber z)
| wf_string (s : list N) : WellFormed (JString s)
| wf_array (items : list json) :
    Forall WellFormed items -> WellFormed (JArray items)
| wf_object (props : list (list N * json)) :
    List.NoDup (map fst props) ->
    Forall (fun kv => WellFormed (snd kv)) props ->
    WellFormed (JObject props).

(** The text of the items after the first, and of the members after the
    first. *)
Fixpoint itemsTail (indent : nat) (xs : list json) : list N :=
  match xs with
  | [] => []
  | y :: ys =>
      44%N :: newline indent ++ stringifyValue indent y ++ itemsTail indent ys
  end.

Fixpoint membersTail (indent : nat) (ps : list (list N * json)) : list N :=
  match ps with
  | [] => []
  | (k, y) :: ps' =>
      44%N :: newline indent ++ quoteJSONString k ++ 58%N :: 32%N
        :: stringifyValue indent y ++ membersTail indent ps'
  end.

(** What may follow a value inside the text [stringify] writes: the
    end of the text, a comma, or the line feed before a closing
    bracket. *)
Definition follows (rest : list N) : Prop :=
  match rest with
  | [] => True
  | c :: _ => c = 44%N \/ c = 10%N
  end.

(** The value is read back from its text, whatever white space comes
    before it and whatever text [stringify] may put after it. *)
Definition ParsesBack (v : json) : Prop :=
  forall (indent : nat) (pad rest : list N) (fuel : nat),
    WellFormed v ->
    Forall (fun w => isJsonWhiteSpace w = true) pad ->
    follows rest ->
    (length (stringifyValue indent v) <= fuel)%nat ->
    parseValue fuel (pad ++ stringifyValue indent v ++ rest) = Some (v, rest).

End Json.

(** ** exporters/json.ts and the reading side of the CLI

    A [CalendarData] object is given by its entries in the order the
    object enumerates them; its keys are the years.  A record is written
    as the object of its own properties: a field that is [undefined] has
    none. *)

Module JsonExporter.
Import Json.

Definition prop {A : Type} (name : string) (toJson : A -> json) (v : option A)
    : list (jsstring * json) :=
  match v with
  | Some a => [(lit name, toJson a)]
  | None => []
  end.

Definition dayToJson (d : CalendarDay) : json :=
  JObject (prop "isHoliday" JBool (isHoliday d)
           ++ prop "tithi" JString (tithi d)
           ++ prop "event" JString (event d)
           ++ prop "day" JString (day d)
           ++ prop "dayInEn" JString (dayInEn d)
           ++ prop "en" JString (en d)).

Definition monthToJson (m : CalendarMonth) : json :=
  JObject (prop "month" JNumber (month m)
           ++ prop "days" (fun ds => JArray (map dayToJson ds)) (days m)).

Definition yearToJson (y : CalendarYear) : json := JArray (map monthToJson y).

(** The keys of the object are the years as property names. *)
Definition dataToJson (data : list (Z * CalendarYear)) : json :=
  JObject (map (fun '(year, yearData) => (showZ year, yearToJson yearData)) data).

(** Reading a parsed document as the records it was written from. *)

Fixpoint getProp (k : jsstring) (props : list (jsstring * json)) : option json :=
  match props with
  | [] => None
  | (k', v) :: props' => if bool_decide (k' = k) then Some v else getProp k props'
  end.

Definition asBool (v : json) : option bool :=
  match v with JBool b => Some b | _ => None end.

Definition asString (v : json) : option jsstring :=
  match v with JString s => Some s | _ => None end.

Definition asNumber (v : json) : option Z :=
  match v with JNumber z => Some z | _ => None end.

Fixpoint traverse {A B : Type} (f : A -> option B) (l : list A)
    : option (list B) :=
  match l with
  | [] => Some []
  | a :: l' =>
      match f a, traverse f l' with
      | Some b, Some bs => Some (b :: bs)
      | _, _ => None
      end
  end.

(** A field of a record: absent, or present with a value of the
    declared kind; anything else is not a value of the record type. *)
Definition readField {A : Type} (name : string) (asA : json -> option A)
    (props : list (jsstring * json)) : option (option A) :=
  match getProp (lit name) props with
  | None => Some None
  | Some v =>
      match asA v with
      | Some a => Some (Some a)
      | None => None
      end
  end.

Definition dayOfJson (v : json) : option CalendarDay :=
  match v with
  | JObject props =>
      match readField "isHoliday" asBool props,
            readField "tithi" asString props,
            readField "event" asString props,
            readField "day" asString props,
            readField "dayInEn" asString props,
            readField "en" asString props with
      | Some h, Some t, Some e, Some d, Some dE, Some n =>
          Some {| isHoliday := h; tithi := t; event := e;
                  day := d; dayInEn := dE; en := n |}
      | _, _, _, _, _, _ => None
      end
  | _ => None
  end.

Definition asDays (v : json) : option (list CalendarDay) :=
  match v with
  | JArray items => traverse dayOfJson items
  | _ => None
  end.

Definition monthOfJson (v : json) : option CalendarMonth :=
  match v with
  | JObject props =>
      match readField "month" asNumber props, readField "days" asDays props with
      | Some m, Some ds => Some {| month := m; days := ds |}
      | _, _ => None
      end
  | _ => None
  end.

Definition yearOfJson (v : json) : option CalendarYear :=
  match v with
  | JArray items => traverse monthOfJson items
  | _ => None
  end.

(** The year of a key is read with [parseInt], as the validators and
    the exporters do on [Object.entries]. *)
Definition dataOfJson (v : json) : option (list (Z * CalendarYear)) :=
  match v with
  | JObject props =>
      traverse (fun '(yearStr, yearData) =>
                  match parseInt10 yearStr, yearOfJson yearData with
                  | Some year, Some y => Some (year, y)
                  | _, _ => None
                  end) props
  | _ => None
  end.

(** [s.trim()]. *)
Definition trim (s : jsstring) : jsstring :=
  rev (dropWhile isWhiteSpace (rev (dropWhile isWhiteSpace s))).

(** [day.tithi && day.tithi.trim() !== '' && day.tithi !== '--']. *)
Definition meaningful (v : option jsstring) : bool :=
  match v with
  | Some s =>
      truthyStr v
      && negb (bool_decide (trim s = []))
      && negb (bool_decide (s = lit "--"))
  | None => false
  end.

Definition simplifyDay (d : CalendarDay) : CalendarDay :=
  {| isHoliday := isHoliday d;
     day := day d;
     dayInEn := dayInEn d;
     en := en d;
     (* Only include tithi and event if they have meaningful values *)
     tithi := if meaningful (tithi d) then tithi d else None;
     event := if meaningful (event d) then event d else None |}.

(** [month.days.map(...)] throws when [days] is absent. *)
Definition simplifyMonth (m : CalendarMonth) : option CalendarMonth :=
  match days m with
  | Some ds => Some {| month := month m; days := Some (map simplifyDay ds) |}
  | None => None
  end.

(** [simplifyData]; [None] when it throws.  The key [parseInt(year)]
    of a year is that year again. *)
Definition simplifyData (data : list (Z * CalendarYear))
    : option (list (Z * CalendarYear)) :=
  traverse (fun '(year, yearData) =>
              match parseInt10 (showZ year), traverse simplifyMonth yearData with
              | Some key, Some simplified => Some (key, simplified)
              | _, _ => None
              end) data.

(** [JsonExporter.export]: the text handed to [fs.writeFile], or
    the FILE_SYSTEM_ERROR that wraps whatever was thrown before. *)
Definition export (data : list (Z * CalendarYear)) (outputPath : jsstring)
    (includeAllFields : bool) : Thrown + jsstring :=
  let formattedData :=
    if includeAllFields then Some data else simplifyData data in
  match formattedData with
  | Some formatted => inr (stringify (dataToJson formatted))
  | None =>
      inl (ScraperError FILE_SYSTEM_ERROR
             (lit "Failed to export JSON to " ++ outputPath)
             (Some (PlainError
                (lit "Cannot read properties of undefined (reading 'map')"))))
  end.

(** [JSON.parse(inputData)] of the CLI, read as a [CalendarData]. *)
Definition readCalendarData (inputData : jsstring)
    : option (list (Z * CalendarYear)) :=
  match parse inputData with
  | Some v => dataOfJson v
  | None => None
  end.

End JsonExporter.

(** ** Sample data

    Concrete days, months and years on which the properties below are
    exercised. *)

Module Samples.

(** The Devanagari spelling of a decimal numeral. *)
Definition toNepaliDigits (s : jsstring) : jsstring :=
  map (fun c => if isDigit c then (c + 2358)%N else c) s.

(** Day [n] of a month, as the page extraction returns it. *)
Definition sampleDay (n : Z) : CalendarDay :=
  {| isHoliday := Some false;
     tithi := None;
     event := None;
     day := Some (toNepaliDigits (showZ n));
     dayInEn := Some (showZ n);
     en := Some (showZ n) |}.

Definition sampleDays (first : Z) (count : nat) : list CalendarDay :=
  map (fun k => sampleDay (first + Z.of_nat k)) (seq 0 count).

(** A month of thirty days numbered 1 to 30. *)
Definition sampleMonth (number : Z) : CalendarMonth :=
  {| month := Some number; days := Some (sampleDays 1 30) |}.

(** Twelve months in order, except that the fourth says it is month 9. *)
Definition yearWithMisplacedMonth : CalendarYear :=
  map sampleMonth [1; 2; 3; 9; 5; 6; 7; 8; 9; 10; 11; 12].

(** The configuration of the end-to-end scenarios: one year, one
    month. *)
Definition oneUnitConfig : ScraperConfig :=
  {| years := [2081]; months := [1]; requestDelay := 0; maxRetries := 3;
     timeout := 30000; saveIndividualYears := true |}.

(** Two years of three months each. *)
Definition sixUnitConfig : ScraperConfig :=
  {| years := [2080; 2081]; months := [1; 2; 3]; requestDelay := 0;
     maxRetries := 3; timeout := 30000; saveIndividualYears := true |}.

(** A world that is only a wall clock, in milliseconds. *)
Definition wallClock : Clock Z :=
  {| dateNow := fun w => (w, w); sleep := fun ms w => w + ms |}.

(** A browser in which everything works; every page shows thirty
    well-formed days. *)
Definition healthyBrowser : Puppeteer Z :=
  {| launch := fun w => (inr 1%N, w + 500);
     newPage := fun _ w => (inr 2%N, w + 50);
     setUserAgent := fun _ w => (inr tt, w);
     setViewport := fun _ w => (inr tt, w);
     goto := fun _ _ _ w => (inr tt, w + 250);
     evaluateDays := fun _ w => (inr (sampleDays 1 30), w + 5);
     browserClose := fun _ w => (inr tt, w) |}.



(** A dataset of two years; one day carries a placeholder tithi and an
    event with a quote, a backslash and a line feed in it. *)
Definition sampleData : list (Z * CalendarYear) :=
  [ (2081, [sampleMonth 1]);
    (2082, [ {| month := Some 2;
                days := Some [ {| isHoliday := Some true;
                                  tithi := Some (lit "--");
                                  event := Some (lit "a 'b' \ c" ++ [34; 10; 2406]%N);
                                  day := Some [2407%N];
                                  dayInEn := Some (lit "1");
                                  en := Some (lit "14") |} ] |} ]) ].

(** The machine a fresh scraper starts on at time 0. *)
Definition freshMachine : Scraper.Machine Z :=
  {| Scraper.world := 0; Scraper.limiter := RateLimiter.initial;
     Scraper.events := [] |}.

End Samples.

(** ** The extraction callback of [scrapeMonth]

    [page.evaluate] runs its callback in the page (scraper.js, lines
    95 to 127).  The page is given by the [li] elements below
    [.calendar .dates] in document order, each by what the callback reads
    of it: whether it carries the classes [disable] and [holiday], and
    the text content of its first [span.tithi], [span.event], [span.nep]
    and [span.eng], [None] when it has no such span.  The callback's own
    [convertNepaliToEnglish] is the one of the validators, with the same
    table. *)

Module PageExtraction.
Import Validation.

Record DayElement : Type := {
  classDisable : bool;
  classHoliday : bool;
  tithiElement : option jsstring;
  eventElement : option jsstring;
  nepaliDayElement : option jsstring;
  englishDayElement : option jsstring
}.

(** [element?.textContent?.trim() || fallback]. *)
Definition trimmedTextOr (fallback : jsstring) (element : option jsstring)
    : jsstring :=
  match element with
  | Some textContent =>
      match JsonExporter.trim textContent with
      | [] => fallback
      | text => text
      end
  | None => fallback
  end.

(** The callback of [dayElements.map]. *)
Definition extractDay (element : DayElement) : CalendarDay :=
  let nepaliDay := trimmedTextOr [] (nepaliDayElement element) in
  let englishDay := trimmedTextOr [] (englishDayElement element) in
  let tithi := trimmedTextOr [] (tithiElement element) in
  let event := trimmedTextOr (lit "--") (eventElement element) in
  {| isHoliday := Some (classHoliday element);
     tithi := match tithi with [] => None | _ => Some tithi end;
     event := if bool_decide (event = lit "--") then None else Some event;
     day := Some nepaliDay;
     dayInEn := Some (convertNepaliToEnglish nepaliDay);
     en := Some englishDay |}.

(** The selector [li:not(.disable)] followed by the [filter] on the same
    class, then the [map]. *)
Definition extractDays (items : list DayElement) : list CalendarDay :=
  let selected := List.filter (fun element => negb (classDisable element)) items in
  let dayElements :=
    List.filter (fun element => negb (classDisable element)) selected in
  map extractDay dayElements.

End PageExtraction.

(** ** The scraped object as the validators and exporters see it *)

Module ScrapedData.


End ScrapedData.

(** ** cli.js: options, progress bar and output paths *)

Module Cli.

(** [createDefaultScraperConfig()] of scraper.js; the months are
    [Array.from({ length: 12 }, (_, i) => i + 1)]. *)
Definition createDefaultScraperConfig : ScraperConfig :=
  {| years := [2076];
     months := map (fun i => Z.of_nat i + 1) (seq 0 12);
     requestDelay := 1000;
     maxRetries := 3;
     timeout := 30000;
     saveIndividualYears := true |}.

(** [s.split(sep)] for a separator of one code unit. *)
Fixpoint split (sep : N) (s : jsstring) : list jsstring :=
  match s with
  | [] => [[]]
  | c :: s' =>
      if (c =? sep)%N then [] :: split sep s'
      else
        match split sep s' with
        | piece :: pieces => (c :: piece) :: pieces
        | [] => [[c]]
        end
  end.

(** [text.split(',').map(y => parseInt(y.trim(), 10))]; [None] is
    [NaN]. *)
Definition parseNumbers (text : jsstring) : list (option Z) :=
  map (fun y => parseInt10 (JsonExporter.trim y)) (split 44 text).

(** The options of the [scrape] command that [parseScraperConfig]
    reads. *)
Record ScrapeOptions : Type := {
  optYears : option jsstring;
  optMonths : option jsstring;
  optDelay : option jsstring
}.

(** The configuration [parseScraperConfig] returns: a [ScraperConfig]
    whose numbers may be [NaN]. *)
Record ParsedConfig : Type := {
  years : list (option Z);
  months : list (option Z);
  requestDelay : option Z;
  maxRetries : Z;
  timeout : Z;
  saveIndividualYears : bool
}.

Definition parseScraperConfig (options : ScrapeOptions) : ParsedConfig :=
  let config := createDefaultScraperConfig in
  {| years :=
       if truthyStr (optYears options) then
         match optYears options with
         | Some text => parseNumbers text
         | None => map Some (Types.years config)
         end
       else map Some (Types.years config);
     months :=
       if truthyStr (optMonths options) then
         match optMonths options with
         | Some text => parseNumbers text
         | None => map Some (Types.months config)
         end
       else map Some (Types.months config);
     requestDelay :=
       if truthyStr (optDelay options) then
         match optDelay options with
         | Some text => parseInt10 text
         | None => Some (Types.requestDelay config)
         end
       else Some (Types.requestDelay config);
     maxRetries := Types.maxRetries config;
     timeout := Types.timeout config;
     saveIndividualYears := Types.saveIndividualYears config |}.

(** [setupProgressBar]: the total the bar is started with. *)
Definition totalOperations (config : ScraperConfig) : Z :=
  Z.of_nat (length (Types.years config)) * Z.of_nat (length (Types.months config)).

(** [updateProgress]: the value [progressBar.update] is called with. *)
Definition completed (progress : ScrapingProgress) (config : ScraperConfig) : Z :=
  completedYears progress * Z.of_nat (length (Types.months config))
  + completedMonths progress.

(** [s.replace(pattern, replacement)] for a string pattern and a
    replacement without [$]: the first occurrence is replaced. *)
Fixpoint replace (pattern replacement s : jsstring) : jsstring :=
  if startsWith pattern s then replacement ++ drop (length pattern) s
  else
    match s with
    | [] => []
    | c :: s' => c :: replace pattern replacement s'
    end.

(** [options.format === 'excel' ? 'xlsx' : options.format]. *)
Definition extension (format : jsstring) : jsstring :=
  if bool_decide (format = lit "excel") then lit "xlsx" else format.

(** The output path of [handleConvertCommand]. *)
Definition convertOutputPath (output : option jsstring) (input format : jsstring)
    : jsstring :=
  match output with
  | Some (c :: path) => c :: path
  | _ => replace (lit ".json") (lit "." ++ extension format) input
  end.

(** The path of the combined file of [exportData]. *)
Definition combinedOutputPath (outputDir format : jsstring) : jsstring :=
  outputDir ++ lit "/data." ++ extension format.

(** The summary of [handleValidateCommand]: the two nested [reduce]
    calls over the years and their months; [None] when a month has no
    [days] to take the length of. *)
Definition totalDays (data : list (Z * CalendarYear)) : option Z :=
  fold_left (fun sum '(_, yearData) =>
    match sum,
          fold_left (fun monthSum m =>
            match monthSum, days m with
            | Some n, Some ds => Some (n + Z.of_nat (length ds))
            | _, _ => None
            end) yearData (Some 0) with
    | Some n, Some k => Some (n + k)
    | _, _ => None
    end) data (Some 0).

End Cli.

(** ** exporters/csv.ts *)

Module CsvExporter.
Import JsonExporter.

(** A row object; [tithi] and [event] are [None] when the row has no
    such property, [year] when [parseInt] gave [NaN]. *)
Record CsvRow : Type := {
  year : option Z;
  month : option Z;
  day : option jsstring;
  dayInEn : option jsstring;
  englishDate : option jsstring;
  isHoliday : option bool;
  tithi : option jsstring;
  event : option jsstring
}.

(** [v || '']. *)
Definition orEmpty (v : option jsstring) : jsstring :=
  match v with
  | Some s => s
  | None => []
  end.

Definition rowOf (year : option Z) (monthData : CalendarMonth)
    (includeAllFields : bool) (d : CalendarDay) : CsvRow :=
  {| year := year;
     month := Types.month monthData;
     day := Types.day d;
     dayInEn := Types.dayInEn d;
     englishDate := Types.en d;
     isHoliday := Types.isHoliday d;
     tithi := if includeAllFields then Some (orEmpty (Types.tithi d)) else None;
     event := if includeAllFields then Some (orEmpty (Types.event d)) else None |}.

(** The rows of one month; [None] when [monthData.days] cannot be
    iterated. *)
Definition monthRows (year : option Z) (includeAllFields : bool)
    (monthData : CalendarMonth) : option (list CsvRow) :=
  match days monthData with
  | Some ds => Some (map (rowOf year monthData includeAllFields) ds)
  | None => None
  end.

Definition yearRows (includeAllFields : bool) (entry : Z * CalendarYear)
    : option (list CsvRow) :=
  let '(yearStr, yearData) := entry in
  let year := parseInt10 (showZ yearStr) in
  option_map (@concat CsvRow) (traverse (monthRows year includeAllFields) yearData).

(** [convertToCSVRows]; [None] when it throws. *)
Definition convertToCSVRows (data : list (Z * CalendarYear))
    (includeAllFields : bool) : option (list CsvRow) :=
  option_map (@concat CsvRow) (traverse (yearRows includeAllFields) data).

Definition headers (includeAllFields : bool) : list (jsstring * jsstring) :=
  [ (lit "year", lit "Year");
    (lit "month", lit "Month");
    (lit "day", lit "Nepali Day");
    (lit "dayInEn", lit "Day (English)");
    (lit "englishDate", lit "English Date");
    (lit "isHoliday", lit "Is Holiday") ]
  ++ (if includeAllFields
      then [ (lit "tithi", lit "Tithi"); (lit "event", lit "Event") ]
      else []).

(** [CsvExporter.export]: the header and the records handed to the CSV
    writer, or the FILE_SYSTEM_ERROR that wraps what was thrown. *)
Definition export (data : list (Z * CalendarYear)) (outputPath : jsstring)
    (includeAllFields : bool)
    : Thrown + (list (jsstring * jsstring) * list CsvRow) :=
  match convertToCSVRows data includeAllFields with
  | Some csvRows => inr (headers includeAllFields, csvRows)
  | None =>
      inl (ScraperError FILE_SYSTEM_ERROR
             (lit "Failed to export CSV to " ++ outputPath)
             (Some (PlainError (lit "monthData.days is not iterable"))))
  end.

(** [CsvExporter.exportYearFiles]: the files written, each with its path
    and records, in order, and the error that ended the loop, if any. *)
Fixpoint exportYearFiles (data : list (Z * CalendarYear)) (outputDir : jsstring)
    : list (jsstring * list CsvRow) * option Thrown :=
  match data with
  | [] => ([], None)
  | (year, yearData) :: data' =>
      let yearFilePath := outputDir ++ lit "/" ++ showZ year ++ lit ".csv" in
      match convertToCSVRows [(year, yearData)] true with
      | Some csvRows =>
          let '(written, failure) := exportYearFiles data' outputDir in
          ((yearFilePath, csvRows) :: written, failure)
      | None =>
          ([], Some (ScraperError FILE_SYSTEM_ERROR
                       (lit "Failed to export year CSV files to " ++ outputDir)
                       (Some (PlainError (lit "monthData.days is not iterable")))))
      end
  end.

End CsvExporter.

(** ** exporters/json.ts: one file per year *)

Module JsonYearFiles.
Import Json JsonExporter.

(** [JsonExporter.exportYearFiles]: the path and the text of each file
    written, in order. *)
Definition exportYearFiles (data : list (Z * CalendarYear)) (outputDir : jsstring)
    : list (jsstring * jsstring) :=
  map (fun '(year, yearData) =>
         (outputDir ++ lit "/" ++ showZ year ++ lit ".json",
          stringify (yearToJson yearData))) data.


End JsonYearFiles.

(** ** exporters/excel.ts: sheet names and the summary figures *)

Module ExcelExporter.

Definition monthNames : list jsstring :=
  [ lit "Baishakh"; lit "Jestha"; lit "Ashadh"; lit "Shrawan"; lit "Bhadra";
    lit "Ashwin"; lit "Kartik"; lit "Mangsir"; lit "Poush"; lit "Magh";
    lit "Falgun"; lit "Chaitra" ].

(** [monthNames[month - 1] || `Month ${month}`]; the index of a month
    that is [undefined] is [NaN]. *)
Definition getMonthName (month : option Z) : jsstring :=
  let fallback := lit "Month " ++ showOpt showZ month in
  match month with
  | Some n =>
      if 0 <=? n - 1 then
        match monthNames !! Z.to_nat (n - 1) with
        | Some name => name
        | None => fallback
        end
      else fallback
  | None => fallback
  end.

(** The names of the worksheets [exportYearFiles] adds to the workbook
    of a year, in order. *)
Definition yearSheetNames (year : Z) (yearData : CalendarYear) : list jsstring :=
  map (fun monthData => getMonthName (month monthData) ++ lit " " ++ showZ year)
    yearData
  ++ [lit "Year Summary"].

(** [day.isHoliday] as a condition. *)
Definition truthyBool (v : option bool) : bool :=
  match v with
  | Some true => true
  | _ => false
  end.

(** The two [reduce] calls of [createSummarySheet] for one year;
    [None] when a month has no [days]. *)
Definition totalDays (yearData : CalendarYear) : option Z :=
  fold_left (fun sum m =>
    match sum, days m with
    | Some n, Some ds => Some (n + Z.of_nat (length ds))
    | _, _ => None
    end) yearData (Some 0).

Definition totalHolidays (yearData : CalendarYear) : option Z :=
  fold_left (fun sum m =>
    match sum, days m with
    | Some n, Some ds =>
        Some (n + Z.of_nat (length (List.filter
                                      (fun d => truthyBool (isHoliday d)) ds)))
    | _, _ => None
    end) yearData (Some 0).

(** The figure of the line [Working Days]. *)
Definition workingDays (yearData : CalendarYear) : option Z :=
  match totalDays yearData, totalHolidays yearData with
  | Some d, Some h => Some (d - h)
  | _, _ => None
  end.

End ExcelExporter.

(** ** Notions the further properties are stated with *)

Module Accepts.
Import Validation.

(** A day the day validator has no error for: the three texts are
    present and not empty, [dayInEn] reads as a number from 1 to 32 and
    [isHoliday] is a boolean. *)
Definition dayAccepted (d : CalendarDay) : bool :=
  truthyStr (day d) && truthyStr (dayInEn d) && truthyStr (en d)
  && match dayInEn d with
     | Some dE => dayNumberInRange dE
     | None => false
     end
  && match isHoliday d with
     | Some _ => true
     | None => false
     end.

Definition monthNumberAccepted (m : option Z) : bool :=
  match m with
  | Some n => (1 <=? n) && (n <=? 12)
  | None => false
  end.

Definition monthAccepted (m : CalendarMonth) : bool :=
  monthNumberAccepted (month m)
  && match days m with
     | Some ds => forallb dayAccepted ds
     | None => false
     end.

(** Twelve months numbered 1 to 12 in this order. *)
Definition positioned (ms : list CalendarMonth) : bool :=
  bool_decide (map month ms = map (fun i => Some (Z.of_nat i)) (seq 1 12)).

Definition yearAccepted (ms : CalendarYear) : bool :=
  positioned ms && forallb monthAccepted ms.

(** The days of a year, month after month. *)
Definition daysOf (yearData : CalendarYear) : list CalendarDay :=
  flat_map (fun m => match days m with Some ds => ds | None => [] end) yearData.

Definition entryAccepted (entry : jsstring * option CalendarYear) : bool :=
  match parseInt10 (fst entry), snd entry with
  | Some _, Some ms => yearAccepted ms
  | _, _ => false
  end.

End Accepts.

(** ** More sample data *)

Module MoreSamples.

(** A holiday cell: day 15 in Devanagari digits with blanks around it, a
    blank tithi and no event span. *)
Definition holidayElement : PageExtraction.DayElement :=
  {| PageExtraction.classDisable := false;
     PageExtraction.classHoliday := true;
     PageExtraction.tithiElement := Some (lit "  ");
     PageExtraction.eventElement := None;
     PageExtraction.nepaliDayElement := Some (lit " " ++ [2407; 2411]%N ++ lit " ");
     PageExtraction.englishDayElement := Some (lit "28") |}.

(** A cell of the neighbouring month, greyed out. *)
Definition disabledElement : PageExtraction.DayElement :=
  {| PageExtraction.classDisable := true;
     PageExtraction.classHoliday := false;
     PageExtraction.tithiElement := None;
     PageExtraction.eventElement := None;
     PageExtraction.nepaliDayElement := Some (lit "30");
     PageExtraction.englishDayElement := Some (lit "13") |}.

(** Two years and no month. *)
Definition noMonthConfig : ScraperConfig :=
  {| years := [2080; 2081]; months := []; requestDelay := 0; maxRetries := 3;
     timeout := 30000; saveIndividualYears := true |}.

End MoreSamples.

(* ================================================================== *)
(** * Part II: properties                                              *)
(* ================================================================== *)

(** ** The rate limiter *)

Section RateLimiterFacts.
Import RateLimiter.



Lemma backoffDelay_zero (cfg : RateLimiterConfig) (s : State) :
  consecutiveErrors s = 0 -> backoffDelay cfg s = minDelay cfg.
Proof.
  intros Hz. unfold backoffDelay. rewrite Hz.
  now rewrite andb_false_r.
Qed.




(** A limiter that has never waited has [lastRequestTime = 0]: once the
    clock reads at least the delay, its next wait does not sleep and only
    stamps the time. *)
Lemma waitForNextRequest_unprimed {W : Type} {clock : Clock W}
    (cfg : RateLimiterConfig) (s : State) (w : W) :
  lastRequestTime s = 0 ->
  backoffDelay cfg s <= fst (dateNow w) ->
  waitForNextRequest cfg s w =
    ({| lastRequestTime := fst (dateNow (snd (dateNow w)));
        consecutiveErrors := consecutiveErrors s |},
     snd (dateNow (snd (dateNow w)))).
Proof.
  intros Hlast Hnow. unfold waitForNextRequest.
  destruct (dateNow w) as [now w1] eqn:Hw. cbn [fst snd] in *.
  rewrite Hlast.
  destruct (Z.gtb_spec (Z.max 0 (backoffDelay cfg s - (now - 0))) 0) as [Hgt|_];
    [lia|].
  now destruct (dateNow w1) as [now' w2].
Qed.

End RateLimiterFacts.

(** ** The validators *)

Section ValidationFacts.
Import Validation.

Lemma length_eqb_0_nil {A : Type} (l : list A) :
  (length l =? 0)%nat = true <-> l = [].
Proof.
  destruct l; simpl; split; intros; try reflexivity; discriminate.
Qed.

Lemma lookup_map {A B : Type} (f : A -> B) (l : list A) (k : nat) :
  map f l !! k = f <$> l !! k.
Proof.
  revert k. induction l as [|a l IH]; intros [|k]; simpl; auto.
Qed.

Lemma snoc_not_nil {A : Type} (l : list A) (x : A) : l ++ [x] <> [].
Proof. destruct l; discriminate. Qed.

Lemma validateCalendarDay_isValid (d : CalendarDay) (dayIndex : Z) :
  isValid (validateCalendarDay d dayIndex) = true
  <-> errors (validateCalendarDay d dayIndex) = [].
Proof. apply length_eqb_0_nil. Qed.

Lemma validateCalendarMonth_isValid (m : CalendarMonth) (monthIndex : Z) :
  isValid (validateCalendarMonth m monthIndex) = true
  <-> errors (validateCalendarMonth m monthIndex) = [].
Proof.
  unfold validateCalendarMonth. destruct (days m) as [ds|].
  - destruct (forEachIndexed _ ds 0%nat _) as [es ws]. cbn.
    apply length_eqb_0_nil.
  - cbn. split; [discriminate|].
    intros Hnil. now apply snoc_not_nil in Hnil.
Qed.

Lemma validateCalendarYear_isValid (y : option CalendarYear) (yearNumber : Z) :
  isValid (validateCalendarYear y yearNumber) = true
  <-> errors (validateCalendarYear y yearNumber) = [].
Proof.
  unfold validateCalendarYear. destruct y as [ms|].
  - destruct (forEachIndexed _ ms 0%nat (_, _)) as [es ws]. cbn.
    apply length_eqb_0_nil.
  - cbn. split; discriminate.
Qed.

Lemma validateScrapedData_isValid
    (data : option (list (list N * option CalendarYear))) :
  isValid (validateScrapedData data) = true
  <-> errors (validateScrapedData data) = [].
Proof.
  unfold validateScrapedData. destruct data as [entries|].
  - destruct (fold_left _ entries _) as [es ws]. cbn.
    apply length_eqb_0_nil.
  - cbn. split; discriminate.
Qed.

(** C8.  Whatever the day, month, year and dataset validators return,
    [isValid] is true exactly when [errors] is empty: one error makes
    the result invalid, and warnings play no part. *)
Theorem isValid_iff_no_errors :
  (forall (d : CalendarDay) (dayIndex : Z),
      let r := validateCalendarDay d dayIndex in
      isValid r = true <-> errors r = [])
  /\ (forall (m : CalendarMonth) (monthIndex : Z),
      let r := validateCalendarMonth m monthIndex in
      isValid r = true <-> errors r = [])
  /\ (forall (y : option CalendarYear) (yearNumber : Z),
      let r := validateCalendarYear y yearNumber in
      isValid r = true <-> errors r = [])
  /\ (forall data : option (list (jsstring * option CalendarYear)),
      let r := validateScrapedData data in
      isValid r = true <-> errors r = []).
Proof.
  split; [|split; [|split]]; cbv zeta.
  - apply validateCalendarDay_isValid.
  - apply validateCalendarMonth_isValid.
  - apply validateCalendarYear_isValid.
  - apply validateScrapedData_isValid.
Qed.

(** *** The numeral conversion and the day validator *)

Lemma convertChar_digit (c : N) :
  (2406 <= c <= 2415)%N -> convertChar c = (c - 2406 + 48)%N.
Proof.
  intros Hc.
  assert (Hcases : c = 2406%N \/ c = 2407%N \/ c = 2408%N \/ c = 2409%N
                   \/ c = 2410%N \/ c = 2411%N \/ c = 2412%N \/ c = 2413%N
                   \/ c = 2414%N \/ c = 2415%N) by lia.
  repeat (destruct Hcases as [->|Hcases]; [reflexivity|]).
  now subst c.
Qed.

Lemma convertChar_other (c : N) :
  (c < 2406 \/ 2415 < c)%N -> convertChar c = c.
Proof.
  intros Hc. unfold convertChar, nepaliToEnglishMap, mapGet.
  repeat (match goal with
          | |- context [N.eqb ?a c] =>
              destruct (N.eqb_spec a c) as [Heq|_]; [lia|]
          end).
  reflexivity.
Qed.

Lemma In_pushIf (c : bool) (msg x : jsstring) (l : list jsstring) :
  In x (pushIf c msg l) <-> In x l \/ (c = true /\ x = msg).
Proof.
  unfold pushIf. destruct c.
  - rewrite in_app_iff. simpl. intuition.
  - intuition. discriminate.
Qed.

Lemma truthyStr_Some (v : jsstring) : v <> [] -> truthyStr (Some v) = true.
Proof. destruct v; [congruence|reflexivity]. Qed.

(** Two messages with the same label differ as soon as the texts after
    the label differ at some position. *)
Ltac differ_at n :=
  let H := fresh "Heq" in
  intros H; apply app_inv_head in H;
  apply (f_equal (fun l : list N => nth n l 0%N)) in H;
  vm_compute in H; discriminate H.

Lemma mismatchWarning_not_missing_en (i : Z) (dv dE : jsstring) :
  mismatchWarning i dv dE <> dayLabel i ++ lit ": Missing 'en' field".
Proof. unfold mismatchWarning. differ_at 2%nat. Qed.

Lemma mismatchWarning_not_invalid (i : Z) (dv dE x : jsstring) :
  mismatchWarning i dv dE <> invalidDayNumberError i x.
Proof. unfold mismatchWarning, invalidDayNumberError. differ_at 2%nat. Qed.

Lemma mismatchWarning_not_isHoliday (i : Z) (dv dE : jsstring) :
  mismatchWarning i dv dE <> dayLabel i ++ lit ": 'isHoliday' must be a boolean".
Proof. unfold mismatchWarning. differ_at 2%nat. Qed.

(** The errors of a day whose [day] and [dayInEn] are present. *)
Lemma validateCalendarDay_errors (d : CalendarDay) (i : Z) (dv dE : jsstring) :
  day d = Some dv -> dayInEn d = Some dE -> dv <> [] -> dE <> [] ->
  errors (validateCalendarDay d i) =
    pushIf (match isHoliday d with Some _ => false | None => true end)
      (dayLabel i ++ lit ": 'isHoliday' must be a boolean")
      (pushIf (negb (dayNumberInRange dE)) (invalidDayNumberError i dE)
         (pushIf (negb (truthyStr (en d)))
            (dayLabel i ++ lit ": Missing 'en' field") [])).
Proof.
  intros Hd HdE Hdv HdEn. unfold validateCalendarDay. cbn [errors].
  rewrite Hd, HdE, !truthyStr_Some by assumption. cbn [negb pushIf].
  unfold dayNumberInRange. destruct (parseInt10 dE) as [n|]; [|reflexivity].
  replace (negb ((1 <=? n) && (n <=? 32))) with ((n <? 1) || (n >? 32));
    [reflexivity|].
  destruct (Z.ltb_spec n 1), (Z.gtb_spec n 32), (Z.leb_spec 1 n),
    (Z.leb_spec n 32); try reflexivity; lia.
Qed.

(** C5.  For a day whose [day] and [dayInEn] are both present: when the
    conversion of [day] differs from [dayInEn], the mismatch message is
    among the warnings and not among the errors, and validity is decided
    by the other checks alone ([en] present, [dayInEn] parsing to a
    number in 1..32, [isHoliday] a boolean); a [dayInEn] that does not
    parse to an integer in 1..32 puts the invalid-day-number message
    among the errors and makes the result invalid.  The conversion works
    unit by unit through a table of ten entries: U+0966+k becomes the
    digit ['0'+k] for k < 10, every other code unit is kept. *)
Theorem day_mismatch_warns_range_errors
    (d : CalendarDay) (i : Z) (dv dE : jsstring) :
  day d = Some dv -> dayInEn d = Some dE -> dv <> [] -> dE <> [] ->
  let r := validateCalendarDay d i in
  (convertNepaliToEnglish dv <> dE ->
     In (mismatchWarning i dv dE) (warnings r)
     /\ ~ In (mismatchWarning i dv dE) (errors r))
  /\ (isValid r = true <->
        truthyStr (en d) = true /\ dayNumberInRange dE = true
        /\ isHoliday d <> None)
  /\ (dayNumberInRange dE = false ->
        In (invalidDayNumberError i dE) (errors r) /\ isValid r = false)
  /\ length nepaliToEnglishMap = 10%nat
  /\ (forall s : jsstring,
        length (convertNepaliToEnglish s) = length s
        /\ forall (k : nat) (c : N), s !! k = Some c ->
             convertNepaliToEnglish s !! k = Some (convertChar c)
             /\ ((2406 <= c <= 2415)%N -> convertChar c = (c - 2406 + 48)%N)
             /\ ((c < 2406 \/ 2415 < c)%N -> convertChar c = c)).
Proof.
  intros Hd HdE Hdv HdEn r.
  assert (Herr := validateCalendarDay_errors d i dv dE Hd HdE Hdv HdEn).
  fold r in Herr.
  assert (Hvalid : isValid r = true <-> errors r = [])
    by apply validateCalendarDay_isValid.
  split; [|split; [|split; [|split]]].
  - intros Hne. split.
    + subst r. unfold validateCalendarDay. cbn [warnings].
      rewrite Hd, HdE, !truthyStr_Some by assumption. cbn [andb].
      rewrite bool_decide_eq_false_2 by assumption. cbn [negb].
      destruct (en d); [apply In_pushIf; left|];
        unfold pushIf; simpl; left; reflexivity.
    + rewrite Herr, !In_pushIf. cbn [In].
      intros [[[[]|[_ H1]]|[_ H2]]|[_ H3]].
      * now apply mismatchWarning_not_missing_en in H1.
      * now apply mismatchWarning_not_invalid in H2.
      * now apply mismatchWarning_not_isHoliday in H3.
  - rewrite Hvalid, Herr.
    destruct (truthyStr (en d)), (dayNumberInRange dE), (isHoliday d);
      cbn; split; try discriminate; try tauto; try (intros (? & ? & ?));
      try discriminate; try congruence; auto.
  - intros Hrange. split.
    + rewrite Herr, Hrange. apply In_pushIf. left. apply In_pushIf. right.
      auto.
    + apply not_true_is_false. intros Hv.
      apply Hvalid in Hv. rewrite Herr, Hrange in Hv. cbn [negb] in Hv.
      unfold pushIf in Hv at 2.
      destruct (isHoliday d), (truthyStr (en d)); cbn in Hv; discriminate.
  - reflexivity.
  - intros s. unfold convertNepaliToEnglish. split; [apply length_map|].
    intros k c Hk. split; [|split].
    + now rewrite lookup_map, Hk.
    + apply convertChar_digit.
    + apply convertChar_other.
Qed.

Lemma day_mismatch_warns_range_errors_witness :
  let d := {| isHoliday := Some false; tithi := None; event := None;
              day := Some [2407; 2411]%N; dayInEn := Some (lit "16");
              en := Some (lit "29") |} in
  convertNepaliToEnglish [2407; 2411]%N = lit "15"
  /\ In (mismatchWarning 0 [2407; 2411]%N (lit "16"))
       (warnings (validateCalendarDay d 0))
  /\ isValid (validateCalendarDay d 0) = true.
Proof.
  intros d.
  destruct (day_mismatch_warns_range_errors d 0 [2407; 2411]%N (lit "16")
              eq_refl eq_refl ltac:(discriminate) ltac:(discriminate))
    as (Hmis & Hval & _).
  split; [reflexivity|]. split.
  - apply Hmis. vm_compute. discriminate.
  - apply Hval. repeat split. discriminate.
Defined.

(** *** Decimal rendering is injective *)

Lemma lit_inj (s1 s2 : string) : lit s1 = lit s2 -> s1 = s2.
Proof.
  unfold lit. intros Heq.
  rewrite <- (string_of_list_ascii_of_string s1),
          <- (string_of_list_ascii_of_string s2).
  f_equal. revert Heq.
  generalize (list_ascii_of_string s1) (list_ascii_of_string s2).
  induction l as [|a l IH]; intros [|b l'] Heq; simpl in Heq;
    try discriminate; [reflexivity|].
  injection Heq as Hab Hll. f_equal; [|now apply IH].
  rewrite <- (ascii_N_embedding a), <- (ascii_N_embedding b). now f_equal.
Qed.

Lemma to_int_not_nil (z : Z) :
  Z.to_int z <> Decimal.Pos Decimal.Nil /\ Z.to_int z <> Decimal.Neg Decimal.Nil.
Proof.
  destruct z as [|p|p]; simpl; split; try discriminate;
    intros Heq; injection Heq as Heq;
    now apply DecimalPos.Unsigned.to_uint_nonnil in Heq.
Qed.

Lemma showZ_inj (a b : Z) : showZ a = showZ b -> a = b.
Proof.
  unfold showZ. intros Heq. apply lit_inj in Heq.
  apply DecimalZ.to_int_inj.
  destruct (to_int_not_nil a) as [Ha1 Ha2], (to_int_not_nil b) as [Hb1 Hb2].
  apply (f_equal NilZero.int_of_string) in Heq.
  rewrite !NilZero.isi in Heq by assumption. congruence.
Qed.


(** *** The sequential-day check *)


Lemma sequenceStep_gapAt (idx : Z) (nums : list Z) (ws : list (list N)) (i : nat) :
  sequenceStep idx nums ws i =
    ws ++ (if gapAt nums i then [sequenceWarning idx i] else []).
Proof.
  unfold sequenceStep, gapAt.
  destruct (nums !! i) as [cur|], (nums !! (i - 1)%nat) as [prev|];
    try (now rewrite app_nil_r).
  destruct (negb (cur =? prev + 1)); cbn [andb]; [|now rewrite app_nil_r].
  destruct (negb ((prev >? 28) && (cur =? 1))); [reflexivity|].
  now rewrite app_nil_r.
Qed.

Lemma fold_sequenceStep (idx : Z) (nums : list Z) (positions : list nat)
    (ws : list (list N)) :
  fold_left (sequenceStep idx nums) positions ws =
    ws ++ map (sequenceWarning idx) (List.filter (gapAt nums) positions).
Proof.
  revert ws. induction positions as [|i positions IH]; intros ws.
  - simpl. now rewrite app_nil_r.
  - cbn [fold_left List.filter]. rewrite IH, sequenceStep_gapAt.
    rewrite <- app_assoc. destruct (gapAt nums i); reflexivity.
Qed.

Lemma sequenceCheck_filter (idx : Z) (nums : list Z) (ws : list (list N)) :
  sequenceCheck idx nums ws =
    ws ++ map (sequenceWarning idx)
            (List.filter (gapAt nums) (seq 1 (length nums - 1))).
Proof.
  unfold sequenceCheck. destruct (Nat.ltb_spec 1 (length nums)) as [Hlt|Hge].
  - apply fold_sequenceStep.
  - replace (length nums - 1)%nat with 0%nat by lia. simpl.
    now rewrite app_nil_r.
Qed.






Lemma count_occ_Forall_ne {A : Type} (dec : forall x y : A, {x = y} + {x <> y})
    (l : list A) (x : A) :
  Forall (fun y => y <> x) l -> count_occ dec l x = 0%nat.
Proof.
  intros Hall. apply count_occ_not_In. intros Hin.
  rewrite List.Forall_forall in Hall. now apply (Hall x Hin).
Qed.



(** *** The year validator *)

Lemma forEachIndexed_append {A B : Type} (g : A -> nat -> list B)
    (xs : list A) (k : nat) (acc : list B) :
  forEachIndexed (fun x i acc => acc ++ g x i) xs k acc =
    acc ++ collectIndexed g xs k.
Proof.
  revert k acc. induction xs as [|x xs IH]; intros k acc; simpl.
  - now rewrite app_nil_r.
  - now rewrite IH, app_assoc.
Qed.

Lemma forEachIndexed_append2 {A B : Type} (g h : A -> nat -> list B)
    (xs : list A) (k : nat) (acc1 acc2 : list B) :
  forEachIndexed (fun x i '(a1, a2) => (a1 ++ g x i, a2 ++ h x i)) xs k
    (acc1, acc2) =
    (acc1 ++ collectIndexed g xs k, acc2 ++ collectIndexed h xs k).
Proof.
  revert k acc1 acc2. induction xs as [|x xs IH]; intros k acc1 acc2; simpl.
  - now rewrite !app_nil_r.
  - now rewrite IH, !app_assoc.
Qed.

Lemma In_collectIndexed {A B : Type} (g : A -> nat -> list B) (xs : list A)
    (k : nat) (y : B) :
  In y (collectIndexed g xs k) <->
  exists (i : nat) (x : A), xs !! i = Some x /\ In y (g x (k + i)%nat).
Proof.
  revert k. induction xs as [|x xs IH]; intros k; simpl.
  - split; [tauto|]. intros (i & x & Hx & _). destruct i; discriminate.
  - rewrite in_app_iff, IH. split.
    + intros [Hy|(i & x' & Hx' & Hy)].
      * exists 0%nat, x. rewrite Nat.add_0_r. auto.
      * exists (S i), x'. rewrite Nat.add_succ_r. auto.
    + intros (i & x' & Hx' & Hy). destruct i as [|i].
      * injection Hx' as <-. rewrite Nat.add_0_r in Hy. auto.
      * right. exists i, x'. rewrite Nat.add_succ_r in Hy. auto.
Qed.

Lemma collectIndexed_nil {A B : Type} (g : A -> nat -> list B) (xs : list A)
    (k : nat) :
  (forall (i : nat) (x : A), xs !! i = Some x -> g x (k + i)%nat = []) ->
  collectIndexed g xs k = [].
Proof.
  revert k. induction xs as [|x xs IH]; intros k Hall; simpl; [reflexivity|].
  rewrite (IH (S k)).
  - specialize (Hall 0%nat x eq_refl). rewrite Nat.add_0_r in Hall.
    now rewrite Hall.
  - intros i x' Hx'. specialize (Hall (S i) x' Hx').
    now rewrite Nat.add_succ_r in Hall.
Qed.

Lemma collectIndexed_single {A B : Type} (g : A -> nat -> list B)
    (xs : list A) (k j : nat) (x : A) :
  xs !! j = Some x ->
  (forall (i : nat) (x' : A), xs !! i = Some x' -> i <> j ->
     g x' (k + i)%nat = []) ->
  collectIndexed g xs k = g x (k + j)%nat.
Proof.
  revert k j. induction xs as [|x0 xs IH]; intros k j Hj Hothers.
  - destruct j; discriminate.
  - simpl. destruct j as [|j].
    + injection Hj as <-. rewrite Nat.add_0_r, collectIndexed_nil.
      * now rewrite app_nil_r.
      * intros i x' Hx'. specialize (Hothers (S i) x' Hx').
        rewrite Nat.add_succ_r in Hothers. now apply Hothers.
    + specialize (Hothers 0%nat x0 eq_refl) as H0.
      rewrite Nat.add_0_r in H0. rewrite H0 by discriminate. simpl.
      rewrite (IH (S k) j Hj).
      * now rewrite Nat.add_succ_r.
      * intros i x' Hx' Hne. specialize (Hothers (S i) x' Hx').
        rewrite Nat.add_succ_r in Hothers. apply Hothers. congruence.
Qed.

(** The errors and warnings of a year that is an array, in the order
    they are pushed. *)
Lemma validateCalendarYear_lists (ms : list CalendarMonth) (yearNumber : Z) :
  let r := validateCalendarYear (Some ms) yearNumber in
  errors r =
    pushIf (negb (length ms =? 12)%nat) (monthCountError yearNumber (length ms)) []
    ++ collectIndexed (fun m i =>
         map (yearPrefix yearNumber)
           (errors (validateCalendarMonth m (Z.of_nat i)))) ms 0
    ++ collectIndexed (fun m i =>
         if negb (bool_decide (month m = Some (Z.of_nat i + 1)))
         then [monthPositionError yearNumber i m] else []) ms 0
  /\ warnings r =
    collectIndexed (fun m i =>
      map (yearPrefix yearNumber)
        (warnings (validateCalendarMonth m (Z.of_nat i)))) ms 0.
Proof.
  cbv zeta. unfold validateCalendarYear.
  rewrite (forEachIndexed_append2
    (fun m i => map (yearPrefix yearNumber)
                  (errors (validateCalendarMonth m (Z.of_nat i))))
    (fun m i => map (yearPrefix yearNumber)
                  (warnings (validateCalendarMonth m (Z.of_nat i))))).
  cbn [errors warnings]. split; [|reflexivity].
  rewrite app_assoc.
  rewrite <- (forEachIndexed_append (fun m i =>
         if negb (bool_decide (month m = Some (Z.of_nat i + 1)))
         then [monthPositionError yearNumber i m] else [])).
  generalize (pushIf (negb (length ms =? 12)%nat)
                (monthCountError yearNumber (length ms)) []
              ++ collectIndexed (fun m i =>
                   map (yearPrefix yearNumber)
                     (errors (validateCalendarMonth m (Z.of_nat i)))) ms 0).
  generalize 0%nat. induction ms as [|m ms IH]; intros k acc; simpl.
  - reflexivity.
  - rewrite IH. f_equal. unfold pushIf.
    destruct (negb (bool_decide (month m = Some (Z.of_nat k + 1))));
      [reflexivity|now rewrite app_nil_r].
Qed.

(** C6.  For a year that is an array: a length other than 12 is an
    error, and whatever the length every month present is validated (its
    errors and warnings appear with the year prefix) and every month
    whose number is not its index plus one is an error.  Twelve months
    that each validate without error and are numbered by position,
    except that the one at index 3 says 9, give exactly one error, the
    position error for index 3. *)
Theorem year_length_and_positions (ms : list CalendarMonth) (yearNumber : Z) :
  let r := validateCalendarYear (Some ms) yearNumber in
  (length ms <> 12%nat ->
     In (monthCountError yearNumber (length ms)) (errors r)
     /\ isValid r = false)
  /\ (forall (i : nat) (m : CalendarMonth), ms !! i = Some m ->
        (forall e, In e (errors (validateCalendarMonth m (Z.of_nat i))) ->
                   In (yearPrefix yearNumber e) (errors r))
        /\ (forall w, In w (warnings (validateCalendarMonth m (Z.of_nat i))) ->
                   In (yearPrefix yearNumber w) (warnings r))
        /\ (month m <> Some (Z.of_nat i + 1) ->
              In (monthPositionError yearNumber i m) (errors r)))
  /\ (length ms = 12%nat ->
      (forall (i : nat) (m : CalendarMonth), ms !! i = Some m ->
         errors (validateCalendarMonth m (Z.of_nat i)) = []) ->
      (forall (i : nat) (m : CalendarMonth), ms !! i = Some m ->
         month m = Some (if Nat.eqb i 3 then 9 else Z.of_nat i + 1)) ->
      errors r =
        [lit "Year " ++ showZ yearNumber
           ++ lit ": Month at index 3 has incorrect month number 9"]).
Proof.
  intros r. destruct (validateCalendarYear_lists ms yearNumber) as [Herr Hwarn].
  fold r in Herr, Hwarn. split; [|split].
  - intros Hlen.
    assert (Hin : In (monthCountError yearNumber (length ms)) (errors r)).
    { rewrite Herr. apply in_or_app. left.
      destruct (Nat.eqb_spec (length ms) 12); [contradiction|]. simpl. auto. }
    split; [exact Hin|]. apply not_true_is_false. intros Hv.
    apply validateCalendarYear_isValid in Hv.
    fold r in Hv. rewrite Hv in Hin. destruct Hin.
  - intros i m Hm. split; [|split].
    + intros e He. rewrite Herr. apply in_or_app. right. apply in_or_app. left.
      apply In_collectIndexed. exists i, m. split; [assumption|].
      now apply in_map.
    + intros w Hw. rewrite Hwarn.
      apply In_collectIndexed. exists i, m. split; [assumption|].
      now apply in_map.
    + intros Hne. rewrite Herr. apply in_or_app. right. apply in_or_app. right.
      apply In_collectIndexed. exists i, m. split; [assumption|].
      cbn [Nat.add]. rewrite bool_decide_eq_false_2 by assumption.
      simpl. auto.
  - intros Hlen Hvalid Hnum. rewrite Herr, Hlen. cbn [Nat.eqb negb pushIf app].
    rewrite collectIndexed_nil.
    2:{ intros i m Hm. cbn [Nat.add]. now rewrite (Hvalid i m Hm). }
    cbn [app].
    destruct (ms !! 3%nat) as [m3|] eqn:Hm3.
    2:{ apply lookup_ge_None in Hm3. lia. }
    rewrite (collectIndexed_single _ ms 0 3 m3 Hm3).
    + cbn [Nat.add]. specialize (Hnum 3%nat m3 Hm3). cbn [Nat.eqb] in Hnum.
      rewrite bool_decide_eq_false_2 by (rewrite Hnum; discriminate).
      cbn [negb]. unfold monthPositionError, yearLabel. rewrite Hnum.
      reflexivity.
    + intros i m Hm Hne. cbn [Nat.add]. specialize (Hnum i m Hm).
      destruct (Nat.eqb_spec i 3) as [->|_]; [contradiction|].
      now rewrite bool_decide_eq_true_2 by assumption.
Qed.

Lemma year_length_and_positions_witness :
  length Samples.yearWithMisplacedMonth = 12%nat
  /\ errors (validateCalendarYear (Some Samples.yearWithMisplacedMonth) 2081) =
       [lit "Year 2081: Month at index 3 has incorrect month number 9"]
  /\ In (lit "Year 2081: Must have exactly 12 months, found 1")
       (errors (validateCalendarYear (Some [Samples.sampleMonth 1]) 2081)).
Proof.
  split; [reflexivity|]. split.
  - apply (proj2 (proj2 (year_length_and_positions
                           Samples.yearWithMisplacedMonth 2081))).
    + reflexivity.
    + intros i m Hm.
      do 12 (destruct i as [|i];
             [injection Hm as <-; vm_compute; reflexivity|]).
      discriminate Hm.
    + intros i m Hm.
      do 12 (destruct i as [|i]; [injection Hm as <-; reflexivity|]).
      discriminate Hm.
  - apply (proj1 (year_length_and_positions [Samples.sampleMonth 1] 2081)).
    simpl. discriminate.
Defined.

End ValidationFacts.

(** ** The scrape loop *)

Section ScraperFacts.
Import Scraper RunShape.
Context {W : Type} {clock : Clock W} {puppeteer : Puppeteer W}.

Implicit Types (this : Scraper) (s : Machine W) (e : Thrown).

(** What [scrapeMonth] does, call by call. *)
Lemma scrapeMonth_unfold this (p : Handle) (year month : Z) s :
  page this = Some p ->
  scrapeMonth this year month s =
    let url := calendarUrl year month in
    let s0 := logged (EFetch year month) s in
    match goto p url (timeout (config this)) (world s) with
    | (inl e, w1) => (inl (classify url e), atWorld w1 s0)
    | (inr _, w1) =>
        match evaluateDays p w1 with
        | (inl e, w2) => (inl (classify url e), atWorld w2 s0)
        | (inr ds, w2) =>
            let monthData := {| month := Some month; days := Some ds |} in
            let validation :=
              Validation.validateCalendarMonth monthData (month - 1) in
            if isValid validation then (inr monthData, atWorld w2 s0)
            else
              (inl (ScraperError VALIDATION_ERROR
                      (lit "Validation failed for " ++ showZ year ++ lit "/"
                         ++ showZ month ++ lit ": "
                         ++ joinWith (lit ", ") (errors validation)) None),
               atWorld w2 s0)
        end
    end.
Proof.
  intros Hp. unfold scrapeMonth. rewrite Hp.
  unfold tryCatch, bind, emit, await, throw, ret, logged, atWorld.
  cbn [world limiter events].
  destruct (goto p _ _ (world s)) as [[e|[]] w1]; [reflexivity|].
  cbn [world limiter events].
  destruct (evaluateDays p w1) as [[e|ds] w2]; [reflexivity|].
  cbn [world limiter events].
  destruct (isValid _); reflexivity.
Qed.

Lemma classify_isScraperError (url : list N) e :
  isScraperError (classify url e) = true.
Proof.
  unfold classify. destruct e as [ty msg cause|msg|]; cbn; try reflexivity.
  destruct (includes _ msg); reflexivity.
Qed.

Lemma scrapeMonth_throws_ScraperError this (year month : Z) s e s' :
  scrapeMonth this year month s = (inl e, s') -> isScraperError e = true.
Proof.
  destruct (page this) as [p|] eqn:Hp.
  - rewrite (scrapeMonth_unfold this p) by assumption. cbv zeta.
    destruct (goto p _ _ (world s)) as [[e1|[]] w1].
    + intros [= <- _]. apply classify_isScraperError.
    + destruct (evaluateDays p w1) as [[e2|ds] w2].
      * intros [= <- _]. apply classify_isScraperError.
      * destruct (isValid _); [discriminate|]. now intros [= <- _].
  - unfold scrapeMonth. rewrite Hp. unfold throw. now intros [= <- _].
Qed.

Lemma scrapeMonth_effects this (p : Handle) (year month : Z) s r s' :
  page this = Some p ->
  scrapeMonth this year month s = (r, s') ->
  events s' = events s ++ [EFetch year month] /\ limiter s' = limiter s.
Proof.
  intros Hp. rewrite (scrapeMonth_unfold this p) by assumption. cbv zeta.
  destruct (goto p _ _ (world s)) as [[e1|[]] w1].
  - now intros [= _ <-].
  - destruct (evaluateDays p w1) as [[e2|ds] w2].
    + now intros [= _ <-].
    + destruct (isValid _); now intros [= _ <-].
Qed.

Lemma scrapeMonth_month this (year month : Z) s (md : CalendarMonth) s' :
  scrapeMonth this year month s = (inr md, s') -> Types.month md = Some month.
Proof.
  destruct (page this) as [p|] eqn:Hp.
  - rewrite (scrapeMonth_unfold this p) by assumption. cbv zeta.
    destruct (goto p _ _ (world s)) as [[e1|[]] w1]; [discriminate|].
    destruct (evaluateDays p w1) as [[e2|ds] w2]; [discriminate|].
    destruct (isValid _); [|discriminate]. now intros [= <- _].
  - unfold scrapeMonth. rewrite Hp. discriminate.
Qed.

Lemma afterProgress_events (cb : bool) (p : ScrapingProgress) s :
  events (afterProgress cb p s) = events s ++ progressEvents cb p.
Proof.
  unfold afterProgress, progressEvents. destruct cb; cbn; [reflexivity|].
  now rewrite app_nil_r.
Qed.

(** One turn of the inner loop when the unit throws: [recordError()] is
    called and the error leaves the loop; the months that remain play no
    part. *)
Lemma monthLoop_unit_fails this (cb : bool) (year yearIndex : Z)
    (month : Z) (ms : list Z) (monthIndex : Z)
    (data : gmap Z (list CalendarMonth)) s e s1 :
  scrapeMonth this year month
    (afterProgress cb (progressAt this year yearIndex month monthIndex) s)
    = (inl e, s1) ->
  monthLoop this cb year yearIndex (month :: ms) monthIndex data s =
    (inl e, snd (recordError s1)).
Proof.
  intros Hm. cbn [monthLoop]. unfold bind at 1.
  assert (Hprog : (if cb then
             emit (EProgress
                     {| currentYear := year; currentMonth := month;
                        totalYears := Z.of_nat (length (years (config this)));
                        totalMonths := Z.of_nat (length (months (config this)));
                        completedYears := yearIndex;
                        completedMonths := monthIndex |})
           else ret tt) s =
          (inr tt, afterProgress cb
                     (progressAt this year yearIndex month monthIndex) s)).
  { unfold afterProgress. destruct cb; [reflexivity|]. reflexivity. }
  rewrite Hprog. unfold bind at 1. unfold tryCatch. unfold bind at 1.
  rewrite Hm.
  rewrite (scrapeMonth_throws_ScraperError _ _ _ _ _ _ Hm).
  reflexivity.
Qed.

(** One turn of the inner loop when the unit succeeds: the month is
    pushed, [recordSuccess()] and [waitForNextRequest()] are called, and
    the loop goes on with the next month. *)
Lemma monthLoop_unit_succeeds this (cb : bool) (year yearIndex : Z)
    (month : Z) (ms : list Z) (monthIndex : Z)
    (data : gmap Z (list CalendarMonth)) s (md : CalendarMonth) s1 :
  scrapeMonth this year month
    (afterProgress cb (progressAt this year yearIndex month monthIndex) s)
    = (inr md, s1) ->
  monthLoop this cb year yearIndex (month :: ms) monthIndex data s =
    monthLoop this cb year yearIndex ms (monthIndex + 1)
      (alter (fun a => a ++ [md]) year data)
      (snd (waitForNextRequest (snd (recordSuccess s1)))).
Proof.
  intros Hm. cbn [monthLoop]. unfold bind at 1.
  assert (Hprog : (if cb then
             emit (EProgress
                     {| currentYear := year; currentMonth := month;
                        totalYears := Z.of_nat (length (years (config this)));
                        totalMonths := Z.of_nat (length (months (config this)));
                        completedYears := yearIndex;
                        completedMonths := monthIndex |})
           else ret tt) s =
          (inr tt, afterProgress cb
                     (progressAt this year yearIndex month monthIndex) s)).
  { unfold afterProgress. destruct cb; [reflexivity|]. reflexivity. }
  rewrite Hprog. unfold bind at 1. unfold tryCatch. unfold bind at 1.
  rewrite Hm. unfold bind at 1.
  destruct (recordSuccess s1) as [[e|[]] s2] eqn:Hrs.
  { unfold recordSuccess, bind, emit, onLimiter in Hrs. discriminate. }
  cbn [ret snd]. unfold bind at 1.
  destruct (waitForNextRequest s2) as [[e|[]] s3] eqn:Hw.
  { unfold waitForNextRequest, bind, emit in Hw. cbn in Hw.
    destruct (RateLimiter.waitForNextRequest _ _ _). discriminate. }
  reflexivity.
Qed.

Lemma recordError_effects s :
  events (snd (recordError s)) = events s ++ [ERecordError]
  /\ limiter (snd (recordError s)) = RateLimiter.recordError (limiter s)
  /\ world (snd (recordError s)) = world s.
Proof. repeat split. Qed.

Lemma success_wait_events s :
  events (snd (waitForNextRequest (snd (recordSuccess s)))) =
    events s ++ [ERecordSuccess; EWait].
Proof.
  unfold waitForNextRequest, recordSuccess, bind, emit, onLimiter.
  cbn [snd world limiter events].
  destruct (RateLimiter.waitForNextRequest _ _ _) as [l w].
  cbn [snd events]. now rewrite <- app_assoc.
Qed.

(** How the inner loop ends.  Either every remaining month succeeded,
    the events are one success block per month and the months are
    appended to the year's array in order; or some month threw, the
    events are the success blocks of the months before it followed by its
    failure block, and the loop throws what [scrapeMonth] threw, from the
    state [recordError()] leaves. *)
Lemma monthLoop_run this (p : Handle) (cb : bool) (year yearIndex : Z) :
  page this = Some p ->
  forall (ms : list Z) (monthIndex : Z) (data : gmap Z (list CalendarMonth)) s,
  let '(r, s') := monthLoop this cb year yearIndex ms monthIndex data s in
  match r with
  | inr data' =>
      events s' = events s ++
        concat (map (successBlock cb)
                  (monthUnits (config this) year yearIndex ms monthIndex))
      /\ exists res : list CalendarMonth,
           data' = alter (fun a => a ++ res) year data
           /\ map Types.month res = map Some ms
  | inl e =>
      exists (finished : list ScrapingProgress) (u : ScrapingProgress)
             (rest : list ScrapingProgress) (mid mid' : Machine W),
        monthUnits (config this) year yearIndex ms monthIndex
          = finished ++ u :: rest
        /\ events s' = events s ++ concat (map (successBlock cb) finished)
                         ++ failureBlock cb u
        /\ scrapeMonth this (currentYear u) (currentMonth u) mid = (inl e, mid')
        /\ s' = snd (recordError mid')
  end.
Proof.
  intros Hp. induction ms as [|month ms IH]; intros monthIndex data s.
  - cbn. split; [now rewrite app_nil_r|]. exists []. split; [|reflexivity].
    symmetry. apply alter_id. intros x _. apply app_nil_r.
  - set (u := progressAt this year yearIndex month monthIndex).
    destruct (scrapeMonth this year month (afterProgress cb u s))
      as [[e|md] s1] eqn:Hm.
    + rewrite (monthLoop_unit_fails _ _ _ _ _ _ _ _ _ _ _ Hm).
      exists [], u, (monthUnits (config this) year yearIndex ms (monthIndex + 1)),
        (afterProgress cb u s), s1.
      split; [reflexivity|]. split; [|split; [exact Hm|reflexivity]].
      destruct (recordError_effects s1) as (-> & _).
      destruct (scrapeMonth_effects _ _ _ _ _ _ _ Hp Hm) as (-> & _).
      rewrite afterProgress_events. unfold failureBlock. cbn [map concat app].
      now rewrite <- !app_assoc.
    + rewrite (monthLoop_unit_succeeds _ _ _ _ _ _ _ _ _ _ _ Hm).
      specialize (IH (monthIndex + 1) (alter (fun a => a ++ [md]) year data)
                    (snd (waitForNextRequest (snd (recordSuccess s1))))).
      destruct (monthLoop this cb year yearIndex ms (monthIndex + 1) _ _)
        as [[e|data'] s'].
      * destruct IH as (finished & u' & rest & mid & mid' & Hu & Hev & Hsm & Hs').
        exists (u :: finished), u', rest, mid, mid'.
        split; [cbn [monthUnits]; fold u; now rewrite Hu|].
        split; [|split; assumption].
        rewrite Hev, success_wait_events.
        destruct (scrapeMonth_effects _ _ _ _ _ _ _ Hp Hm) as (-> & _).
        rewrite afterProgress_events. cbn [map concat]. unfold successBlock at 2.
        now rewrite <- !app_assoc.
      * destruct IH as (Hev & res & Hdata & Hres). split.
        -- rewrite Hev, success_wait_events.
           destruct (scrapeMonth_effects _ _ _ _ _ _ _ Hp Hm) as (-> & _).
           rewrite afterProgress_events. cbn [monthUnits map concat]. fold u.
           unfold successBlock at 2. now rewrite <- !app_assoc.
        -- exists (md :: res). split.
           ++ rewrite Hdata, alter_alter_eq. apply alter_ext.
              intros x _. cbn. now rewrite <- app_assoc.
           ++ cbn [map]. rewrite Hres.
              now rewrite (scrapeMonth_month _ _ _ _ _ _ Hm).
Qed.

Lemma concat_map_app {A B : Type} (f : A -> list B) (l1 l2 : list A) :
  concat (map f (l1 ++ l2)) = concat (map f l1) ++ concat (map f l2).
Proof. now rewrite map_app, concat_app. Qed.

(** How the outer loop ends: as the inner loop does, over the units of
    all the years that remain.  On success every year visited maps to
    its months, in the order of the configuration, and the other keys
    are as before. *)
Lemma yearLoop_run this (p : Handle) (cb : bool) :
  page this = Some p ->
  forall (ys : list Z) (yearIndex : Z) (data : gmap Z (list CalendarMonth)) s,
  let '(r, s') := yearLoop this cb ys yearIndex data s in
  match r with
  | inr data' =>
      events s' = events s ++
        concat (map (successBlock cb) (yearUnits (config this) ys yearIndex))
      /\ (forall y : Z, In y ys ->
            exists l : list CalendarMonth,
              data' !! y = Some l
              /\ map Types.month l = map Some (months (config this)))
      /\ (forall y : Z, ~ In y ys -> data' !! y = data !! y)
  | inl e =>
      exists (finished : list ScrapingProgress) (u : ScrapingProgress)
             (rest : list ScrapingProgress) (mid mid' : Machine W),
        yearUnits (config this) ys yearIndex = finished ++ u :: rest
        /\ events s' = events s ++ concat (map (successBlock cb) finished)
                         ++ failureBlock cb u
        /\ scrapeMonth this (currentYear u) (currentMonth u) mid = (inl e, mid')
        /\ s' = snd (recordError mid')
  end.
Proof.
  intros Hp. induction ys as [|year ys IH]; intros yearIndex data s.
  - cbn. split; [now rewrite app_nil_r|]. split; [intros y []|reflexivity].
  - cbn [yearLoop yearUnits]. unfold bind.
    pose proof (monthLoop_run this p cb year yearIndex Hp
                  (months (config this)) 0 (<[year:=[]]> data) s) as Hmonths.
    destruct (monthLoop this cb year yearIndex (months (config this)) 0
                (<[year:=[]]> data) s) as [[e|data1] s1].
    + destruct Hmonths as (finished & u & rest & mid & mid' & Hu & Hev & Hsm & Hs').
      exists finished, u, (rest ++ yearUnits (config this) ys (yearIndex + 1)),
        mid, mid'.
      split; [|auto]. rewrite Hu, <- app_assoc. reflexivity.
    + destruct Hmonths as (Hev1 & res & Hdata1 & Hres).
      specialize (IH (yearIndex + 1) data1 s1).
      destruct (yearLoop this cb ys (yearIndex + 1) data1 s1) as [[e|data'] s'].
      * destruct IH as (finished & u & rest & mid & mid' & Hu & Hev & Hsm & Hs').
        exists (monthUnits (config this) year yearIndex (months (config this)) 0
                  ++ finished), u, rest, mid, mid'.
        split; [now rewrite Hu, <- app_assoc|]. split; [|auto].
        rewrite Hev, Hev1, concat_map_app. now rewrite <- !app_assoc.
      * destruct IH as (Hev & Hin & Hout).
        assert (Hyear : data1 !! year = Some res).
        { rewrite Hdata1, lookup_alter_eq, lookup_insert_eq. reflexivity. }
        split; [|split].
        -- rewrite Hev, Hev1, concat_map_app. now rewrite <- !app_assoc.
        -- intros y Hy. destruct (in_dec Z.eq_dec y ys) as [Hys|Hys].
           ++ now apply Hin.
           ++ destruct Hy as [<-|Hy]; [|contradiction].
              exists res. rewrite (Hout year Hys). auto.
        -- intros y Hy. rewrite Hout by (intros Hys; apply Hy; now right).
           rewrite Hdata1, lookup_alter_ne, lookup_insert_ne;
             [reflexivity| |]; intros ->; apply Hy; now left.
Qed.

(** *** The units of a configuration *)

Lemma monthUnits_length (cfg : ScraperConfig) (year yearIndex : Z)
    (ms : list Z) (monthIndex : Z) :
  length (monthUnits cfg year yearIndex ms monthIndex) = length ms.
Proof.
  revert monthIndex. induction ms as [|m ms IH]; intros monthIndex; cbn;
    [reflexivity|now rewrite IH].
Qed.

Lemma yearUnits_length (cfg : ScraperConfig) (ys : list Z) (yearIndex : Z) :
  length (yearUnits cfg ys yearIndex) = (length ys * length (months cfg))%nat.
Proof.
  revert yearIndex. induction ys as [|y ys IH]; intros yearIndex; cbn;
    [reflexivity|].
  now rewrite length_app, monthUnits_length, IH.
Qed.





(** *** The run as a whole *)

Lemma scrape_run this (p : Handle) (cb : bool) s :
  page this = Some p ->
  let '(r, s') := scrape this cb s in
  match r with
  | inr data =>
      events s' = events s ++
        concat (map (successBlock cb) (unitsOf (config this)))
      /\ (forall y : Z, In y (years (config this)) ->
            exists l : list CalendarMonth,
              data !! y = Some l
              /\ map Types.month l = map Some (months (config this)))
      /\ (forall y : Z, ~ In y (years (config this)) -> data !! y = None)
  | inl e =>
      exists (finished : list ScrapingProgress) (u : ScrapingProgress)
             (rest : list ScrapingProgress) (mid mid' : Machine W),
        unitsOf (config this) = finished ++ u :: rest
        /\ events s' = events s ++ concat (map (successBlock cb) finished)
                         ++ failureBlock cb u
        /\ scrapeMonth this (currentYear u) (currentMonth u) mid = (inl e, mid')
        /\ s' = snd (recordError mid')
  end.
Proof.
  intros Hp. unfold scrape. rewrite Hp.
  pose proof (yearLoop_run this p cb Hp (years (config this)) 0 ∅ s) as Hrun.
  destruct (yearLoop this cb (years (config this)) 0 ∅ s) as [[e|data] s'].
  - exact Hrun.
  - destruct Hrun as (Hev & Hin & Hout). split; [exact Hev|].
    split; [exact Hin|]. intros y Hy. now rewrite (Hout y Hy).
Qed.



(** *** Where the waits are *)







(** *** Failing units *)





(** *** Progress on a run without failures *)

Lemma progressOf_successBlocks (us : list ScrapingProgress) :
  progressOf (concat (map (successBlock true) us)) = us.
Proof.
  induction us as [|u us IH]; [reflexivity|].
  cbn [map concat]. unfold progressOf in *. cbn. now rewrite IH.
Qed.


End ScraperFacts.

Section SampleRuns.
Import Scraper RunShape Samples.








End SampleRuns.

(** ** JSON documents *)

Section JsonFacts.
Import Json.

(** *** String literals *)

Lemma hexValue_hexDigit (d : N) : (d < 16)%N -> hexValue (hexDigit d) = Some d.
Proof.
  intros Hd.
  assert (Hcases : d = 0%N \/ d = 1%N \/ d = 2%N \/ d = 3%N \/ d = 4%N
                   \/ d = 5%N \/ d = 6%N \/ d = 7%N \/ d = 8%N \/ d = 9%N
                   \/ d = 10%N \/ d = 11%N \/ d = 12%N \/ d = 13%N
                   \/ d = 14%N \/ d = 15%N) by lia.
  repeat (destruct Hcases as [->|Hcases]; [reflexivity|]).
  now subst d.
Qed.

Lemma parseStringBody_unicodeEscape (c : N) (X : list N) :
  (c < 65536)%N ->
  parseStringBody (unicodeEscape c ++ X) =
    match parseStringBody X with
    | Some (str, rest) => Some (c :: str, rest)
    | None => None
    end.
Proof.
  intros Hc. unfold unicodeEscape. cbn [app parseStringBody].
  change (92 =? 34)%N with false. change (92 =? 92)%N with true.
  change (117 =? 117)%N with true. cbn iota.
  assert (H3 : (c / 4096 < 16)%N) by (apply N.Div0.div_lt_upper_bound; lia).
  assert (H2 : ((c / 256) mod 16 < 16)%N) by (apply N.mod_lt; lia).
  assert (H1 : ((c / 16) mod 16 < 16)%N) by (apply N.mod_lt; lia).
  assert (H0 : (c mod 16 < 16)%N) by (apply N.mod_lt; lia).
  rewrite !hexValue_hexDigit by assumption.
  assert (Hsum : (c / 4096 * 4096 + (c / 256) mod 16 * 256
                  + (c / 16) mod 16 * 16 + c mod 16 = c)%N).
  { pose proof (N.div_mod c 16 ltac:(lia)) as E0.
    pose proof (N.div_mod (c / 16) 16 ltac:(lia)) as E1.
    pose proof (N.div_mod (c / 256) 16 ltac:(lia)) as E2.
    rewrite N.Div0.div_div in E1. change (16 * 16)%N with 256%N in E1.
    replace (c / 256 / 16)%N with (c / 4096)%N in E2
      by (rewrite N.Div0.div_div; reflexivity).
    lia. }
  rewrite Hsum. reflexivity.
Qed.

Lemma parseStringBody_plain (c : N) (X : list N) :
  c <> 34%N -> c <> 92%N -> (32 <= c)%N ->
  parseStringBody (c :: X) =
    match parseStringBody X with
    | Some (str, rest) => Some (c :: str, rest)
    | None => None
    end.
Proof.
  intros H34 H92 H32. cbn [parseStringBody].
  rewrite (proj2 (N.eqb_neq c 34) H34), (proj2 (N.eqb_neq c 92) H92).
  now rewrite (proj2 (N.ltb_ge c 32) H32).
Qed.

Lemma parseStringBody_quoteUnit (c : N) (X : list N) :
  parseStringBody (quoteUnit c ++ X) =
    match parseStringBody X with
    | Some (str, rest) => Some (c :: str, rest)
    | None => None
    end.
Proof.
  unfold quoteUnit.
  destruct (N.eqb_spec c 8) as [->|H8]; [reflexivity|].
  destruct (N.eqb_spec c 9) as [->|H9]; [reflexivity|].
  destruct (N.eqb_spec c 10) as [->|H10]; [reflexivity|].
  destruct (N.eqb_spec c 12) as [->|H12]; [reflexivity|].
  destruct (N.eqb_spec c 13) as [->|H13]; [reflexivity|].
  destruct (N.eqb_spec c 34) as [->|H34]; [reflexivity|].
  destruct (N.eqb_spec c 92) as [->|H92]; [reflexivity|].
  destruct ((c <? 32)%N || isHighSurrogate c || isLowSurrogate c) eqn:Hesc.
  - apply parseStringBody_unicodeEscape.
    unfold isHighSurrogate, isLowSurrogate in Hesc.
    rewrite !orb_true_iff, !andb_true_iff, N.ltb_lt, !N.leb_le in Hesc. lia.
  - apply parseStringBody_plain; try assumption.
    rewrite !orb_false_iff, N.ltb_ge in Hesc. lia.
Qed.

Lemma parseStringBody_quoteUnits (s rest : list N) :
  parseStringBody (quoteUnits s ++ 34%N :: rest) = Some (s, rest).
Proof.
  remember (length s) as n eqn:Hn. revert s Hn.
  induction n as [n IH] using lt_wf_ind. intros s Hn.
  destruct s as [|c r]; [reflexivity|]. cbn [quoteUnits].
  assert (Hr : parseStringBody (quoteUnits r ++ 34%N :: rest) = Some (r, rest))
    by (apply (IH (length r)); [subst n; cbn; lia|reflexivity]).
  destruct (isHighSurrogate c) eqn:Hhigh.
  - destruct r as [|d r'].
    + rewrite parseStringBody_quoteUnit. reflexivity.
    + destruct (isLowSurrogate d) eqn:Hlow.
      * unfold isHighSurrogate in Hhigh. unfold isLowSurrogate in Hlow.
        rewrite andb_true_iff, !N.leb_le in Hhigh, Hlow.
        cbn [app]. rewrite parseStringBody_plain by lia.
        rewrite parseStringBody_plain by lia.
        rewrite (IH (length r')); [reflexivity|subst n; cbn; lia|reflexivity].
      * rewrite <- app_assoc, parseStringBody_quoteUnit. now rewrite Hr.
  - rewrite <- app_assoc, parseStringBody_quoteUnit. now rewrite Hr.
Qed.

(** *** Decimal numerals *)

Lemma lit_string_of_uint (u : Decimal.uint) :
  lit (NilEmpty.string_of_uint u) = digitChars u.
Proof.
  unfold lit. induction u; cbn in *; try reflexivity; now f_equal.
Qed.

Lemma showZ_cases (z : Z) :
  showZ z =
    match z with
    | 0 => [48%N]
    | Z.pos p => digitChars (Pos.to_uint p)
    | Z.neg p => 45%N :: digitChars (Pos.to_uint p)
    end.
Proof.
  unfold showZ. destruct z as [|p|p]; [reflexivity| |].
  - cbn [Z.to_int NilZero.string_of_int].
    pose proof (DecimalPos.Unsigned.to_uint_nonnil p) as Hnil.
    unfold NilZero.string_of_uint.
    destruct (Pos.to_uint p) eqn:Hp; try contradiction;
      now rewrite <- lit_string_of_uint.
  - cbn [Z.to_int NilZero.string_of_int].
    pose proof (DecimalPos.Unsigned.to_uint_nonnil p) as Hnil.
    unfold NilZero.string_of_uint.
    destruct (Pos.to_uint p) eqn:Hp; try contradiction;
      change (lit (String "-" ?s)) with (45%N :: lit s);
      now rewrite <- lit_string_of_uint.
Qed.

Lemma digitChars_isDigit (u : Decimal.uint) :
  Forall (fun c => isDigit c = true) (digitChars u).
Proof. induction u; cbn; constructor; auto. Qed.

Lemma digitChars_value_acc (u : Decimal.uint) (acc : positive) :
  fold_left digitStep (digitChars u) (Z.pos acc) = Z.pos (Pos.of_uint_acc u acc).
Proof.
  revert acc. induction u; intros acc; cbn [digitChars fold_left Pos.of_uint_acc];
    [reflexivity|..];
    rewrite <- IHu; f_equal; unfold digitStep, digitValue; lia.
Qed.

Lemma digitChars_value (u : Decimal.uint) :
  digitsValue (digitChars u) = Z.of_N (Pos.of_uint u).
Proof.
  unfold digitsValue. change (fun acc c => acc * 10 + digitValue c) with digitStep.
  induction u; cbn [digitChars fold_left Pos.of_uint]; [reflexivity|exact IHu|..];
    cbn [Z.of_N]; rewrite <- digitChars_value_acc; reflexivity.
Qed.

Lemma digitChars_to_uint_value (p : positive) :
  digitsValue (digitChars (Pos.to_uint p)) = Z.pos p.
Proof. now rewrite digitChars_value, DecimalPos.Unsigned.of_to. Qed.

(** The numeral of a positive number does not start with a zero. *)
Lemma digitChars_to_uint_head (p : positive) :
  exists (c : N) (t : list N),
    digitChars (Pos.to_uint p) = c :: t /\ (49 <= c <= 57)%N.
Proof.
  pose proof (DecimalPos.Unsigned.to_of (Pos.to_uint p)) as Hnorm.
  rewrite DecimalPos.Unsigned.of_to in Hnorm. cbn [N.to_uint] in Hnorm.
  pose proof (DecimalPos.Unsigned.to_uint_nonzero p) as Hnz.
  unfold Decimal.unorm in Hnorm.
  destruct (Decimal.nzhead (Pos.to_uint p)) eqn:Hhead;
    try (rewrite Hnorm; cbn [digitChars]; eexists; eexists; split;
         [reflexivity|lia]).
  - now rewrite Hnorm in Hnz.
  - exfalso. clear -Hhead.
    induction (Pos.to_uint p); cbn in Hhead; try discriminate; auto.
Qed.

Lemma takeWhile_dropWhile_app {A : Type} (p : A -> bool) (ds rest : list A) :
  Forall (fun c => p c = true) ds ->
  match rest with [] => True | c :: _ => p c = false end ->
  takeWhile p (ds ++ rest) = ds /\ dropWhile p (ds ++ rest) = rest.
Proof.
  intros Hds Hrest. induction Hds as [|d ds Hd Hds IH]; cbn.
  - destruct rest as [|c t]; [auto|]. cbn. now rewrite Hrest.
  - rewrite Hd. destruct IH as [-> ->]. auto.
Qed.

Lemma parseNumber_digits (sign : Z) (c : N) (t rest : list N) :
  Forall (fun d => isDigit d = true) (c :: t) ->
  (c = 48%N -> t = []) -> c <> 45%N ->
  endsNumber rest ->
  (let rest' := dropWhile isDigit ((c :: t) ++ rest) in
   match takeWhile isDigit ((c :: t) ++ rest) with
   | [] => None
   | d0 :: ds =>
       if (d0 =? 48)%N && negb (match ds with [] => true | _ => false end)
       then None
       else
         match rest' with
         | c' :: _ =>
             if ((c' =? 46) || (c' =? 101) || (c' =? 69))%N then None
             else Some (sign * digitsValue (d0 :: ds), rest')
         | [] => Some (sign * digitsValue (d0 :: ds), rest')
         end
   end) = Some (sign * digitsValue (c :: t), rest).
Proof.
  intros Hdigits Hzero H45 Hrest. cbv zeta.
  destruct (takeWhile_dropWhile_app isDigit (c :: t) rest Hdigits) as [-> ->].
  { destruct rest; [exact I|apply Hrest]. }
  assert (Hlead : (c =? 48)%N && negb (match t with [] => true | _ => false end)
                  = false).
  { destruct (N.eqb_spec c 48) as [Hc|Hc]; [|reflexivity].
    now rewrite (Hzero Hc). }
  rewrite Hlead. destruct rest as [|c' rest']; [reflexivity|].
  destruct Hrest as (_ & H46 & H101 & H69).
  now rewrite (proj2 (N.eqb_neq c' 46) H46), (proj2 (N.eqb_neq c' 101) H101),
    (proj2 (N.eqb_neq c' 69) H69).
Qed.

Lemma parseNumber_showZ (z : Z) (rest : list N) :
  endsNumber rest -> parseNumber (showZ z ++ rest) = Some (z, rest).
Proof.
  intros Hrest. rewrite showZ_cases. destruct z as [|p|p].
  - unfold parseNumber. cbn [app]. change (48 =? 45)%N with false. cbn iota.
    apply (parseNumber_digits 1 48 [] rest); auto; try discriminate.
  - destruct (digitChars_to_uint_head p) as (c & t & Hct & Hc).
    pose proof (digitChars_isDigit (Pos.to_uint p)) as Hdigits.
    pose proof (digitChars_to_uint_value p) as Hval.
    rewrite Hct in *. unfold parseNumber. cbn [app].
    rewrite (proj2 (N.eqb_neq c 45)) by lia.
    replace (Z.pos p) with (1 * digitsValue (c :: t)) by lia.
    apply (parseNumber_digits 1 c t rest); auto; lia.
  - destruct (digitChars_to_uint_head p) as (c & t & Hct & Hc).
    pose proof (digitChars_isDigit (Pos.to_uint p)) as Hdigits.
    pose proof (digitChars_to_uint_value p) as Hval.
    rewrite Hct in *. unfold parseNumber. cbn [app].
    change (45 =? 45)%N with true.
    replace (Z.neg p) with (-1 * digitsValue (c :: t)) by lia.
    apply (parseNumber_digits (-1) c t rest); auto; lia.
Qed.

Lemma isDigit_not_whiteSpace (c : N) : isDigit c = true -> isWhiteSpace c = false.
Proof.
  unfold isDigit, isWhiteSpace. rewrite andb_true_iff, !N.leb_le. intros Hc.
  repeat (match goal with
          | |- context [N.leb ?a ?b] => destruct (N.leb_spec a b); try lia
          | |- context [N.eqb ?a ?b] => destruct (N.eqb_spec a b); try lia
          end); reflexivity.
Qed.

(** [parseInt] reads back the year a key was written from. *)
Lemma parseInt10_showZ (z : Z) : parseInt10 (showZ z) = Some z.
Proof.
  rewrite showZ_cases. destruct z as [|p|p]; [reflexivity| |].
  - destruct (digitChars_to_uint_head p) as (c & t & Hct & Hc).
    pose proof (digitChars_isDigit (Pos.to_uint p)) as Hdigits.
    pose proof (digitChars_to_uint_value p) as Hval.
    rewrite Hct in *. unfold parseInt10. cbn [dropWhile].
    rewrite isDigit_not_whiteSpace by (now inversion Hdigits).
    rewrite (proj2 (N.eqb_neq c 45)), (proj2 (N.eqb_neq c 43)) by lia.
    destruct (takeWhile_dropWhile_app isDigit (c :: t) [] Hdigits I) as [Htake _].
    rewrite app_nil_r in Htake. rewrite Htake, Hval. reflexivity.
  - destruct (digitChars_to_uint_head p) as (c & t & Hct & Hc).
    pose proof (digitChars_isDigit (Pos.to_uint p)) as Hdigits.
    pose proof (digitChars_to_uint_value p) as Hval.
    rewrite Hct in *. unfold parseInt10. cbn [dropWhile].
    change (isWhiteSpace 45) with false. cbn iota.
    change (45 =? 45)%N with true. cbn iota.
    destruct (takeWhile_dropWhile_app isDigit (c :: t) [] Hdigits I) as [Htake _].
    rewrite app_nil_r in Htake. rewrite Htake, Hval. reflexivity.
Qed.

(** *** Values *)

Lemma json_nested_ind (P : json -> Prop) :
  P JNull ->
  (forall b, P (JBool b)) ->
  (forall z, P (JNumber z)) ->
  (forall s, P (JString s)) ->
  (forall items, Forall P items -> P (JArray items)) ->
  (forall props, Forall (fun kv => P (snd kv)) props -> P (JObject props)) ->
  forall v, P v.
Proof.
  intros Hnull Hbool Hnum Hstr Harr Hobj. fix IH 1.
  intros [|b|z|s|items|props].
  - exact Hnull.
  - apply Hbool.
  - apply Hnum.
  - apply Hstr.
  - apply Harr. induction items as [|x items IHitems]; constructor.
    + apply IH.
    + exact IHitems.
  - apply Hobj. induction props as [|[k x] props IHprops]; constructor.
    + apply IH.
    + exact IHprops.
Qed.

Lemma stringifyValue_array (indent : nat) (x : json) (xs : list json) :
  stringifyValue indent (JArray (x :: xs)) =
    91%N :: newline (indent + 2) ++ stringifyValue (indent + 2) x
      ++ itemsTail (indent + 2) xs ++ newline indent ++ [93%N].
Proof.
  cbn [stringifyValue]. change (lit "[") with [91%N]. change (lit "]") with [93%N].
  cbn [app]. do 3 f_equal. f_equal.
  induction xs as [|y ys IH]; [reflexivity|].
  cbn [itemsTail]. rewrite <- IH. reflexivity.
Qed.

Lemma stringifyValue_object (indent : nat) (k : list N) (x : json)
    (ps : list (list N * json)) :
  stringifyValue indent (JObject ((k, x) :: ps)) =
    123%N :: newline (indent + 2) ++ quoteJSONString k ++ 58%N :: 32%N
      :: stringifyValue (indent + 2) x
      ++ membersTail (indent + 2) ps ++ newline indent ++ [125%N].
Proof.
  cbn [stringifyValue]. change (lit "{") with [123%N].
  change (lit "}") with [125%N]. change (lit ": ") with [58%N; 32%N].
  cbn [app]. do 7 f_equal.
  induction ps as [|[k' y] ps' IH]; [reflexivity|].
  cbn [membersTail]. rewrite <- IH. reflexivity.
Qed.

Lemma showZ_head (z : Z) :
  exists (c : N) (t : list N),
    showZ z = c :: t /\ (c = 45%N \/ (48 <= c <= 57)%N).
Proof.
  rewrite showZ_cases. destruct z as [|p|p].
  - exists 48%N, []. split; [reflexivity|lia].
  - destruct (digitChars_to_uint_head p) as (c & t & -> & Hc).
    exists c, t. split; [reflexivity|lia].
  - eexists; eexists. split; [reflexivity|auto].
Qed.

(** No value starts with white space or closes an array. *)
Lemma stringifyValue_head (indent : nat) (v : json) :
  exists (c : N) (t : list N),
    stringifyValue indent v = c :: t
    /\ isJsonWhiteSpace c = false /\ c <> 93%N.
Proof.
  destruct v as [|b|z|s|items|props].
  - eexists; eexists. split; [reflexivity|]. split; [reflexivity|discriminate].
  - destruct b; eexists; eexists;
      (split; [reflexivity|]; split; [reflexivity|discriminate]).
  - destruct (showZ_head z) as (c & t & Hz & Hc). exists c, t.
    split; [exact Hz|]. unfold isJsonWhiteSpace.
    split; [|lia].
    repeat (match goal with
            | |- context [N.eqb ?a ?b] => destruct (N.eqb_spec a b); try lia
            end); reflexivity.
  - eexists; eexists. split; [reflexivity|]. split; [reflexivity|discriminate].
  - destruct items as [|x xs].
    + eexists; eexists. split; [reflexivity|]. split; [reflexivity|discriminate].
    + rewrite stringifyValue_array. eexists; eexists.
      split; [reflexivity|]. split; [reflexivity|discriminate].
  - destruct props as [|[k x] ps].
    + eexists; eexists. split; [reflexivity|]. split; [reflexivity|discriminate].
    + rewrite stringifyValue_object. eexists; eexists.
      split; [reflexivity|]. split; [reflexivity|discriminate].
Qed.

Lemma skipWs_pad (pad : list N) (c : N) (t : list N) :
  Forall (fun w => isJsonWhiteSpace w = true) pad ->
  isJsonWhiteSpace c = false ->
  skipWs (pad ++ c :: t) = c :: t.
Proof.
  intros Hpad Hc. unfold skipWs.
  induction Hpad as [|w pad Hw Hpad IH]; cbn.
  - now rewrite Hc.
  - now rewrite Hw.
Qed.

Lemma newline_whiteSpace (indent : nat) :
  Forall (fun w => isJsonWhiteSpace w = true) (newline indent).
Proof.
  unfold newline. constructor; [reflexivity|].
  induction indent; cbn; constructor; auto.
Qed.

Lemma follows_endsNumber (rest : list N) : follows rest -> endsNumber rest.
Proof.
  destruct rest as [|c t]; [exact (fun _ => I)|].
  cbn. intros [-> | ->]; repeat split; discriminate.
Qed.

(** *** Objects under construction *)

Lemma setProp_fresh (k : list N) (v : json) (props : list (list N * json)) :
  ~ In k (map fst props) -> setProp k v props = props ++ [(k, v)].
Proof.
  induction props as [|[k' v'] props IH]; intros Hk; cbn; [reflexivity|].
  rewrite bool_decide_eq_false_2 by (intros ->; apply Hk; now left).
  rewrite IH; [reflexivity|]. intros Hin. apply Hk. now right.
Qed.

Lemma buildObject_acc (members acc : list (list N * json)) :
  List.NoDup (map fst (acc ++ members)) ->
  fold_left (fun props '(k, v) => setProp k v props) members acc = acc ++ members.
Proof.
  revert acc. induction members as [|[k v] members IH]; intros acc Hnodup; cbn.
  - now rewrite app_nil_r.
  - rewrite map_app in Hnodup. cbn in Hnodup.
    rewrite setProp_fresh.
    + rewrite IH; [now rewrite <- app_assoc|].
      now rewrite <- app_assoc, map_app.
    + apply NoDup_remove_2 in Hnodup. intros Hin. apply Hnodup.
      apply in_or_app. now left.
Qed.

Lemma buildObject_NoDup (members : list (list N * json)) :
  List.NoDup (map fst members) -> buildObject members = members.
Proof. intros Hnodup. unfold buildObject. now rewrite buildObject_acc. Qed.

(** *** How [parseValue] dispatches on the first character *)

Lemma parseValue_null (fuel : nat) (s rest : list N) :
  skipWs s = 110%N :: 117%N :: 108%N :: 108%N :: rest ->
  parseValue (S fuel) s = Some (JNull, rest).
Proof. intros Hs. cbn [parseValue]. rewrite Hs. reflexivity. Qed.

Lemma parseValue_true (fuel : nat) (s rest : list N) :
  skipWs s = 116%N :: 114%N :: 117%N :: 101%N :: rest ->
  parseValue (S fuel) s = Some (JBool true, rest).
Proof. intros Hs. cbn [parseValue]. rewrite Hs. reflexivity. Qed.

Lemma parseValue_false (fuel : nat) (s rest : list N) :
  skipWs s = 102%N :: 97%N :: 108%N :: 115%N :: 101%N :: rest ->
  parseValue (S fuel) s = Some (JBool false, rest).
Proof. intros Hs. cbn [parseValue]. rewrite Hs. reflexivity. Qed.

Lemma parseValue_string (fuel : nat) (s t : list N) :
  skipWs s = 34%N :: t ->
  parseValue (S fuel) s =
    match parseStringBody t with
    | Some (str, rest) => Some (JString str, rest)
    | None => None
    end.
Proof. intros Hs. cbn [parseValue]. rewrite Hs. reflexivity. Qed.

Lemma parseValue_array (fuel : nat) (s t : list N) :
  skipWs s = 91%N :: t ->
  parseValue (S fuel) s =
    match skipWs t with
    | c' :: r' =>
        if (c' =? 93)%N then Some (JArray [], r')
        else
          match parseItems fuel (c' :: r') with
          | Some (items, rest) => Some (JArray items, rest)
          | None => None
          end
    | [] => None
    end.
Proof. intros Hs. cbn [parseValue]. rewrite Hs. reflexivity. Qed.

Lemma parseValue_object (fuel : nat) (s t : list N) :
  skipWs s = 123%N :: t ->
  parseValue (S fuel) s =
    match skipWs t with
    | c' :: r' =>
        if (c' =? 125)%N then Some (JObject [], r')
        else
          match parseMembers fuel (c' :: r') with
          | Some (members, rest) => Some (JObject (buildObject members), rest)
          | None => None
          end
    | [] => None
    end.
Proof. intros Hs. cbn [parseValue]. rewrite Hs. reflexivity. Qed.

Lemma parseValue_number (fuel : nat) (s : list N) (c : N) (t : list N) :
  skipWs s = c :: t ->
  c = 45%N \/ (48 <= c <= 57)%N ->
  parseValue (S fuel) s =
    match parseNumber (c :: t) with
    | Some (z, rest) => Some (JNumber z, rest)
    | None => None
    end.
Proof.
  intros Hs Hc. cbn [parseValue]. rewrite Hs.
  change (lit "null") with [110; 117; 108; 108]%N.
  change (lit "true") with [116; 114; 117; 101]%N.
  change (lit "false") with [102; 97; 108; 115; 101]%N.
  cbn [startsWith].
  rewrite (proj2 (N.eqb_neq 110 c)), (proj2 (N.eqb_neq 116 c)),
    (proj2 (N.eqb_neq 102 c)) by lia.
  cbn [andb].
  now rewrite (proj2 (N.eqb_neq c 34)), (proj2 (N.eqb_neq c 91)),
    (proj2 (N.eqb_neq c 123)) by lia.
Qed.

Lemma parseItems_S (fuel : nat) (s : list N) :
  parseItems (S fuel) s =
    match parseValue fuel s with
    | Some (v, r) =>
        match skipWs r with
        | c :: r' =>
            if (c =? 44)%N then
              match parseItems fuel r' with
              | Some (vs, rest) => Some (v :: vs, rest)
              | None => None
              end
            else if (c =? 93)%N then Some ([v], r')
            else None
        | [] => None
        end
    | None => None
    end.
Proof. reflexivity. Qed.

Lemma parseMembers_S (fuel : nat) (s : list N) :
  parseMembers (S fuel) s =
    match skipWs s with
    | c :: r =>
        if (c =? 34)%N then
          match parseStringBody r with
          | Some (k, r1) =>
              match skipWs r1 with
              | c1 :: r2 =>
                  if (c1 =? 58)%N then
                    match parseValue fuel r2 with
                    | Some (v, r3) =>
                        match skipWs r3 with
                        | c3 :: r4 =>
                            if (c3 =? 44)%N then
                              match parseMembers fuel r4 with
                              | Some (ps, rest) => Some ((k, v) :: ps, rest)
                              | None => None
                              end
                            else if (c3 =? 125)%N then Some ([(k, v)], r4)
                            else None
                        | [] => None
                        end
                    | None => None
                    end
                  else None
              | [] => None
              end
          | None => None
          end
        else None
    | [] => None
    end.
Proof. reflexivity. Qed.

(** *** Reading back what was written *)

Lemma follows_itemsTail (indent j : nat) (xs : list json) (rest : list N) :
  follows (itemsTail indent xs ++ newline j ++ rest).
Proof. destruct xs; cbn; auto. Qed.

Lemma follows_membersTail (indent j : nat) (ps : list (list N * json))
    (rest : list N) :
  follows (membersTail indent ps ++ newline j ++ rest).
Proof. destruct ps as [|[k y] ps]; cbn; auto. Qed.

Lemma parseItems_back (indent j : nat) (rest : list N) (xs : list json) :
  forall (x : json) (pad : list N) (fuel : nat),
    Forall ParsesBack (x :: xs) ->
    Forall WellFormed (x :: xs) ->
    Forall (fun w => isJsonWhiteSpace w = true) pad ->
    (length (stringifyValue indent x) + length (itemsTail indent xs) + 1
       <= fuel)%nat ->
    parseItems fuel (pad ++ stringifyValue indent x ++ itemsTail indent xs
                       ++ newline j ++ 93%N :: rest)
      = Some (x :: xs, rest).
Proof.
  induction xs as [|y ys IH]; intros x pad fuel Hback Hwf Hpad Hfuel;
    (destruct fuel as [|fuel]; [lia|]);
    inversion Hback as [|? ? Hx Hxs]; subst;
    inversion Hwf as [|? ? Hwx Hwxs]; subst;
    rewrite parseItems_S.
  - rewrite (Hx indent pad _ fuel Hwx Hpad (follows_itemsTail indent j [] _))
      by (cbn in Hfuel; lia).
    cbn [itemsTail app].
    rewrite (skipWs_pad (newline j) 93 rest (newline_whiteSpace j) eq_refl).
    reflexivity.
  - rewrite (Hx indent pad _ fuel Hwx Hpad
               (follows_itemsTail indent j (y :: ys) _)) by lia.
    cbn [itemsTail app]. unfold skipWs at 1. cbn [dropWhile].
    change (isJsonWhiteSpace 44) with false. cbn iota.
    change (44 =? 44)%N with true. cbn iota.
    rewrite <- !app_assoc. rewrite (IH y (newline indent) fuel Hxs Hwxs).
    + reflexivity.
    + apply newline_whiteSpace.
    + cbn [itemsTail length] in Hfuel. rewrite !length_app in Hfuel. lia.
Qed.

Lemma parseMembers_back (indent j : nat) (rest : list N)
    (ps : list (list N * json)) :
  forall (k : list N) (x : json) (pad : list N) (fuel : nat),
    Forall (fun kv => ParsesBack (snd kv)) ((k, x) :: ps) ->
    Forall (fun kv => WellFormed (snd kv)) ((k, x) :: ps) ->
    Forall (fun w => isJsonWhiteSpace w = true) pad ->
    (length (stringifyValue indent x) + length (membersTail indent ps) + 1
       <= fuel)%nat ->
    parseMembers fuel (pad ++ quoteJSONString k ++ 58%N :: 32%N
                         :: stringifyValue indent x ++ membersTail indent ps
                         ++ newline j ++ 125%N :: rest)
      = Some ((k, x) :: ps, rest).
Proof.
  induction ps as [|[k' y] ps IH]; intros k x pad fuel Hback Hwf Hpad Hfuel;
    (destruct fuel as [|fuel]; [lia|]);
    inversion Hback as [|? ? Hx Hxs]; subst;
    inversion Hwf as [|? ? Hwx Hwxs]; subst; cbn [snd] in Hx, Hwx;
    rewrite parseMembers_S; unfold quoteJSONString; cbn [app];
    rewrite (skipWs_pad pad 34 _ Hpad eq_refl);
    change (34 =? 34)%N with true; cbn iota;
    rewrite <- app_assoc; cbn [app];
    rewrite parseStringBody_quoteUnits;
    unfold skipWs at 1; cbn [dropWhile];
    change (isJsonWhiteSpace 58) with false; cbn iota;
    change (58 =? 58)%N with true; cbn iota;
    match goal with
    | |- context [parseValue fuel (32%N :: ?t)] =>
        change (32%N :: t) with ([32%N] ++ t)
    end.
  - rewrite (Hx indent [32%N] _ fuel Hwx ltac:(repeat constructor)
               (follows_membersTail indent j [] _))
      by (cbn in Hfuel; lia).
    cbn [membersTail app].
    rewrite (skipWs_pad (newline j) 125 rest (newline_whiteSpace j) eq_refl).
    reflexivity.
  - rewrite (Hx indent [32%N] _ fuel Hwx ltac:(repeat constructor)
               (follows_membersTail indent j ((k', y) :: ps) _)) by lia.
    cbn [membersTail app]. unfold skipWs at 1. cbn [dropWhile].
    change (isJsonWhiteSpace 44) with false. cbn iota.
    change (44 =? 44)%N with true. cbn iota.
    rewrite <- !app_assoc. cbn [app]. rewrite <- ?app_assoc.
    rewrite (IH k' y (newline indent) fuel Hxs Hwxs).
    + reflexivity.
    + apply newline_whiteSpace.
    + cbn [membersTail length] in Hfuel.
      rewrite !length_app in Hfuel. cbn [length] in Hfuel.
      rewrite !length_app in Hfuel. lia.
Qed.

Lemma parseValue_stringifyValue (v : json) : ParsesBack v.
Proof.
  induction v as [|b|z|s|items IHitems|props IHprops] using json_nested_ind;
    intros indent pad rest fuel Hwf Hpad Hrest Hfuel;
    (destruct fuel as [|fuel];
     [destruct (stringifyValue_head indent v) as (c0 & t0 & Hc0 & _)
      || idtac|]).
  all: try (exfalso; revert Hfuel;
            match goal with
            | |- context [stringifyValue ?i ?w] =>
                destruct (stringifyValue_head i w) as (c0 & t0 & -> & _)
            end; cbn; lia).
  - apply parseValue_null. now apply skipWs_pad.
  - destruct b.
    + apply parseValue_true. now apply skipWs_pad.
    + apply parseValue_false. now apply skipWs_pad.
  - destruct (showZ_head z) as (c & t & Hz & Hc).
    destruct (stringifyValue_head indent (JNumber z)) as (c' & t' & Hz' & Hws & _).
    cbn [stringifyValue] in *. rewrite Hz in Hz'. injection Hz' as <- <-.
    rewrite (parseValue_number fuel _ c (t ++ rest)).
    + change (c :: t ++ rest) with ((c :: t) ++ rest). rewrite <- Hz.
      rewrite parseNumber_showZ; [reflexivity|now apply follows_endsNumber].
    + rewrite Hz. cbn [app]. now apply skipWs_pad.
    + exact Hc.
  - cbn [stringifyValue]. unfold quoteJSONString. cbn [app].
    rewrite (parseValue_string fuel _ (quoteUnits s ++ 34%N :: rest)).
    + now rewrite parseStringBody_quoteUnits.
    + rewrite <- app_assoc. cbn [app]. now apply skipWs_pad.
  - inversion Hwf as [| | | |? Hwfi|]; subst.
    destruct items as [|x xs].
    + rewrite (parseValue_array fuel _ (93%N :: rest)).
      * reflexivity.
      * cbn. now apply skipWs_pad.
    + rewrite stringifyValue_array in *. cbn [app].
      rewrite (parseValue_array fuel _
                 (newline (indent + 2) ++ stringifyValue (indent + 2) x
                    ++ itemsTail (indent + 2) xs ++ newline indent
                    ++ 93%N :: rest)).
      2:{ rewrite <- !app_assoc. cbn [app]. now apply skipWs_pad. }
      destruct (stringifyValue_head (indent + 2) x) as (c & t & Hx & Hws & H93).
      assert (Hskip : skipWs (newline (indent + 2) ++ stringifyValue (indent + 2) x
                        ++ itemsTail (indent + 2) xs ++ newline indent
                        ++ 93%N :: rest)
                      = c :: t ++ itemsTail (indent + 2) xs ++ newline indent
                        ++ 93%N :: rest).
      { rewrite Hx. cbn [app]. apply skipWs_pad; [apply newline_whiteSpace|assumption]. }
      rewrite Hskip. rewrite (proj2 (N.eqb_neq c 93) H93).
      change (c :: t ++ itemsTail (indent + 2) xs ++ newline indent
                ++ 93%N :: rest)
        with ([] ++ (c :: t) ++ itemsTail (indent + 2) xs ++ newline indent
                ++ 93%N :: rest).
      rewrite <- Hx.
      rewrite (parseItems_back (indent + 2) indent rest xs x [] fuel
                 IHitems Hwfi); [reflexivity|constructor|].
      cbn [length] in Hfuel. rewrite !length_app in Hfuel.
      cbn [length] in Hfuel. lia.
  - inversion Hwf as [| | | | |? Hnodup Hwfp]; subst.
    destruct props as [|[k x] ps].
    + rewrite (parseValue_object fuel _ (125%N :: rest)).
      * reflexivity.
      * cbn. now apply skipWs_pad.
    + rewrite stringifyValue_object in *. cbn [app].
      rewrite (parseValue_object fuel _
                 (newline (indent + 2) ++ quoteJSONString k ++ 58%N :: 32%N
                    :: stringifyValue (indent + 2) x
                    ++ membersTail (indent + 2) ps ++ newline indent
                    ++ 125%N :: rest)).
      2:{ rewrite <- !app_assoc. cbn [app]. rewrite <- !app_assoc.
          now apply skipWs_pad. }
      assert (Hskip : skipWs (newline (indent + 2) ++ quoteJSONString k
                        ++ 58%N :: 32%N :: stringifyValue (indent + 2) x
                        ++ membersTail (indent + 2) ps ++ newline indent
                        ++ 125%N :: rest)
                      = quoteJSONString k
                        ++ 58%N :: 32%N :: stringifyValue (indent + 2) x
                        ++ membersTail (indent + 2) ps ++ newline indent
                        ++ 125%N :: rest).
      { unfold quoteJSONString. cbn [app].
        apply skipWs_pad; [apply newline_whiteSpace|reflexivity]. }
      rewrite Hskip. unfold quoteJSONString at 1. cbn [app].
      change (34 =? 125)%N with false. cbn iota.
      change (34%N :: (quoteUnits k ++ [34%N]) ++ 58%N :: 32%N
                :: stringifyValue (indent + 2) x
                ++ membersTail (indent + 2) ps ++ newline indent
                ++ 125%N :: rest)
        with ([] ++ quoteJSONString k ++ 58%N :: 32%N
                :: stringifyValue (indent + 2) x
                ++ membersTail (indent + 2) ps ++ newline indent
                ++ 125%N :: rest).
      rewrite (parseMembers_back (indent + 2) indent rest ps k x [] fuel
                 IHprops Hwfp); [|constructor|].
      * now rewrite buildObject_NoDup.
      * cbn [length] in Hfuel. rewrite !length_app in Hfuel.
        cbn [length] in Hfuel. rewrite !length_app in Hfuel.
        cbn [length] in Hfuel. lia.
Qed.

(** [JSON.parse(JSON.stringify(v, null, 2))] is [v]. *)
Lemma parse_stringify (v : json) : WellFormed v -> parse (stringify v) = Some v.
Proof.
  intros Hwf. unfold parse, stringify.
  pose proof (parseValue_stringifyValue v 0%nat [] []
                (S (length (stringifyValue 0 v)))
                Hwf ltac:(constructor) I ltac:(lia)) as Hback.
  cbn [app] in Hback. rewrite app_nil_r in Hback. now rewrite Hback.
Qed.

End JsonFacts.

(** ** The JSON exporter and the round trip *)

Section JsonExporterFacts.
Import Json JsonExporter.

Lemma traverse_map {A B : Type} (f : B -> option A) (g : A -> B) (l : list A) :
  (forall a, In a l -> f (g a) = Some a) -> traverse f (map g l) = Some l.
Proof.
  induction l as [|a l IH]; intros Hfg; cbn; [reflexivity|].
  rewrite (Hfg a (or_introl eq_refl)), IH; [reflexivity|].
  intros a' Ha'. apply Hfg. now right.
Qed.

Lemma dayOfJson_dayToJson (d : CalendarDay) : dayOfJson (dayToJson d) = Some d.
Proof.
  destruct d as [[h|] [t|] [e|] [dv|] [dE|] [n|]]; vm_compute; reflexivity.
Qed.

Lemma WellFormed_dayToJson (d : CalendarDay) : WellFormed (dayToJson d).
Proof.
  destruct d as [[h|] [t|] [e|] [dv|] [dE|] [n|]]; constructor;
    try (apply NoDup_ListNoDup; apply (bool_decide_unpack _); vm_compute; exact I);
    cbn; repeat constructor.
Qed.

Lemma asDays_days (ds : list CalendarDay) :
  asDays (JArray (map dayToJson ds)) = Some ds.
Proof. cbn. apply traverse_map. intros d _. apply dayOfJson_dayToJson. Qed.

Lemma monthOfJson_monthToJson (m : CalendarMonth) :
  monthOfJson (monthToJson m) = Some m.
Proof.
  destruct m as [[n|] [ds|]]; unfold monthToJson, monthOfJson, readField, prop;
    cbn [month days app getProp];
    repeat (rewrite ?bool_decide_eq_true_2 by reflexivity;
            rewrite ?bool_decide_eq_false_2 by (vm_compute; discriminate));
    cbn [getProp asNumber]; rewrite ?asDays_days; reflexivity.
Qed.

Lemma WellFormed_monthToJson (m : CalendarMonth) : WellFormed (monthToJson m).
Proof.
  assert (Hdays : forall ds : list CalendarDay,
            WellFormed (JArray (map dayToJson ds))).
  { intros ds. constructor. apply List.Forall_forall. intros v Hv.
    apply in_map_iff in Hv. destruct Hv as (d & <- & _).
    apply WellFormed_dayToJson. }
  destruct m as [[n|] [ds|]]; constructor;
    try (apply NoDup_ListNoDup; apply (bool_decide_unpack _); vm_compute; exact I);
    cbn [prop month days app];
    repeat (apply List.Forall_cons; cbn [snd]);
    try apply List.Forall_nil; try apply wf_number; apply Hdays.
Qed.

Lemma yearOfJson_yearToJson (y : CalendarYear) : yearOfJson (yearToJson y) = Some y.
Proof. cbn. apply traverse_map. intros m _. apply monthOfJson_monthToJson. Qed.

Lemma WellFormed_yearToJson (y : CalendarYear) : WellFormed (yearToJson y).
Proof.
  constructor. apply List.Forall_forall. intros v Hv.
  apply in_map_iff in Hv. destruct Hv as (m & <- & _).
  apply WellFormed_monthToJson.
Qed.

Lemma dataOfJson_dataToJson (data : list (Z * CalendarYear)) :
  dataOfJson (dataToJson data) = Some data.
Proof.
  unfold dataToJson, dataOfJson. apply traverse_map. intros [year y] _.
  now rewrite parseInt10_showZ, yearOfJson_yearToJson.
Qed.

Lemma WellFormed_dataToJson (data : list (Z * CalendarYear)) :
  List.NoDup (map fst data) -> WellFormed (dataToJson data).
Proof.
  intros Hnodup. constructor.
  - rewrite map_map.
    replace (map (fun x => fst (let '(year, yearData) := x in
                                (showZ year, yearToJson yearData))) data)
      with (map showZ (map fst data)).
    + apply Injective_map_NoDup; [|assumption].
      intros a b. apply showZ_inj.
    + rewrite map_map. apply map_ext. now intros [year y].
  - apply List.Forall_forall. intros kv Hkv. apply in_map_iff in Hkv.
    destruct Hkv as ([year y] & <- & _). apply WellFormed_yearToJson.
Qed.

(** Reading what [stringify] wrote for a [CalendarData] gives the data
    back. *)
Lemma readCalendarData_stringify (data : list (Z * CalendarYear)) :
  List.NoDup (map fst data) ->
  readCalendarData (stringify (dataToJson data)) = Some data.
Proof.
  intros Hnodup. unfold readCalendarData.
  rewrite parse_stringify by now apply WellFormed_dataToJson.
  apply dataOfJson_dataToJson.
Qed.

Lemma simplifyData_keys (data simplified : list (Z * CalendarYear)) :
  simplifyData data = Some simplified -> map fst simplified = map fst data.
Proof.
  unfold simplifyData. revert simplified.
  induction data as [|[year y] data IH]; intros simplified; cbn.
  - now intros [= <-].
  - rewrite parseInt10_showZ.
    destruct (traverse simplifyMonth y) as [sy|]; [|discriminate].
    match goal with
    | |- context [traverse ?f data] =>
        destruct (traverse f data) as [sdata|] eqn:Hdata; [|discriminate]
    end.
    intros [= <-]. cbn. f_equal. now apply IH.
Qed.

(** C9.  A [CalendarData] whose keys are distinct years is written by
    the exporter (all fields included) as a document whose keys are the
    years as decimal text, and reading that document back, the keys
    through [parseInt], gives the same years, months and days in the
    same order.  The same holds for the simplified data that is written
    when not all fields are included. *)
Theorem calendar_data_round_trip (data : list (Z * CalendarYear))
    (outputPath : jsstring) :
  List.NoDup (map fst data) ->
  (exists text : jsstring,
      export data outputPath true = inr text
      /\ parse text =
           Some (JObject (map (fun '(year, yearData) =>
                                 (showZ year, yearToJson yearData)) data))
      /\ (forall year : Z, In year (map fst data) ->
            parseInt10 (showZ year) = Some year)
      /\ readCalendarData text = Some data)
  /\ (forall simplified : list (Z * CalendarYear),
        simplifyData data = Some simplified ->
        exists text : jsstring,
          export data outputPath false = inr text
          /\ readCalendarData text = Some simplified).
Proof.
  intros Hnodup. split.
  - exists (stringify (dataToJson data)). split; [reflexivity|].
    split; [|split].
    + apply parse_stringify. now apply WellFormed_dataToJson.
    + intros year _. apply parseInt10_showZ.
    + now apply readCalendarData_stringify.
  - intros simplified Hs. exists (stringify (dataToJson simplified)).
    unfold export. rewrite Hs. split; [reflexivity|].
    apply readCalendarData_stringify.
    now rewrite (simplifyData_keys _ _ Hs).
Qed.

Lemma calendar_data_round_trip_witness :
  List.NoDup (map fst Samples.sampleData)
  /\ exists text : jsstring,
       export Samples.sampleData (lit "./data/data.json") true = inr text
       /\ readCalendarData text = Some Samples.sampleData.
Proof.
  assert (Hnodup : List.NoDup (map fst Samples.sampleData)).
  { cbn. repeat constructor; cbn; intuition discriminate. }
  split; [exact Hnodup|].
  destruct (calendar_data_round_trip Samples.sampleData
              (lit "./data/data.json") Hnodup)
    as [(text & Hexport & _ & _ & Hread) _].
  exists text. split; assumption.
Defined.

(** Without all fields the exporter writes the simplified data: the
    placeholder tithi of the sample is gone from what is read back. *)
Example export_simplified_drops_placeholder :
  match export Samples.sampleData (lit "./data/data.json") false with
  | inr text =>
      option_map (map (fun '(year, months) =>
                         (year, map (fun m => option_map (map tithi) (days m))
                                  months)))
        (readCalendarData text)
      = Some [(2081, [Some (repeat None 30)]); (2082, [Some [None]])]
  | inl _ => False
  end.
Proof. vm_compute. reflexivity. Qed.

End JsonExporterFacts.

(* ================================================================== *)
(** * Part III: further properties of the code                         *)
(* ================================================================== *)

(** ** The rate limiter: bounds, growth and spacing *)

Section RateLimiterBounds.
Import RateLimiter.







End RateLimiterBounds.

Section RateLimiterSpacing.
Import RateLimiter.
Context {W : Type} {clock : Clock W}.

(** The clock does not run backwards between two readings, and a sleep
    of [ms] milliseconds lasts at least that long. *)
Hypothesis reading_monotone :
  forall w : W, fst (dateNow w) <= fst (dateNow (snd (dateNow w))).
Hypothesis sleep_lasts :
  forall (ms : Z) (w : W), 0 < ms -> fst (dateNow w) + ms <= fst (dateNow (sleep ms w)).


End RateLimiterSpacing.


(** X4.  A limiter that is new, or was just [reset()], has
    [lastRequestTime = 0] and no error recorded: as soon as the clock
    reads at least [minDelay], its next [waitForNextRequest()] does not
    sleep at all and only stamps the time. *)
Theorem first_wait_only_stamps {W : Type} {clock : Clock W}
    (cfg : RateLimiter.RateLimiterConfig) (w : W) :
  RateLimiter.minDelay cfg <= fst (dateNow w) ->
  forall s : RateLimiter.State,
    s = RateLimiter.initial \/ (exists s0, s = RateLimiter.reset s0) ->
    RateLimiter.waitForNextRequest cfg s w =
      ({| RateLimiter.lastRequestTime := fst (dateNow (snd (dateNow w)));
          RateLimiter.consecutiveErrors := 0 |},
       snd (dateNow (snd (dateNow w)))).
Proof.
  intros Hnow s Hs.
  assert (Hfresh : s = RateLimiter.initial)
    by (destruct Hs as [->|[s0 ->]]; reflexivity).
  subst s. apply (waitForNextRequest_unprimed cfg RateLimiter.initial w eq_refl).
  now rewrite backoffDelay_zero.
Qed.

Lemma first_wait_only_stamps_witness :
  @RateLimiter.waitForNextRequest Z Samples.wallClock
    RateLimiter.createDefaultRateLimiterConfig RateLimiter.initial 1000 =
    ({| RateLimiter.lastRequestTime := 1000; RateLimiter.consecutiveErrors := 0 |},
     1000).
Proof.
  apply (@first_wait_only_stamps Z Samples.wallClock
           RateLimiter.createDefaultRateLimiterConfig 1000).
  - cbn. lia.
  - now left.
Defined.

(** ** The validators: what they accept *)

Section ValidationAccepts.
Import Validation Accepts.

Lemma convertChar_range (c : N) : ~ (2406 <= convertChar c <= 2415)%N.
Proof.
  destruct (N.le_gt_cases 2406 c) as [Hlo|Hlo];
    [destruct (N.le_gt_cases c 2415) as [Hhi|Hhi]|].
  - rewrite convertChar_digit by lia. lia.
  - rewrite convertChar_other by lia. lia.
  - rewrite convertChar_other by lia. lia.
Qed.

(** X5.  [convertNepaliToEnglish] leaves no Devanagari digit in its
    result, keeps a text without Devanagari digits as it is, and is
    therefore idempotent. *)
Theorem convertNepaliToEnglish_idempotent (s : jsstring) :
  Forall (fun c => ~ (2406 <= c <= 2415)%N) (convertNepaliToEnglish s)
  /\ (Forall (fun c => ~ (2406 <= c <= 2415)%N) s ->
      convertNepaliToEnglish s = s)
  /\ convertNepaliToEnglish (convertNepaliToEnglish s)
       = convertNepaliToEnglish s.
Proof.
  assert (Hclean : forall t : list N,
            Forall (fun c => ~ (2406 <= c <= 2415)%N) (convertNepaliToEnglish t)).
  { intros t. unfold convertNepaliToEnglish. apply List.Forall_forall.
    intros c Hc. apply in_map_iff in Hc. destruct Hc as (c0 & <- & _).
    apply convertChar_range. }
  assert (Hkeep : forall t : list N,
            Forall (fun c => ~ (2406 <= c <= 2415)%N) t ->
            convertNepaliToEnglish t = t).
  { intros t Ht. unfold convertNepaliToEnglish.
    induction Ht as [|c t Hc Ht IH]; cbn [map]; [reflexivity|].
    rewrite IH, convertChar_other by lia. reflexivity. }
  split; [apply Hclean|]. split; [apply Hkeep|]. apply Hkeep, Hclean.
Qed.

(** The day validator has no error exactly for the days [dayAccepted]
    describes, whatever the index it is given. *)
Lemma validateCalendarDay_accepts (d : CalendarDay) (dayIndex : Z) :
  isValid (validateCalendarDay d dayIndex) = dayAccepted d.
Proof.
  unfold validateCalendarDay, dayAccepted, dayNumberInRange. cbn [isValid].
  destruct d as [h t e dv dE n]. cbn [day dayInEn en isHoliday].
  destruct dv as [[|c1 dv]|], dE as [[|c2 dE]|], n as [[|c3 n]|], h as [h|];
    cbn [truthyStr negb andb pushIf app];
    try (destruct (parseInt10 (c2 :: dE)) as [k|];
         [destruct (Z.ltb_spec k 1), (Z.gtb_spec k 32), (Z.leb_spec 1 k),
            (Z.leb_spec k 32); try lia|]);
    cbn [orb negb andb pushIf app length Nat.eqb]; reflexivity.
Qed.

Lemma collectIndexed_nil_iff {A B : Type} (g : A -> nat -> list B)
    (xs : list A) (k : nat) :
  collectIndexed g xs k = [] <->
  forall (i : nat) (x : A), xs !! i = Some x -> g x (k + i)%nat = [].
Proof.
  split; [|apply collectIndexed_nil].
  intros Hnil i x Hx. destruct (g x (k + i)%nat) as [|y l] eqn:Hg; [reflexivity|].
  assert (Hin : In y (collectIndexed g xs k)).
  { apply In_collectIndexed. exists i, x. rewrite Hg. split; [assumption|now left]. }
  rewrite Hnil in Hin. destruct Hin.
Qed.

Lemma pushIf_nil (c : bool) (msg : jsstring) : pushIf c msg [] = [] <-> c = false.
Proof. destruct c; cbn; split; congruence. Qed.

Lemma map_eq_nil_iff {A B : Type} (f : A -> B) (l : list A) :
  map f l = [] <-> l = [].
Proof. destruct l; cbn; split; congruence. Qed.

Lemma validateCalendarMonth_errors (m : CalendarMonth) (monthIndex : Z)
    (ds : list CalendarDay) :
  days m = Some ds ->
  errors (validateCalendarMonth m monthIndex) =
    pushIf (negb (monthNumberAccepted (month m)))
      (monthLabel monthIndex ++ lit ": Invalid month number '"
         ++ showOpt showZ (month m) ++ lit "'") []
    ++ collectIndexed (fun d i =>
         map (fun err => monthLabel monthIndex ++ lit ", " ++ err)
           (errors (validateCalendarDay d (Z.of_nat i)))) ds 0.
Proof.
  intros Hds. unfold validateCalendarMonth. rewrite Hds. cbv zeta.
  rewrite (forEachIndexed_append2
    (fun d i => map (fun err => monthLabel monthIndex ++ lit ", " ++ err)
                  (errors (validateCalendarDay d (Z.of_nat i))))
    (fun d i => map (fun warn => monthLabel monthIndex ++ lit ", " ++ warn)
                  (warnings (validateCalendarDay d (Z.of_nat i))))).
  cbn [errors]. f_equal. f_equal.
  unfold monthNumberAccepted. destruct (month m) as [n|]; [|reflexivity].
  destruct (Z.eqb_spec n 0), (Z.ltb_spec n 1), (Z.gtb_spec n 12),
    (Z.leb_spec 1 n), (Z.leb_spec n 12); try reflexivity; lia.
Qed.

Lemma isValid_month_accepted (m : CalendarMonth) (monthIndex : Z) :
  isValid (validateCalendarMonth m monthIndex) = monthAccepted m.
Proof.
  unfold monthAccepted. destruct (days m) as [ds|] eqn:Hds.
  2:{ unfold validateCalendarMonth. rewrite Hds. cbn [isValid].
      now rewrite andb_false_r. }
  apply eq_true_iff_eq. rewrite validateCalendarMonth_isValid.
  rewrite (validateCalendarMonth_errors m monthIndex ds Hds).
  rewrite andb_true_iff, forallb_forall.
  split.
  - intros Hnil. apply app_eq_nil in Hnil. destruct Hnil as [Hnum Hdays].
    apply pushIf_nil, negb_false_iff in Hnum. split; [exact Hnum|].
    intros d Hd. apply list_elem_of_In, list_elem_of_lookup in Hd.
    destruct Hd as [i Hi].
    rewrite collectIndexed_nil_iff in Hdays. specialize (Hdays i d Hi).
    apply map_eq_nil_iff in Hdays.
    rewrite <- (validateCalendarDay_accepts d (Z.of_nat (0 + i))).
    now apply validateCalendarDay_isValid.
  - intros [Hnum Hdays]. rewrite Hnum. cbn [negb pushIf app].
    apply collectIndexed_nil. intros i d Hi. apply map_eq_nil_iff.
    apply validateCalendarDay_isValid. rewrite validateCalendarDay_accepts.
    apply Hdays. apply list_elem_of_In, list_elem_of_lookup. now exists i.
Qed.



Lemma positioned_spec (ms : list CalendarMonth) :
  positioned ms = true <->
  length ms = 12%nat
  /\ forall (i : nat) (m : CalendarMonth),
       ms !! i = Some m -> month m = Some (Z.of_nat i + 1).
Proof.
  unfold positioned. rewrite bool_decide_eq_true. split.
  - intros Heq. split.
    + apply (f_equal (@length _)) in Heq. now rewrite !length_map in Heq.
    + intros i m Hm. apply (f_equal (fun l => l !! i)) in Heq.
      rewrite !lookup_map, Hm in Heq.
      destruct (seq 1 12 !! i) as [j|] eqn:Hj; [|discriminate Heq].
      apply lookup_seq in Hj. destruct Hj as [-> _].
      cbn [fmap option_fmap option_map] in Heq.
      injection Heq as ->. f_equal. lia.
  - intros [Hlen Hpos]. apply list_eq. intros i. rewrite !lookup_map.
    destruct (ms !! i) as [m|] eqn:Hm.
    + rewrite lookup_seq_lt
        by (apply lookup_lt_Some in Hm; lia).
      cbn. rewrite (Hpos i m Hm). do 2 f_equal. lia.
    + rewrite lookup_seq_ge by (apply lookup_ge_None in Hm; lia).
      reflexivity.
Qed.

Lemma isValid_year_accepted (y : option CalendarYear) (yearNumber : Z) :
  isValid (validateCalendarYear y yearNumber) =
    match y with
    | Some ms => yearAccepted ms
    | None => false
    end.
Proof.
  destruct y as [ms|]; [|reflexivity].
  apply eq_true_iff_eq. rewrite validateCalendarYear_isValid.
  destruct (validateCalendarYear_lists ms yearNumber) as [Herr _].
  cbv zeta in Herr. unfold CalendarYear in *. rewrite Herr. clear Herr.
  unfold yearAccepted.
  rewrite andb_true_iff, positioned_spec, forallb_forall. split.
  - intros Hnil. apply app_eq_nil in Hnil. destruct Hnil as [Hlen Hnil].
    apply app_eq_nil in Hnil. destruct Hnil as [Hmonths Hpos].
    apply pushIf_nil, negb_false_iff, Nat.eqb_eq in Hlen.
    rewrite collectIndexed_nil_iff in Hmonths, Hpos.
    split; [split; [exact Hlen|]|].
    + intros i m Hm. specialize (Hpos i m Hm). cbn [Nat.add] in Hpos.
      destruct (bool_decide (month m = Some (Z.of_nat i + 1))) eqn:Hdec;
        [|discriminate].
      now apply bool_decide_eq_true in Hdec.
    + intros m Hm. apply list_elem_of_In, list_elem_of_lookup in Hm.
      destruct Hm as [i Hi]. specialize (Hmonths i m Hi).
      apply map_eq_nil_iff in Hmonths.
      rewrite <- (isValid_month_accepted m (Z.of_nat (0 + i))).
      now apply validateCalendarMonth_isValid.
  - intros [[Hlen Hpos] Hmonths]. rewrite Hlen. cbn [Nat.eqb negb pushIf app].
    rewrite collectIndexed_nil; [apply collectIndexed_nil|].
    + intros i m Hm. cbn [Nat.add].
      now rewrite bool_decide_eq_true_2 by (now apply Hpos).
    + intros i m Hm. apply map_eq_nil_iff.
      apply validateCalendarMonth_isValid.
      rewrite isValid_month_accepted. apply Hmonths.
      apply list_elem_of_In, list_elem_of_lookup. now exists i.
Qed.

(** X7.  The year validator returns [isValid = true] exactly for an
    array of twelve months in which the month at each index [i] carries
    the number [i + 1] and is accepted by the month validator; the year
    number it is called with plays no part, and a value that is not an
    array is invalid. *)
Theorem validateCalendarYear_accepts (yearNumber : Z) :
  (forall ms : list CalendarMonth,
     isValid (validateCalendarYear (Some ms) yearNumber) = true
     <-> length ms = 12%nat
         /\ forall (i : nat) (m : CalendarMonth), ms !! i = Some m ->
              month m = Some (Z.of_nat i + 1) /\ monthAccepted m = true)
  /\ isValid (validateCalendarYear None yearNumber) = false.
Proof.
  split; [|reflexivity]. intros ms.
  rewrite (isValid_year_accepted (Some ms) yearNumber). unfold yearAccepted.
  rewrite andb_true_iff, positioned_spec, forallb_forall. split.
  - intros [[Hlen Hpos] Hall]. split; [exact Hlen|].
    intros i m Hm. split; [now apply Hpos|].
    apply Hall, list_elem_of_In, list_elem_of_lookup. now exists i.
  - intros [Hlen Hall]. split; [split; [exact Hlen|]|].
    + intros i m Hm. now apply Hall.
    + intros m Hm. apply list_elem_of_In, list_elem_of_lookup in Hm.
      destruct Hm as [i Hi]. now apply (Hall i m).
Qed.

Lemma validateCalendarYear_errors_accepts (ms : CalendarYear) (yearNumber : Z) :
  errors (validateCalendarYear (Some ms) yearNumber) = []
  <-> yearAccepted ms = true.
Proof.
  rewrite <- validateCalendarYear_isValid.
  now rewrite (isValid_year_accepted (Some ms) yearNumber).
Qed.

(** The errors the dataset validator has collected after some entries
    are empty exactly when they were empty before and every entry is
    accepted. *)
Lemma validateScrapedData_fold
    (entries : list (list N * option CalendarYear)) :
  forall es ws : list (list N),
  fst (fold_left (fun '(errors, warnings) '(yearStr, yearData) =>
          match parseInt10 yearStr with
          | None =>
              (errors ++ [lit "Invalid year key: '" ++ yearStr ++ lit "'"], warnings)
          | Some yearNumber =>
              match yearData with
              | None =>
                  (errors ++ [yearLabel yearNumber ++ lit ": Data must be an array"],
                   warnings)
              | Some _ =>
                  let yearValidation := validateCalendarYear yearData yearNumber in
                  (errors ++ Types.errors yearValidation,
                   warnings ++ Types.warnings yearValidation)
              end
          end) entries (es, ws)) = []
  <-> es = [] /\ forallb entryAccepted entries = true.
Proof.
  induction entries as [|[yearStr yearData] entries IH]; intros es ws.
  - cbn. intuition.
  - cbn [fold_left forallb]. unfold entryAccepted at 1. cbn [fst snd].
    destruct (parseInt10 yearStr) as [yearNumber|].
    + destruct yearData as [ms|].
      * cbv zeta. rewrite IH, andb_true_iff.
        rewrite <- (validateCalendarYear_errors_accepts ms yearNumber).
        split.
        -- intros [Hnil Hrest]. apply app_eq_nil in Hnil. tauto.
        -- intros [-> [-> Hrest]]. auto.
      * rewrite IH. split; [intros [Hnil _]|intros [_ [=]]].
        now apply snoc_not_nil in Hnil.
    + rewrite IH. split; [intros [Hnil _]|intros [_ [=]]].
      now apply snoc_not_nil in Hnil.
Qed.

Lemma forallb_Permutation {A : Type} (f : A -> bool) (l l' : list A) :
  Permutation l l' -> forallb f l = forallb f l'.
Proof.
  intros Hperm. apply eq_true_iff_eq. rewrite !forallb_forall.
  split; intros Hall x Hx; apply Hall.
  - now apply (Permutation_in x (Permutation_sym Hperm)).
  - now apply (Permutation_in x Hperm).
Qed.

Lemma validateScrapedData_isValid_accepts
    (entries : list (list N * option CalendarYear)) :
  isValid (validateScrapedData (Some entries)) = forallb entryAccepted entries.
Proof.
  apply eq_true_iff_eq. rewrite validateScrapedData_isValid.
  unfold validateScrapedData.
  pose proof (validateScrapedData_fold entries [] []) as Hfold.
  destruct (fold_left _ entries ([], [])) as [es ws].
  cbn [errors fst] in *. rewrite Hfold. tauto.
Qed.

(** X8.  The dataset validator returns [isValid = true] exactly when its
    argument is an object each of whose keys reads as a number and each
    of whose values is a year the year validator accepts; the order in
    which the object enumerates its entries does not matter. *)
Theorem validateScrapedData_accepts :
  (forall data : option (list (jsstring * option CalendarYear)),
     isValid (validateScrapedData data) =
       match data with
       | Some entries => forallb entryAccepted entries
       | None => false
       end)
  /\ (forall entries entries' : list (jsstring * option CalendarYear),
        Permutation entries entries' ->
        isValid (validateScrapedData (Some entries)) =
          isValid (validateScrapedData (Some entries'))).
Proof.
  split.
  - intros [entries|]; [apply validateScrapedData_isValid_accepts|reflexivity].
  - intros entries entries' Hperm.
    rewrite !validateScrapedData_isValid_accepts.
    now apply forallb_Permutation.
Qed.

End ValidationAccepts.

(** ** The extraction callback *)

Section PageExtractionFacts.
Import Validation Accepts PageExtraction.

Lemma filter_filter_same {A : Type} (f : A -> bool) (l : list A) :
  List.filter f (List.filter f l) = List.filter f l.
Proof.
  induction l as [|a l IH]; cbn; [reflexivity|].
  destruct (f a) eqn:Hfa; cbn; [rewrite Hfa, IH|]; auto.
Qed.

Lemma trimmedTextOr_cases (fallback : jsstring) (element : option jsstring) :
  trimmedTextOr fallback element = fallback
  \/ trimmedTextOr fallback element <> [].
Proof.
  unfold trimmedTextOr. destruct element as [text|]; [|now left].
  destruct (JsonExporter.trim text); [now left|right; discriminate].
Qed.

(** X9.  The days [page.evaluate] returns: one per cell that does not
    carry the class [disable], in document order.  Each has a boolean
    [isHoliday], the three texts [day], [dayInEn] and [en], and
    [dayInEn] is the conversion of [day]; [tithi] is never the empty
    text and [event] never the empty text nor the placeholder [--];
    the only warning the day validator can have for such a day is the
    one about the English date. *)
Theorem extractDays_shape (items : list DayElement) :
  extractDays items
    = map extractDay (List.filter (fun element => negb (classDisable element)) items)
  /\ forall d : CalendarDay, In d (extractDays items) ->
       (exists h : bool, isHoliday d = Some h)
       /\ (exists n : jsstring,
             day d = Some n /\ dayInEn d = Some (convertNepaliToEnglish n))
       /\ (exists e : jsstring,
             en d = Some e
             /\ forall (i : Z) (w : jsstring),
                  In w (warnings (validateCalendarDay d i)) ->
                  w = dayLabel i ++ lit ": English date '" ++ e
                        ++ lit "' should be a number")
       /\ tithi d <> Some []
       /\ event d <> Some []
       /\ event d <> Some (lit "--").
Proof.
  assert (Heq : extractDays items
    = map extractDay (List.filter (fun element => negb (classDisable element)) items)).
  { unfold extractDays. now rewrite filter_filter_same. }
  split; [exact Heq|]. intros d Hd. rewrite Heq in Hd.
  apply in_map_iff in Hd. destruct Hd as (element & <- & _).
  unfold extractDay. cbn [isHoliday day dayInEn en tithi event].
  split; [eauto|]. split; [eauto|]. split; [|split; [|split]].
  - eexists. split; [reflexivity|]. intros i w.
    unfold validateCalendarDay. cbn [warnings day dayInEn en].
    set (n := trimmedTextOr [] (nepaliDayElement element)).
    assert (Hmatch : (if truthyStr (Some n)
                         && truthyStr (Some (convertNepaliToEnglish n))
                      then pushIf (negb (bool_decide
                                     (convertNepaliToEnglish n
                                      = convertNepaliToEnglish n)))
                             (mismatchWarning i n (convertNepaliToEnglish n)) []
                      else []) = []).
    { rewrite bool_decide_eq_true_2 by reflexivity. cbn [negb pushIf].
      now destruct (_ && _). }
    rewrite Hmatch. rewrite In_pushIf. cbn [In]. intros [[]|[_ ->]].
    reflexivity.
  - destruct (trimmedTextOr [] (tithiElement element)) as [|c t]; discriminate.
  - destruct (bool_decide _) eqn:Hdec; [discriminate|].
    destruct (trimmedTextOr_cases (lit "--") (eventElement element)) as [Hfb|Hne].
    + rewrite Hfb in Hdec. now rewrite bool_decide_eq_true_2 in Hdec.
    + congruence.
  - destruct (bool_decide _) eqn:Hdec; [discriminate|].
    apply bool_decide_eq_false in Hdec. congruence.
Qed.

Lemma extractDays_shape_witness :
  extractDays [MoreSamples.disabledElement; MoreSamples.holidayElement]
    = [ {| isHoliday := Some true; tithi := None; event := None;
           day := Some [2407; 2411]%N; dayInEn := Some (lit "15");
           en := Some (lit "28") |} ]
  /\ event (PageExtraction.extractDay MoreSamples.holidayElement)
       <> Some (lit "--").
Proof.
  split; [reflexivity|].
  apply (proj2 (extractDays_shape
                  [MoreSamples.disabledElement; MoreSamples.holidayElement])).
  vm_compute. left. reflexivity.
Defined.

Lemma dayAccepted_extractDay (element : DayElement) :
  dayAccepted (extractDay element) = true
  <-> trimmedTextOr [] (englishDayElement element) <> []
      /\ dayNumberInRange
           (convertNepaliToEnglish
              (trimmedTextOr [] (nepaliDayElement element))) = true.
Proof.
  unfold dayAccepted, extractDay. cbn [isHoliday day dayInEn en].
  set (nep := trimmedTextOr [] (nepaliDayElement element)).
  set (eng := trimmedTextOr [] (englishDayElement element)).
  rewrite andb_true_r, !andb_true_iff. split.
  - intros [[[_ _] Heng] Hrange]. split; [|exact Hrange].
    destruct eng; [discriminate|discriminate].
  - intros [Heng Hrange].
    assert (Hnep : nep <> []).
    { intros Hnil. rewrite Hnil in Hrange. discriminate Hrange. }
    repeat split; try exact Hrange; apply truthyStr_Some; try assumption.
    unfold convertNepaliToEnglish. destruct nep; [contradiction|discriminate].
Qed.

(** X24.  Which pages [scrapeMonth] takes.  The month it builds from
    the extracted days passes its validation exactly when the month
    number is from 1 to 12 and every cell that is not disabled has a
    non-blank [span.eng] and a [span.nep] whose text, once trimmed and
    converted, reads as a number from 1 to 32.  A page without such
    cells is taken, as a month without days. *)
Theorem extracted_month_accepted (items : list DayElement) (m monthIndex : Z) :
  isValid (validateCalendarMonth
             {| month := Some m; days := Some (extractDays items) |} monthIndex)
    = true
  <-> 1 <= m <= 12
      /\ forall element : DayElement,
           In element items -> classDisable element = false ->
           trimmedTextOr [] (englishDayElement element) <> []
           /\ dayNumberInRange
                (convertNepaliToEnglish
                   (trimmedTextOr [] (nepaliDayElement element))) = true.
Proof.
  rewrite isValid_month_accepted. unfold monthAccepted, monthNumberAccepted.
  cbn [month days]. rewrite !andb_true_iff, Z.leb_le, Z.leb_le, forallb_forall.
  unfold extractDays. rewrite filter_filter_same.
  split; intros [Hm Hall]; (split; [exact Hm|]).
  - intros element Hin Hdisable. apply dayAccepted_extractDay. apply Hall.
    apply in_map, filter_In. split; [exact Hin|]. now rewrite Hdisable.
  - intros d Hd. apply in_map_iff in Hd. destruct Hd as (element & <- & Hin).
    apply filter_In in Hin. destruct Hin as [Hin Hdisable].
    apply dayAccepted_extractDay. apply Hall; [exact Hin|].
    now apply negb_true_iff in Hdisable.
Qed.

End PageExtractionFacts.

(** ** The scrape loop: what a run leaves behind *)

Section ScrapeOutcome.
Import Scraper RunShape Accepts.
Context {W : Type} {clock : Clock W} {puppeteer : Puppeteer W}.

Implicit Types (this : Scraper) (s : Machine W) (e : Thrown).

Lemma scrapeMonth_accepted this (year month : Z) s (md : CalendarMonth) s' :
  scrapeMonth this year month s = (inr md, s') -> monthAccepted md = true.
Proof.
  destruct (page this) as [p|] eqn:Hp.
  - rewrite (scrapeMonth_unfold this p) by assumption. cbv zeta.
    destruct (goto p _ _ (world s)) as [[e1|[]] w1]; [discriminate|].
    destruct (evaluateDays p w1) as [[e2|ds] w2]; [discriminate|].
    destruct (isValid _) eqn:Hvalid; [|discriminate]. intros [= <- _].
    now rewrite isValid_month_accepted in Hvalid.
  - unfold scrapeMonth. rewrite Hp. discriminate.
Qed.

Lemma limiter_afterProgress (cb : bool) (p : ScrapingProgress) s :
  limiter (afterProgress cb p s) = limiter s
  /\ world (afterProgress cb p s) = world s.
Proof. unfold afterProgress. now destruct cb. Qed.

Lemma limiter_after_success s :
  RateLimiter.consecutiveErrors
    (limiter (snd (waitForNextRequest (snd (recordSuccess s))))) = 0.
Proof.
  unfold waitForNextRequest, recordSuccess, bind, emit, onLimiter.
  cbn [snd world limiter events]. unfold RateLimiter.waitForNextRequest.
  destruct (dateNow (world s)) as [now w1].
  match goal with
  | |- context [dateNow ?w] => destruct (dateNow w) as [now' w2]
  end.
  reflexivity.
Qed.

(** How the inner loop leaves the rate limiter and what it appends. *)
Lemma monthLoop_outcome this (p : Handle) (cb : bool) (year yearIndex : Z) :
  page this = Some p ->
  forall (ms : list Z) (monthIndex : Z) (data : gmap Z (list CalendarMonth)) s,
  let '(r, s') := monthLoop this cb year yearIndex ms monthIndex data s in
  match r with
  | inr data' =>
      (exists res : list CalendarMonth,
         data' = alter (fun a => a ++ res) year data
         /\ map Types.month res = map Some ms
         /\ forallb monthAccepted res = true)
      /\ (ms = [] -> s' = s)
      /\ (ms <> [] -> RateLimiter.consecutiveErrors (limiter s') = 0)
  | inl e =>
      RateLimiter.consecutiveErrors (limiter s') = 1
      \/ RateLimiter.consecutiveErrors (limiter s')
         = RateLimiter.consecutiveErrors (limiter s) + 1
  end.
Proof.
  intros Hp. induction ms as [|month ms IH]; intros monthIndex data s.
  - cbn. split; [|split; [reflexivity|congruence]].
    exists []. split; [|split; reflexivity].
    symmetry. apply alter_id. intros x _. apply app_nil_r.
  - set (u := progressAt this year yearIndex month monthIndex).
    destruct (scrapeMonth this year month (afterProgress cb u s))
      as [[e|md] s1] eqn:Hm.
    + rewrite (monthLoop_unit_fails _ _ _ _ _ _ _ _ _ _ _ Hm).
      right. destruct (recordError_effects s1) as (_ & -> & _).
      destruct (scrapeMonth_effects _ _ _ _ _ _ _ Hp Hm) as (_ & ->).
      destruct (limiter_afterProgress cb u s) as [-> _]. reflexivity.
    + rewrite (monthLoop_unit_succeeds _ _ _ _ _ _ _ _ _ _ _ Hm).
      specialize (IH (monthIndex + 1) (alter (fun a => a ++ [md]) year data)
                    (snd (waitForNextRequest (snd (recordSuccess s1))))).
      destruct (monthLoop this cb year yearIndex ms (monthIndex + 1) _ _)
        as [[e|data'] s'].
      * left. rewrite limiter_after_success in IH. lia.
      * destruct IH as ((res & Hdata & Hres & Hacc) & Hnil & Hcons).
        split; [|split; [discriminate|]].
        -- exists (md :: res). split; [|split].
           ++ rewrite Hdata, alter_alter_eq. apply alter_ext.
              intros x _. cbn. now rewrite <- app_assoc.
           ++ cbn [map]. rewrite Hres.
              now rewrite (scrapeMonth_month _ _ _ _ _ _ Hm).
           ++ cbn [forallb]. rewrite Hacc.
              now rewrite (scrapeMonth_accepted _ _ _ _ _ _ Hm).
        -- intros _. destruct ms as [|m' ms'].
           ++ rewrite (Hnil eq_refl). apply limiter_after_success.
           ++ now apply Hcons.
Qed.

Lemma yearLoop_outcome this (p : Handle) (cb : bool) :
  page this = Some p ->
  forall (ys : list Z) (yearIndex : Z) (data : gmap Z (list CalendarMonth)) s,
  let '(r, s') := yearLoop this cb ys yearIndex data s in
  match r with
  | inr data' =>
      (forall y : Z, In y ys ->
         exists l : list CalendarMonth,
           data' !! y = Some l
           /\ map Types.month l = map Some (months (config this))
           /\ forallb monthAccepted l = true)
      /\ (forall y : Z, ~ In y ys -> data' !! y = data !! y)
      /\ (months (config this) = [] -> world s' = world s /\ limiter s' = limiter s
                                       /\ events s' = events s)
      /\ (ys <> [] -> months (config this) <> [] ->
          RateLimiter.consecutiveErrors (limiter s') = 0)
  | inl e =>
      RateLimiter.consecutiveErrors (limiter s') = 1
      \/ RateLimiter.consecutiveErrors (limiter s')
         = RateLimiter.consecutiveErrors (limiter s) + 1
  end.
Proof.
  intros Hp. induction ys as [|year ys IH]; intros yearIndex data s.
  - cbn. split; [intros y []|]. split; [reflexivity|]. split; [auto|congruence].
  - cbn [yearLoop]. unfold bind.
    pose proof (monthLoop_outcome this p cb year yearIndex Hp
                  (months (config this)) 0 (<[year:=[]]> data) s) as Hmonths.
    destruct (monthLoop this cb year yearIndex (months (config this)) 0
                (<[year:=[]]> data) s) as [[e|data1] s1]; [exact Hmonths|].
    destruct Hmonths as ((res & Hdata1 & Hres & Hacc) & Hnil & Hcons).
    specialize (IH (yearIndex + 1) data1 s1).
    destruct (yearLoop this cb ys (yearIndex + 1) data1 s1) as [[e|data'] s']
      eqn:Hloop.
    + destruct (months (config this)) as [|m0 ms0] eqn:Hmonths.
      * rewrite (Hnil eq_refl) in IH. exact IH.
      * left. rewrite Hcons in IH by discriminate. lia.
    + destruct IH as (Hin & Hout & Hsame & Hzero).
      assert (Hyear : data1 !! year = Some res).
      { rewrite Hdata1, lookup_alter_eq, lookup_insert_eq. reflexivity. }
      split; [|split; [|split]].
      * intros y Hy. destruct (in_dec Z.eq_dec y ys) as [Hys|Hys].
        -- now apply Hin.
        -- destruct Hy as [<-|Hy]; [|contradiction].
           exists res. rewrite (Hout year Hys). auto.
      * intros y Hy. rewrite Hout by (intros Hys; apply Hy; now right).
        rewrite Hdata1, lookup_alter_ne, lookup_insert_ne;
          [reflexivity| |]; intros ->; apply Hy; now left.
      * intros Hempty. rewrite <- (Hnil Hempty). now apply Hsame.
      * intros _ Hne. destruct ys as [|y' ys'].
        -- cbn in Hloop. unfold ret in Hloop. injection Hloop as _ <-.
           now apply Hcons.
        -- apply Hzero; [discriminate|assumption].
Qed.

(** What [scrape()] leaves behind, from the two loops. *)
Lemma scrape_outcome this (p : Handle) (cb : bool) s :
  page this = Some p ->
  let '(r, s') := scrape this cb s in
  match r with
  | inr data =>
      (forall y : Z, In y (years (config this)) ->
         exists l : list CalendarMonth,
           data !! y = Some l
           /\ map Types.month l = map Some (months (config this))
           /\ forallb monthAccepted l = true)
      /\ (forall y : Z, ~ In y (years (config this)) -> data !! y = None)
      /\ (years (config this) = [] \/ months (config this) = [] -> s' = s)
      /\ (years (config this) <> [] -> months (config this) <> [] ->
          RateLimiter.consecutiveErrors (limiter s') = 0)
  | inl e =>
      RateLimiter.consecutiveErrors (limiter s') = 1
      \/ RateLimiter.consecutiveErrors (limiter s')
         = RateLimiter.consecutiveErrors (limiter s) + 1
  end.
Proof.
  intros Hp. unfold scrape. rewrite Hp.
  pose proof (yearLoop_outcome this p cb Hp (years (config this)) 0 ∅ s) as Hrun.
  destruct (yearLoop this cb (years (config this)) 0 ∅ s) as [[e|data] s']
    eqn:Hloop; [exact Hrun|].
  destruct Hrun as (Hin & Hout & Hsame & Hzero).
  split; [exact Hin|]. split; [|split; [|exact Hzero]].
  - intros y Hy. now rewrite (Hout y Hy).
  - intros [Hyears|Hmonths].
    + rewrite Hyears in Hloop. cbn in Hloop. unfold ret in Hloop. congruence.
    + destruct (Hsame Hmonths) as (Hw & Hl & He).
      destruct s, s'. cbn in *. congruence.
Qed.


(** X11.  A configuration without years or without months: [scrape()]
    resolves at once, leaving the machine as it was (nothing is fetched,
    reported, recorded or waited for), and the dataset has one empty
    array for each configured year and no other key. *)
Theorem scrape_without_units this (p : Handle) (cb : bool) s :
  page this = Some p ->
  years (config this) = [] \/ months (config this) = [] ->
  exists data : gmap Z (list CalendarMonth),
    scrape this cb s = (inr data, s)
    /\ (forall y : Z, In y (years (config this)) -> data !! y = Some [])
    /\ (forall y : Z, ~ In y (years (config this)) -> data !! y = None).
Proof.
  intros Hp Hempty.
  pose proof (scrape_outcome this p cb s Hp) as Hout.
  pose proof (scrape_run this p cb s Hp) as Hrun.
  destruct (scrape this cb s) as [[e|data] s'].
  - exfalso. destruct Hrun as (finished & u & rest & mid & mid' & Hu & _).
    apply (f_equal (@length _)) in Hu. unfold unitsOf in Hu.
    rewrite yearUnits_length, length_app in Hu. cbn [length] in Hu.
    destruct Hempty as [He|He]; rewrite He in Hu; cbn [length] in Hu; lia.
  - destruct Hout as (Hin & Hout & Hsame & _). exists data.
    rewrite (Hsame Hempty). split; [reflexivity|]. split; [|exact Hout].
    intros y Hy. destruct (Hin y Hy) as (l & Hl & Hmonths & _).
    destruct Hempty as [Hyears|Hnomonths].
    + rewrite Hyears in Hy. destruct Hy.
    + rewrite Hnomonths in Hmonths. destruct l; [exact Hl|discriminate].
Qed.



End ScrapeOutcome.

(** ** The progress bar of the command line *)

Section ProgressBar.
Import Scraper RunShape.
Context {W : Type} {clock : Clock W} {puppeteer : Puppeteer W}.

Implicit Types (this : Scraper) (s : Machine W).

Lemma monthUnits_completed (cfg : ScraperConfig) (year yearIndex : Z)
    (ms : list Z) (monthIndex : Z) (j : nat) (u : ScrapingProgress) :
  monthUnits cfg year yearIndex ms monthIndex !! j = Some u ->
  completedYears u = yearIndex /\ completedMonths u = monthIndex + Z.of_nat j.
Proof.
  revert monthIndex j. induction ms as [|m ms IH]; intros monthIndex j Hj.
  - destruct j; discriminate.
  - destruct j as [|j]; cbn in Hj.
    + injection Hj as <-. cbn. split; [reflexivity|lia].
    + destruct (IH _ _ Hj) as [-> ->]. split; [reflexivity|lia].
Qed.

Lemma yearUnits_completed (cfg : ScraperConfig) (ys : list Z) (yearIndex : Z)
    (k : nat) (u : ScrapingProgress) :
  yearUnits cfg ys yearIndex !! k = Some u ->
  Cli.completed u cfg
    = yearIndex * Z.of_nat (length (months cfg)) + Z.of_nat k.
Proof.
  revert yearIndex k. induction ys as [|y ys IH]; intros yearIndex k Hk.
  - destruct k; discriminate.
  - cbn [yearUnits] in Hk. apply lookup_app_Some in Hk.
    rewrite monthUnits_length in Hk. destruct Hk as [Hk|[Hge Hk]].
    + destruct (monthUnits_completed _ _ _ _ _ _ _ Hk) as [Hy Hm].
      unfold Cli.completed. rewrite Hy, Hm. lia.
    + rewrite (IH _ _ Hk). lia.
Qed.

Lemma progressOf_app (tr1 tr2 : list Event) :
  progressOf (tr1 ++ tr2) = progressOf tr1 ++ progressOf tr2.
Proof. unfold progressOf. apply omap_app. Qed.

(** X13.  The progress bar during a run of the [scrape] command: the
    k-th call of the callback (counting from 0) sets the bar to [k];
    this value is always below the total [years * months] the bar was
    started with, and a run that resolves makes exactly that many calls,
    so the bar ends one short of its total. *)
Theorem progress_bar_values this (p : Handle) s
    (r : Thrown + gmap Z (list CalendarMonth)) s' :
  page this = Some p ->
  scrape this true s = (r, s') ->
  exists tr : list Event,
    events s' = events s ++ tr
    /\ (forall (k : nat) (u : ScrapingProgress),
          progressOf tr !! k = Some u ->
          Cli.completed u (config this) = Z.of_nat k
          /\ Cli.completed u (config this) < Cli.totalOperations (config this))
    /\ (forall data : gmap Z (list CalendarMonth), r = inr data ->
          Z.of_nat (length (progressOf tr)) = Cli.totalOperations (config this)).
Proof.
  intros Hp Hrun. pose proof (scrape_run this p true s Hp) as Hshape.
  rewrite Hrun in Hshape.
  assert (Hunits : forall (k : nat) (u : ScrapingProgress),
            unitsOf (config this) !! k = Some u ->
            Cli.completed u (config this) = Z.of_nat k
            /\ Cli.completed u (config this) < Cli.totalOperations (config this)).
  { intros k u Hk. pose proof (lookup_lt_Some _ _ _ Hk) as Hlt.
    unfold unitsOf in Hk, Hlt. rewrite yearUnits_length in Hlt.
    rewrite (yearUnits_completed _ _ _ _ _ Hk). unfold Cli.totalOperations.
    rewrite <- Nat2Z.inj_mul. lia. }
  destruct r as [e|data].
  - destruct Hshape as (finished & u & rest & mid & mid' & Hu & Hev & _).
    eexists. split; [exact Hev|]. split; [|discriminate].
    intros k v Hk. apply Hunits. rewrite Hu.
    rewrite progressOf_app, progressOf_successBlocks in Hk.
    change (progressOf (failureBlock true u)) with [u] in Hk.
    apply lookup_app_Some in Hk. destruct Hk as [Hk|[Hge Hk]].
    + now apply lookup_app_l_Some.
    + rewrite lookup_app_r by exact Hge.
      destruct (k - length finished)%nat as [|n]; [exact Hk|discriminate].
  - destruct Hshape as (Hev & _). eexists. split; [exact Hev|].
    rewrite progressOf_successBlocks. split; [exact Hunits|].
    intros _ _. unfold unitsOf, Cli.totalOperations.
    rewrite yearUnits_length. lia.
Qed.


(** X15.  [close()] on a scraper without a browser does nothing.
    Otherwise it closes the browser; when that resolves both handles
    are cleared, so that a second [close()] does nothing and touches no
    browser, and when it rejects the rejection is thrown as it is, not
    wrapped in a [ScraperError], and both handles stay as they were. *)
Theorem close_outcome this s :
  (browser this = None -> close this s = (inr tt, this, s))
  /\ (forall (this' : Scraper) s',
        close this s = (inr tt, this', s') ->
        browser this' = None
        /\ (browser this <> None -> page this' = None)
        /\ close this' s' = (inr tt, this', s'))
  /\ (forall e (this' : Scraper) s',
        close this s = (inl e, this', s') ->
        this' = this
        /\ exists b : Handle,
             browser this = Some b
             /\ fst (browserClose b (world s)) = inl e).
Proof.
  unfold close at 1 2 4. unfold await.
  destruct (browser this) as [b|] eqn:Hb.
  - split; [discriminate|].
    destruct (browserClose b (world s)) as [[e|[]] w] eqn:Hclose;
      cbn [world limiter events].
    + split; [discriminate|]. intros e' this' s' [= <- <- _].
      split; [reflexivity|]. exists b. now rewrite Hclose.
    + split; [|discriminate]. intros this' s' [= <- <-].
      split; [reflexivity|]. split; reflexivity.
  - split; [reflexivity|]. split; [|discriminate].
    intros this' s' [= <- <-]. split; [exact Hb|]. split; [congruence|].
    unfold close. now rewrite Hb.
Qed.

End ProgressBar.

(** ** The command line: options and output paths *)

Section CliFacts.
Import Cli.

Lemma showZ_chars (z : Z) :
  Forall (fun c => c = 45%N \/ isDigit c = true) (showZ z).
Proof.
  rewrite showZ_cases. destruct z as [|p|p].
  - constructor; [now right|constructor].
  - eapply List.Forall_impl; [|apply digitChars_isDigit]. intros c Hc. now right.
  - constructor; [now left|].
    eapply List.Forall_impl; [|apply digitChars_isDigit]. intros c Hc. now right.
Qed.

Lemma showZ_not_whiteSpace (z : Z) :
  Forall (fun c => isWhiteSpace c = false) (showZ z).
Proof.
  eapply List.Forall_impl; [|apply showZ_chars].
  intros c [->|Hc]; [reflexivity|now apply isDigit_not_whiteSpace].
Qed.

Lemma showZ_no_comma (z : Z) : Forall (fun c => c <> 44%N) (showZ z).
Proof.
  eapply List.Forall_impl; [|apply showZ_chars].
  intros c [->|Hc]; [discriminate|]. intros ->. discriminate Hc.
Qed.

Lemma showZ_not_nil (z : Z) : showZ z <> [].
Proof. destruct (showZ_head z) as (c & t & -> & _). discriminate. Qed.

Lemma dropWhile_clean {A : Type} (p : A -> bool) (l : list A) :
  Forall (fun c => p c = false) l -> dropWhile p l = l.
Proof. intros Hl. destruct Hl as [|c l Hc _]; cbn; [reflexivity|now rewrite Hc]. Qed.

Lemma trim_clean (t : list N) :
  Forall (fun c => isWhiteSpace c = false) t -> JsonExporter.trim t = t.
Proof.
  intros Ht. unfold JsonExporter.trim. rewrite (dropWhile_clean _ t Ht).
  rewrite dropWhile_clean; [apply rev_involutive|].
  apply List.Forall_forall. intros c Hc. apply in_rev in Hc.
  now apply (proj1 (List.Forall_forall _ _) Ht).
Qed.

Lemma split_app_sep (sep : N) (piece rest : list N) :
  Forall (fun c => c <> sep) piece ->
  split sep (piece ++ sep :: rest) = piece :: split sep rest.
Proof.
  intros Hpiece. induction Hpiece as [|c piece Hc _ IH]; cbn [app split].
  - now rewrite N.eqb_refl.
  - destruct (N.eqb_spec c sep) as [Heq|_]; [contradiction|]. now rewrite IH.
Qed.

Lemma split_no_sep (sep : N) (piece : list N) :
  Forall (fun c => c <> sep) piece -> split sep piece = [piece].
Proof.
  intros Hpiece. induction Hpiece as [|c piece Hc _ IH]; cbn [split].
  - reflexivity.
  - destruct (N.eqb_spec c sep) as [Heq|_]; [contradiction|]. now rewrite IH.
Qed.

Lemma split_joinWith (sep : N) (pieces : list (list N)) :
  pieces <> [] ->
  Forall (Forall (fun c => c <> sep)) pieces ->
  split sep (joinWith [sep] pieces) = pieces.
Proof.
  intros Hne Hpieces. induction Hpieces as [|piece pieces Hpiece Hrest IH];
    [contradiction|].
  destruct pieces as [|piece' pieces'].
  - cbn [joinWith]. now apply split_no_sep.
  - change (joinWith [sep] (piece :: piece' :: pieces'))
      with (piece ++ sep :: joinWith [sep] (piece' :: pieces')).
    rewrite split_app_sep by assumption. f_equal. now apply IH.
Qed.

Lemma split_not_nil (sep : N) (s : list N) : split sep s <> [].
Proof.
  destruct s as [|c s]; cbn [split]; [discriminate|].
  destruct (c =? sep)%N; [discriminate|]. destruct (split sep s); discriminate.
Qed.

Lemma split_trailing_sep (sep : N) (s : list N) :
  split sep (s ++ [sep]) = split sep s ++ [[]].
Proof.
  induction s as [|c s IH]; cbn [app split].
  - now rewrite N.eqb_refl.
  - destruct (N.eqb_spec c sep) as [_|_].
    + now rewrite IH.
    + rewrite IH. pose proof (split_not_nil sep s) as Hne.
      destruct (split sep s); [contradiction|reflexivity].
Qed.

Lemma parseNumbers_joinWith (numbers : list Z) :
  numbers <> [] ->
  parseNumbers (joinWith (lit ",") (map showZ numbers)) = map Some numbers.
Proof.
  intros Hne. unfold parseNumbers.
  change (lit ",") with [44%N]. rewrite split_joinWith.
  - rewrite map_map. apply map_ext. intros z.
    rewrite trim_clean by apply showZ_not_whiteSpace. apply parseInt10_showZ.
  - destruct numbers; [contradiction|discriminate].
  - apply List.Forall_forall. intros piece Hpiece. apply in_map_iff in Hpiece.
    destruct Hpiece as (z & <- & _). apply showZ_no_comma.
Qed.

Lemma joinWith_not_nil (sep : list N) (pieces : list (list N)) :
  pieces <> [] -> Forall (fun piece => piece <> []) pieces ->
  joinWith sep pieces <> [].
Proof.
  intros Hne Hpieces. destruct Hpieces as [|piece pieces Hpiece _];
    [contradiction|].
  destruct piece as [|c piece]; [contradiction|].
  destruct pieces; discriminate.
Qed.

(** X16.  [parseScraperConfig] reads back what was written with commas:
    for non-empty lists of years and months given as their decimal
    numerals joined by [,] and a delay given as its numeral, the
    configuration has exactly these years, months and delay, the other
    fields being the defaults.  An option that is absent or the empty
    text leaves the default of [createDefaultScraperConfig] (the year
    2076, the months 1 to 12, 1000 ms), and a comma at the end of a list
    adds a [NaN] to it. *)
Theorem parseScraperConfig_reads_lists :
  (forall (ys ms : list Z) (delay : Z),
     ys <> [] -> ms <> [] ->
     parseScraperConfig
       {| optYears := Some (joinWith (lit ",") (map showZ ys));
          optMonths := Some (joinWith (lit ",") (map showZ ms));
          optDelay := Some (showZ delay) |}
     = {| Cli.years := map Some ys;
          Cli.months := map Some ms;
          Cli.requestDelay := Some delay;
          Cli.maxRetries := 3;
          Cli.timeout := 30000;
          Cli.saveIndividualYears := true |})
  /\ (forall options : ScrapeOptions,
        (optYears options = None \/ optYears options = Some []) ->
        (optMonths options = None \/ optMonths options = Some []) ->
        (optDelay options = None \/ optDelay options = Some []) ->
        parseScraperConfig options
        = {| Cli.years := [Some 2076];
             Cli.months := map Some [1; 2; 3; 4; 5; 6; 7; 8; 9; 10; 11; 12];
             Cli.requestDelay := Some 1000;
             Cli.maxRetries := 3;
             Cli.timeout := 30000;
             Cli.saveIndividualYears := true |})
  /\ (forall text : jsstring,
        parseNumbers (text ++ lit ",") = parseNumbers text ++ [None]).
Proof.
  split; [|split].
  - intros ys ms delay Hys Hms. unfold parseScraperConfig.
    cbn [optYears optMonths optDelay].
    rewrite !truthyStr_Some.
    + now rewrite !parseNumbers_joinWith, parseInt10_showZ by assumption.
    + apply showZ_not_nil.
    + apply joinWith_not_nil; [now destruct ms|].
      apply List.Forall_forall. intros piece Hpiece. apply in_map_iff in Hpiece.
      destruct Hpiece as (z & <- & _). apply showZ_not_nil.
    + apply joinWith_not_nil; [now destruct ys|].
      apply List.Forall_forall. intros piece Hpiece. apply in_map_iff in Hpiece.
      destruct Hpiece as (z & <- & _). apply showZ_not_nil.
  - intros options [Hy|Hy] [Hm|Hm] [Hd|Hd]; unfold parseScraperConfig;
      rewrite Hy, Hm, Hd; reflexivity.
  - intros text. unfold parseNumbers. change (lit ",") with [44%N].
    rewrite split_trailing_sep, map_app. reflexivity.
Qed.

Lemma parseScraperConfig_reads_lists_witness :
  parseScraperConfig
    {| optYears := Some (lit "2080,2081");
       optMonths := Some (lit "1,2,3");
       optDelay := Some (lit "1500") |}
  = {| Cli.years := [Some 2080; Some 2081];
       Cli.months := [Some 1; Some 2; Some 3];
       Cli.requestDelay := Some 1500;
       Cli.maxRetries := 3;
       Cli.timeout := 30000;
       Cli.saveIndividualYears := true |}.
Proof.
  apply (proj1 parseScraperConfig_reads_lists [2080; 2081] [1; 2; 3] 1500);
    discriminate.
Defined.

Lemma startsWith_prefix (pattern s : list N) :
  startsWith pattern s = true -> s = pattern ++ drop (length pattern) s.
Proof.
  revert s. induction pattern as [|a pattern IH]; intros s; cbn.
  - reflexivity.
  - destruct s as [|b s]; [discriminate|].
    rewrite andb_true_iff, N.eqb_eq. intros [-> Hrest]. cbn.
    f_equal. now apply IH.
Qed.

Lemma replace_absent (pattern replacement s : list N) :
  includes pattern s = false -> replace pattern replacement s = s.
Proof.
  induction s as [|c s IH]; cbn [includes replace]; rewrite orb_false_iff.
  - now intros [-> _].
  - intros [-> Hrest]. now rewrite IH.
Qed.

Lemma replace_present (pattern replacement s : list N) :
  includes pattern s = true ->
  exists a b : list N,
    s = a ++ pattern ++ b /\ replace pattern replacement s = a ++ replacement ++ b.
Proof.
  induction s as [|c s IH]; cbn [includes replace];
    destruct (startsWith pattern _) eqn:Hstart.
  - intros _. exists [], (drop (length pattern) []). split; [|reflexivity].
    now apply startsWith_prefix.
  - discriminate.
  - intros _. exists [], (drop (length pattern) (c :: s)). split; [|reflexivity].
    now apply startsWith_prefix.
  - cbn [orb]. intros Hs. destruct (IH Hs) as (a & b & Heq & Hrep).
    exists (c :: a), b. cbn [app]. now rewrite <- Heq, Hrep.
Qed.

Lemma startsWith_json_overlap (stem : list N) :
  startsWith (lit ".json") (stem ++ lit ".json") = true ->
  stem = [] \/ startsWith (lit ".json") stem = true.
Proof.
  change (lit ".json") with [46; 106; 115; 111; 110]%N.
  destruct stem as [|c1 [|c2 [|c3 [|c4 [|c5 stem]]]]]; cbn;
    rewrite ?andb_false_r; try discriminate; auto.
Qed.

Lemma replace_json_suffix (replacement stem : list N) :
  includes (lit ".json") stem = false ->
  replace (lit ".json") replacement (stem ++ lit ".json") = stem ++ replacement.
Proof.
  induction stem as [|c stem IH].
  - intros _. cbn. now rewrite app_nil_r.
  - cbn [includes]. rewrite orb_false_iff. intros [Hhead Hrest].
    change ((c :: stem) ++ lit ".json") with (c :: (stem ++ lit ".json")).
    cbn [replace].
    destruct (startsWith (lit ".json") (c :: stem ++ lit ".json")) eqn:Hstart.
    + apply (startsWith_json_overlap (c :: stem)) in Hstart.
      destruct Hstart as [Hnil|Hstart]; [discriminate|congruence].
    + cbn [app]. now rewrite IH.
Qed.

Lemma extension_json (format : list N) :
  lit "." ++ extension format = lit ".json" <-> format = lit "json".
Proof.
  unfold extension. destruct (bool_decide_reflect (format = lit "excel")) as [->|Hne].
  - split; discriminate.
  - split; [now intros [= ->]|now intros ->].
Qed.

(** X17.  The output path of the [convert] command.  A non-empty
    [--output] is used as it is.  Without one, the first [.json] of the
    input path is replaced by the extension of the format: an input
    that ends in its only [.json] gets the new extension in its place,
    and an input without any [.json] is itself the output path, as is
    every input when the format is [json]; in all other cases the two
    paths differ.  (The format is taken to be free of [$], which
    [replace] would read as a replacement pattern.) *)
Theorem convertOutputPath_cases (input format : jsstring) :
  ~ In 36%N format ->
  (forall (c : N) (path : jsstring),
     convertOutputPath (Some (c :: path)) input format = c :: path)
  /\ (forall stem : jsstring,
        input = stem ++ lit ".json" -> includes (lit ".json") stem = false ->
        convertOutputPath None input format
        = stem ++ lit "." ++ extension format)
  /\ (includes (lit ".json") input = false ->
      convertOutputPath None input format = input
      /\ convertOutputPath (Some []) input format = input)
  /\ (includes (lit ".json") input = true ->
      (convertOutputPath None input format = input <-> format = lit "json")).
Proof.
  intros _. split; [reflexivity|]. split; [|split].
  - intros stem -> Hstem. cbn [convertOutputPath].
    now rewrite replace_json_suffix.
  - intros Habsent. cbn [convertOutputPath].
    now rewrite replace_absent.
  - intros Hpresent. cbn [convertOutputPath].
    destruct (replace_present _ (lit "." ++ extension format) _ Hpresent)
      as (a & b & Hinput & ->).
    rewrite Hinput at 1. rewrite <- extension_json. split.
    + intros Heq. apply app_inv_head in Heq. now apply app_inv_tail in Heq.
    + now intros ->.
Qed.

Lemma convertOutputPath_cases_witness :
  convertOutputPath None (lit "./data/data.json") (lit "excel")
    = lit "./data/data.xlsx"
  /\ convertOutputPath None (lit "calendar.txt") (lit "csv") = lit "calendar.txt".
Proof.
  split.
  - apply (proj1 (proj2 (convertOutputPath_cases (lit "./data/data.json")
                           (lit "excel") ltac:(vm_compute; intuition discriminate)))
             (lit "./data/data"));
      reflexivity.
  - apply (proj1 (proj2 (proj2 (convertOutputPath_cases (lit "calendar.txt")
                                  (lit "csv") ltac:(vm_compute; intuition discriminate))))).
    reflexivity.
Defined.

End CliFacts.

(** ** The CSV exporter *)

Section CsvFacts.
Import JsonExporter CsvExporter.

Lemma monthSum_rows (year : option Z) (b : bool) (yearData : CalendarYear) :
  forall acc : option Z,
  fold_left (fun monthSum m =>
      match monthSum, days m with
      | Some n, Some ds => Some (n + Z.of_nat (length ds))
      | _, _ => None
      end) yearData acc
  = match acc, traverse (monthRows year b) yearData with
    | Some n, Some rows => Some (n + Z.of_nat (length (concat rows)))
    | _, _ => None
    end.
Proof.
  induction yearData as [|m yearData IH]; intros acc; cbn [fold_left traverse].
  - destruct acc as [n|]; [|reflexivity]. cbn. f_equal. lia.
  - rewrite IH. unfold monthRows at 2. destruct acc as [n|].
    + destruct (days m) as [ds|]; [|reflexivity].
      destruct (traverse (monthRows year b) yearData) as [rows|]; [|reflexivity].
      cbn [concat]. rewrite length_app, length_map. f_equal. lia.
    + now destruct (days m), (traverse (monthRows year b) yearData).
Qed.

Lemma totalDays_rows (b : bool) (data : list (Z * CalendarYear)) :
  forall acc : option Z,
  fold_left (fun sum '(_, yearData) =>
      match sum,
            fold_left (fun monthSum m =>
              match monthSum, days m with
              | Some n, Some ds => Some (n + Z.of_nat (length ds))
              | _, _ => None
              end) yearData (Some 0) with
      | Some n, Some k => Some (n + k)
      | _, _ => None
      end) data acc
  = match acc, traverse (yearRows b) data with
    | Some n, Some rows => Some (n + Z.of_nat (length (concat rows)))
    | _, _ => None
    end.
Proof.
  induction data as [|[y yearData] data IH]; intros acc; cbn [fold_left traverse].
  - destruct acc as [n|]; [|reflexivity]. cbn. f_equal. lia.
  - rewrite IH.
    rewrite (monthSum_rows (parseInt10 (showZ y)) b yearData (Some 0)).
    change (yearRows b (y, yearData))
      with (option_map (@concat CsvRow)
              (traverse (monthRows (parseInt10 (showZ y)) b) yearData)).
    destruct acc as [n|].
    + destruct (traverse (monthRows (parseInt10 (showZ y)) b) yearData)
        as [months|]; cbn [option_map]; [|reflexivity].
      destruct (traverse (yearRows b) data) as [rows|]; [|reflexivity].
      cbn [concat]. rewrite length_app. f_equal. lia.
    + destruct (traverse (monthRows (parseInt10 (showZ y)) b) yearData);
        cbn [option_map]; now destruct (traverse (yearRows b) data).
Qed.

(** X18.  [convertToCSVRows] returns one record per day of the data:
    as many as the [validate] command prints as [Total Days], with or
    without the optional columns; and it throws exactly when that count
    cannot be taken, that is, when some month has no [days]. *)
Theorem convertToCSVRows_count (data : list (Z * CalendarYear)) (b : bool) :
  option_map (fun rows => Z.of_nat (length rows)) (convertToCSVRows data b)
  = Cli.totalDays data.
Proof.
  unfold Cli.totalDays, convertToCSVRows. rewrite (totalDays_rows b data (Some 0)).
  now destruct (traverse (yearRows b) data).
Qed.



End CsvFacts.

(** ** The JSON exporter: files per year and the simplified data *)

Section JsonFilesFacts.
Import Json JsonExporter JsonYearFiles.









Lemma traverse_fixed {A : Type} (f : A -> option A) (l : list A) :
  (forall a : A, In a l -> f a = Some a) -> traverse f l = Some l.
Proof.
  induction l as [|a l IH]; intros Hall; cbn [traverse]; [reflexivity|].
  rewrite (Hall a) by now left. rewrite IH; [reflexivity|].
  intros a' Ha'. apply Hall. now right.
Qed.





End JsonFilesFacts.

(** ** The Excel exporter: sheet names and summary figures *)

Section ExcelFacts.
Import ExcelExporter.

Lemma getMonthName_named (n : Z) :
  1 <= n <= 12 ->
  exists name : list N,
    monthNames !! Z.to_nat (n - 1) = Some name /\ getMonthName (Some n) = name.
Proof.
  intros Hn. unfold getMonthName.
  destruct (Z.leb_spec 0 (n - 1)) as [_|Hneg]; [|lia].
  assert (Hcases : n = 1 \/ n = 2 \/ n = 3 \/ n = 4 \/ n = 5 \/ n = 6 \/ n = 7
                   \/ n = 8 \/ n = 9 \/ n = 10 \/ n = 11 \/ n = 12) by lia.
  repeat (destruct Hcases as [->|Hcases]; [eexists; split; reflexivity|]).
  subst n. eexists; split; reflexivity.
Qed.

Lemma getMonthName_fallback (month : option Z) :
  match month with
  | Some n => n < 1 \/ 12 < n
  | None => True
  end ->
  getMonthName month = lit "Month " ++ showOpt showZ month.
Proof.
  unfold getMonthName. destruct month as [n|]; [|reflexivity]. intros Hn.
  destruct (Z.leb_spec 0 (n - 1)) as [Hpos|_]; [|reflexivity].
  destruct (monthNames !! Z.to_nat (n - 1)) as [name|] eqn:Hname; [|reflexivity].
  apply lookup_lt_Some in Hname. cbn [monthNames length] in Hname. lia.
Qed.

Lemma monthNames_not_fallback (name : list N) :
  In name monthNames -> ~ (nth 0 name 0%N = 77%N /\ nth 1 name 0%N = 111%N).
Proof.
  intros Hin. cbn [monthNames In] in Hin.
  repeat (destruct Hin as [<-|Hin];
          [vm_compute; intros [H0 H1]; discriminate|]).
  destruct Hin.
Qed.

Lemma showOpt_showZ_inj (a b : option Z) :
  showOpt showZ a = showOpt showZ b -> a = b.
Proof.
  destruct a as [x|], b as [y|]; cbn [showOpt].
  - intros Heq. f_equal. now apply showZ_inj.
  - destruct (showZ_head x) as (c & t & -> & Hc).
    intros [= -> _]. destruct Hc as [Hc|Hc]; [discriminate|lia].
  - destruct (showZ_head y) as (c & t & -> & Hc).
    intros [= <- _]. destruct Hc as [Hc|Hc]; [discriminate|lia].
  - reflexivity.
Qed.

Lemma getMonthName_inj (a b : option Z) :
  getMonthName a = getMonthName b -> a = b.
Proof.
  assert (Hrange : forall m : option Z,
            (exists n : Z, m = Some n /\ 1 <= n <= 12)
            \/ match m with Some n => n < 1 \/ 12 < n | None => True end).
  { intros [n|]; [|now right].
    destruct (Z_le_gt_dec 1 n), (Z_le_gt_dec n 12); try (right; lia).
    left. exists n. split; [reflexivity|lia]. }
  assert (Hmixed : forall (n : Z) (m : option Z), 1 <= n <= 12 ->
            getMonthName (Some n) <> lit "Month " ++ showOpt showZ m).
  { intros n m Hn Heq. destruct (getMonthName_named n Hn) as (name & Hname & Hget).
    rewrite Hget in Heq. subst name.
    apply (monthNames_not_fallback (lit "Month " ++ showOpt showZ m));
      [|split; reflexivity].
    apply list_elem_of_In, list_elem_of_lookup. eauto. }
  destruct (Hrange a) as [(n & -> & Hn)|Ha], (Hrange b) as [(k & -> & Hk)|Hb].
  - destruct (getMonthName_named n Hn) as (name & Hname & ->).
    destruct (getMonthName_named k Hk) as (name' & Hname' & ->).
    intros <-.
    assert (Hnodup : NoDup monthNames)
      by (apply (bool_decide_unpack _); vm_compute; exact I).
    pose proof (NoDup_lookup _ _ _ _ Hnodup Hname Hname') as Heq.
    f_equal. lia.
  - rewrite (getMonthName_fallback b Hb). intros Heq.
    now apply Hmixed in Heq.
  - rewrite (getMonthName_fallback a Ha). intros Heq. symmetry in Heq.
    now apply Hmixed in Heq.
  - rewrite (getMonthName_fallback a Ha), (getMonthName_fallback b Hb).
    intros Heq. apply app_inv_head in Heq. now apply showOpt_showZ_inj.
Qed.

(** X22.  The names of the month sheets.  [getMonthName] gives the
    twelve names of its table for the numbers 1 to 12 and
    [Month <number>] for everything else, and it never gives the same
    name for two different month numbers.  So the sheets
    [exportYearFiles] adds to the workbook of a year, [Year Summary]
    included, have pairwise different names exactly when no month
    number occurs twice in the year. *)
Theorem yearSheetNames_distinct (year : Z) (yearData : CalendarYear) :
  (forall a b : option Z, getMonthName a = getMonthName b -> a = b)
  /\ (forall n : Z, 1 <= n <= 12 ->
        monthNames !! Z.to_nat (n - 1) = Some (getMonthName (Some n)))
  /\ (forall n : Z, n < 1 \/ 12 < n ->
        getMonthName (Some n) = lit "Month " ++ showZ n)
  /\ (List.NoDup (yearSheetNames year yearData)
      <-> List.NoDup (map month yearData)).
Proof.
  split; [exact getMonthName_inj|]. split; [|split].
  - intros n Hn. destruct (getMonthName_named n Hn) as (name & Hname & ->).
    exact Hname.
  - intros n Hn. now rewrite (getMonthName_fallback (Some n)).
  - unfold yearSheetNames.
    rewrite <- (map_map month (fun m => getMonthName m ++ lit " " ++ showZ year)).
    set (sheet := fun m : option Z => getMonthName m ++ lit " " ++ showZ year).
    assert (Hinj : forall a b : option Z, sheet a = sheet b -> a = b).
    { intros a b Heq. apply app_inv_tail in Heq. now apply getMonthName_inj. }
    assert (Hsummary : forall m : option Z, sheet m <> lit "Year Summary").
    { intros m Heq. apply (f_equal (fun l => nth 0 l 0%N)) in Heq.
      unfold sheet in Heq.
      destruct m as [n|].
      - destruct (Z_le_gt_dec 1 n), (Z_le_gt_dec n 12);
          try (rewrite (getMonthName_fallback (Some n)) in Heq by lia;
               vm_compute in Heq; discriminate).
        destruct (getMonthName_named n ltac:(lia)) as (name & Hname & Hget).
        rewrite Hget in Heq.
        assert (Hin : In name monthNames)
          by (apply list_elem_of_In, list_elem_of_lookup; eauto).
        cbn [monthNames In] in Hin.
        repeat (destruct Hin as [<-|Hin]; [vm_compute in Heq; discriminate|]).
        destruct Hin.
      - vm_compute in Heq. discriminate. }
    split.
    + intros Hnodup. apply NoDup_app_remove_r in Hnodup.
      now apply NoDup_map_inv in Hnodup.
    + intros Hnodup. apply NoDup_ListNoDup, NoDup_app. split; [|split].
      * now apply NoDup_ListNoDup, Injective_map_NoDup.
      * intros name Hname Hin. apply list_elem_of_In in Hname.
        apply list_elem_of_In in Hin. apply in_map_iff in Hname.
        destruct Hname as (m & <- & _). destruct Hin as [Heq|[]].
        now apply (Hsummary m).
      * apply NoDup_singleton.
Qed.

Lemma sumDays_acc (count : list CalendarDay -> nat)
    (yearData : CalendarYear) :
  (forall ds1 ds2 : list CalendarDay,
     count (ds1 ++ ds2) = (count ds1 + count ds2)%nat) ->
  forall acc : option Z,
  fold_left (fun sum m =>
      match sum, days m with
      | Some n, Some ds => Some (n + Z.of_nat (count ds))
      | _, _ => None
      end) yearData acc
  = match acc with
    | Some n =>
        if forallb (fun m => match days m with Some _ => true | None => false end)
             yearData
        then Some (n + Z.of_nat (count (Accepts.daysOf yearData)))
        else None
    | None => None
    end.
Proof.
  intros Hcount. assert (Hnil : count [] = 0%nat).
  { specialize (Hcount [] []). cbn in Hcount. lia. }
  induction yearData as [|m yearData IH]; intros acc; cbn [fold_left forallb].
  - destruct acc as [n|]; [|reflexivity]. cbn. rewrite Hnil. f_equal. lia.
  - rewrite IH. destruct acc as [n|]; [|now destruct (days m)].
    destruct (days m) as [ds|] eqn:Hds; [|reflexivity]. cbn [andb].
    destruct (forallb _ yearData); [|reflexivity].
    unfold Accepts.daysOf. cbn [flat_map]. rewrite Hds, Hcount.
    f_equal. unfold Accepts.daysOf. lia.
Qed.

(** X23.  The figures of the summary sheet for a year all of whose
    months have their [days]: [Total Days] is the number of days of the
    year, [Total Holidays] the number of those whose [isHoliday] is
    [true], and [Working Days] the number of the others, so it is never
    negative.  When a month has no [days], none of them can be
    computed. *)
Theorem summary_figures (yearData : CalendarYear) :
  let holiday := fun d : CalendarDay => truthyBool (isHoliday d) in
  (Forall (fun m => days m <> None) yearData ->
     totalDays yearData = Some (Z.of_nat (length (Accepts.daysOf yearData)))
     /\ totalHolidays yearData
        = Some (Z.of_nat (length (List.filter holiday (Accepts.daysOf yearData))))
     /\ workingDays yearData
        = Some (Z.of_nat (length (List.filter (fun d => negb (holiday d))
                                    (Accepts.daysOf yearData)))))
  /\ ((exists m : CalendarMonth, In m yearData /\ days m = None) ->
      totalDays yearData = None /\ totalHolidays yearData = None
      /\ workingDays yearData = None).
Proof.
  intros holiday.
  assert (Hdays := sumDays_acc (@length CalendarDay) yearData
                     (@length_app CalendarDay) (Some 0)).
  assert (Hholidays := sumDays_acc
            (fun ds => length (List.filter holiday ds)) yearData
            ltac:(intros ds1 ds2; cbv beta; now rewrite List.filter_app, length_app)
            (Some 0)).
  cbv beta in Hdays, Hholidays. fold (totalDays yearData) in Hdays.
  fold holiday in Hholidays.
  change (fold_left _ yearData (Some 0)) with (totalHolidays yearData)
    in Hholidays.
  split.
  - intros Hall.
    assert (Hb : forallb (fun m => match days m with Some _ => true | None => false end)
                   yearData = true).
    { apply forallb_forall. intros m Hm.
      apply (proj1 (List.Forall_forall _ _) Hall) in Hm. now destruct (days m). }
    rewrite Hb in Hdays, Hholidays. unfold workingDays.
    rewrite Hdays, Hholidays. cbn [Z.add]. split; [reflexivity|].
    split; [reflexivity|]. f_equal.
    pose proof (filter_length holiday (Accepts.daysOf yearData)). lia.
  - intros (m & Hm & Hnone).
    assert (Hb : forallb (fun m => match days m with Some _ => true | None => false end)
                   yearData = false).
    { apply not_true_is_false. intros Hb.
      apply (proj1 (forallb_forall _ _) Hb) in Hm. now rewrite Hnone in Hm. }
    rewrite Hb in Hdays, Hholidays. unfold workingDays.
    now rewrite Hdays, Hholidays.
Qed.

Lemma summary_figures_witness :
  workingDays [Samples.sampleMonth 1; Samples.sampleMonth 2] = Some 60.
Proof.
  rewrite (proj2 (proj2 (proj1 (summary_figures
             [Samples.sampleMonth 1; Samples.sampleMonth 2])
             ltac:(repeat constructor; discriminate)))).
  reflexivity.
Defined.

End ExcelFacts.

(** ** What the scraper reads of its configuration *)

Section ConfigurationRead.
Import Scraper RunShape.
Context {W : Type} {clock : Clock W} {puppeteer : Puppeteer W}.

Implicit Types (this : Scraper) (s : Machine W).

Lemma scrapeMonth_same_configuration this this' (year month : Z) s :
  page this' = page this ->
  timeout (config this') = timeout (config this) ->
  scrapeMonth this' year month s = scrapeMonth this year month s.
Proof. intros Hp Ht. unfold scrapeMonth. now rewrite Hp, Ht. Qed.

Lemma monthLoop_same_configuration this this' (cb : bool) (year yearIndex : Z) :
  page this' = page this ->
  years (config this') = years (config this) ->
  months (config this') = months (config this) ->
  timeout (config this') = timeout (config this) ->
  forall (ms : list Z) (monthIndex : Z) (data : gmap Z (list CalendarMonth)) s,
    monthLoop this' cb year yearIndex ms monthIndex data s
    = monthLoop this cb year yearIndex ms monthIndex data s.
Proof.
  intros Hp Hy Hm Ht. induction ms as [|month ms IH]; intros monthIndex data s.
  - reflexivity.
  - assert (Hu : progressAt this' year yearIndex month monthIndex
                 = progressAt this year yearIndex month monthIndex).
    { unfold progressAt. now rewrite Hy, Hm. }
    destruct (scrapeMonth this year month
                (afterProgress cb (progressAt this year yearIndex month monthIndex) s))
      as [[e|md] s1] eqn:Hrun.
    + rewrite (monthLoop_unit_fails this _ _ _ _ _ _ _ _ _ _ Hrun).
      apply monthLoop_unit_fails.
      now rewrite Hu, (scrapeMonth_same_configuration this this').
    + rewrite (monthLoop_unit_succeeds this _ _ _ _ _ _ _ _ _ _ Hrun).
      rewrite <- IH. apply monthLoop_unit_succeeds.
      now rewrite Hu, (scrapeMonth_same_configuration this this').
Qed.

Lemma yearLoop_same_configuration this this' (cb : bool) :
  page this' = page this ->
  years (config this') = years (config this) ->
  months (config this') = months (config this) ->
  timeout (config this') = timeout (config this) ->
  forall (ys : list Z) (yearIndex : Z) (data : gmap Z (list CalendarMonth)) s,
    yearLoop this' cb ys yearIndex data s = yearLoop this cb ys yearIndex data s.
Proof.
  intros Hp Hy Hm Ht. induction ys as [|year ys IH]; intros yearIndex data s.
  - reflexivity.
  - cbn [yearLoop]. unfold bind.
    rewrite (monthLoop_same_configuration this this' cb year yearIndex Hp Hy Hm Ht).
    rewrite Hm.
    destruct (monthLoop this cb year yearIndex (months (config this)) 0
                (<[year:=[]]> data) s) as [[e|data1] s1]; [reflexivity|].
    apply IH.
Qed.

(** X26.  Of its configuration [scrape()] reads the years, the months
    and the timeout and nothing else: two scrapers with the same page
    that agree on these three run identically, whatever their
    [requestDelay], [maxRetries] and [saveIndividualYears].  In
    particular the delay between requests does not come from
    [requestDelay]: the rate limiter keeps the configuration of
    [createDefaultRateLimiterConfig()], with its minimum of 1000 ms. *)
Theorem scrape_ignores_requestDelay this (cb : bool) s :
  (forall this' : Scraper,
     page this' = page this ->
     years (config this') = years (config this) ->
     months (config this') = months (config this) ->
     timeout (config this') = timeout (config this) ->
     scrape this' cb s = scrape this cb s)
  /\ (forall (delay retries : Z) (individual : bool),
        scrape {| config := {| years := years (config this);
                               months := months (config this);
                               requestDelay := delay;
                               maxRetries := retries;
                               timeout := timeout (config this);
                               saveIndividualYears := individual |};
                  browser := browser this;
                  page := page this |} cb s
        = scrape this cb s)
  /\ RateLimiter.minDelay (@rateLimiterConfig) = 1000.
Proof.
  assert (Hsame : forall this' : Scraper,
     page this' = page this ->
     years (config this') = years (config this) ->
     months (config this') = months (config this) ->
     timeout (config this') = timeout (config this) ->
     scrape this' cb s = scrape this cb s).
  { intros this' Hp Hy Hm Ht. unfold scrape. rewrite Hp, Hy.
    destruct (page this) eqn:Hpage; [|reflexivity].
    apply yearLoop_same_configuration; congruence. }
  split; [exact Hsame|]. split; [|reflexivity].
  intros delay retries individual. now apply Hsame.
Qed.

End ConfigurationRead.

Lemma scrape_ignores_requestDelay_witness :
  let this := snd (fst (@Scraper.initialize Z Samples.healthyBrowser
                          (Scraper.construct Samples.sixUnitConfig)
                          Samples.freshMachine)) in
  @Scraper.scrape Z Samples.wallClock Samples.healthyBrowser
    {| Scraper.config :=
         {| years := [2080; 2081]; months := [1; 2; 3]; requestDelay := 60000;
            maxRetries := 0; timeout := 30000; saveIndividualYears := false |};
       Scraper.browser := Some 1%N;
       Scraper.page := Some 2%N |} true Samples.freshMachine
  = @Scraper.scrape Z Samples.wallClock Samples.healthyBrowser this true
      Samples.freshMachine.
Proof.
  intros this.
  apply (proj1 (@scrape_ignores_requestDelay Z Samples.wallClock
                  Samples.healthyBrowser this true Samples.freshMachine));
    reflexivity.
Defined.

(** ** The further properties on sample runs *)

Section MoreSampleRuns.
Import Scraper RunShape Samples.


Lemma scrape_without_units_witness :
  let this := snd (fst (@initialize Z healthyBrowser
                          (construct MoreSamples.noMonthConfig) freshMachine)) in
  exists data : gmap Z (list CalendarMonth),
    @scrape Z wallClock healthyBrowser this true freshMachine
      = (inr data, freshMachine)
    /\ data !! 2081 = Some [].
Proof.
  intros this.
  destruct (@scrape_without_units Z wallClock healthyBrowser this 2%N true
              freshMachine eq_refl (or_intror eq_refl))
    as (data & Hrun & Hin & _).
  exists data. split; [exact Hrun|]. apply Hin. cbn. auto.
Defined.


Lemma progress_bar_values_witness :
  let this := snd (fst (@initialize Z healthyBrowser (construct sixUnitConfig)
                          freshMachine)) in
  exists tr : list Event,
    events (snd (@scrape Z wallClock healthyBrowser this true freshMachine))
      = events freshMachine ++ tr
    /\ forall (k : nat) (u : ScrapingProgress),
         progressOf tr !! k = Some u ->
         Cli.completed u sixUnitConfig = Z.of_nat k
         /\ Cli.completed u sixUnitConfig < 6.
Proof.
  intros this.
  destruct (@scrape Z wallClock healthyBrowser this true freshMachine)
    as [r s'] eqn:Hrun.
  destruct (@progress_bar_values Z wallClock healthyBrowser this 2%N
              freshMachine r s' eq_refl Hrun) as (tr & Hev & Hvalues & _).
  exists tr. split; [exact Hev|exact Hvalues].
Defined.

End MoreSampleRuns.

(** ** The month validator: the warning about the number of days *)

Section DayCountWarning.
Import Validation.

Ltac label_differs n :=
  let H := fresh "Heq" in
  intros H; apply app_inv_head in H;
  apply (f_equal (fun l : list N => nth n l 0%N)) in H;
  vm_compute in H; discriminate H.

Lemma validateCalendarMonth_warnings (m : CalendarMonth) (monthIndex : Z)
    (ds : list CalendarDay) :
  days m = Some ds ->
  warnings (validateCalendarMonth m monthIndex) =
    (pushIf ((length ds <? 28)%nat || (32 <? length ds)%nat)
       (monthLabel monthIndex ++ lit ": Unusual number of days ("
          ++ showZ (Z.of_nat (length ds)) ++ lit ")") []
     ++ collectIndexed (fun d i =>
          map (fun warn => monthLabel monthIndex ++ lit ", " ++ warn)
            (warnings (validateCalendarDay d (Z.of_nat i)))) ds 0)
    ++ map (sequenceWarning monthIndex)
         (List.filter (gapAt (dayNumbersOf ds))
            (seq 1 (length (dayNumbersOf ds) - 1))).
Proof.
  intros Hds. unfold validateCalendarMonth. rewrite Hds. cbv zeta.
  rewrite (forEachIndexed_append2
    (fun d i => map (fun err => monthLabel monthIndex ++ lit ", " ++ err)
                  (errors (validateCalendarDay d (Z.of_nat i))))
    (fun d i => map (fun warn => monthLabel monthIndex ++ lit ", " ++ warn)
                  (warnings (validateCalendarDay d (Z.of_nat i))))).
  cbn [warnings]. apply sequenceCheck_filter.
Qed.

(** X25.  For a month whose [days] is an array, the warning
    [Unusual number of days (n)] is issued exactly when the array has
    fewer than 28 or more than 32 days, then exactly once; it is never
    an error, so a month of any length, even without days, can be
    valid. *)
Theorem day_count_warning (m : CalendarMonth) (monthIndex : Z)
    (ds : list CalendarDay) :
  days m = Some ds ->
  let r := validateCalendarMonth m monthIndex in
  let w := monthLabel monthIndex ++ lit ": Unusual number of days ("
             ++ showZ (Z.of_nat (length ds)) ++ lit ")" in
  count_occ jsstring_eq_dec (warnings r) w
    = (if (length ds <? 28)%nat || (32 <? length ds)%nat then 1 else 0)%nat
  /\ ~ In w (errors r).
Proof.
  intros Hds r w. subst r. split.
  - rewrite (validateCalendarMonth_warnings m monthIndex ds Hds).
    fold w. rewrite !count_occ_app.
    rewrite (count_occ_Forall_ne jsstring_eq_dec (collectIndexed _ ds 0)).
    2:{ apply List.Forall_forall. intros x Hx. apply In_collectIndexed in Hx.
        destruct Hx as (i & d & _ & Hx). apply in_map_iff in Hx.
        destruct Hx as (msg & <- & _). subst w. label_differs 0%nat. }
    rewrite (count_occ_Forall_ne jsstring_eq_dec (map _ _)).
    2:{ apply List.Forall_forall. intros x Hx. apply in_map_iff in Hx.
        destruct Hx as (i & <- & _). subst w. unfold sequenceWarning.
        label_differs 2%nat. }
    destruct (_ || _); cbn [pushIf app count_occ]; [|reflexivity].
    destruct (jsstring_eq_dec w w) as [_|Hne]; [reflexivity|contradiction].
  - rewrite (validateCalendarMonth_errors m monthIndex ds Hds).
    rewrite in_app_iff, In_pushIf. cbn [In]. intros [[[]|[_ Heq]]|Hin].
    + revert Heq. subst w. label_differs 2%nat.
    + apply In_collectIndexed in Hin. destruct Hin as (i & d & _ & Hx).
      apply in_map_iff in Hx. destruct Hx as (msg & Heq & _).
      symmetry in Heq. revert Heq. subst w. label_differs 0%nat.
Qed.

Lemma day_count_warning_witness :
  count_occ Validation.jsstring_eq_dec
    (warnings (Validation.validateCalendarMonth
                 {| month := Some 4; days := Some (Samples.sampleDays 1 27) |} 3))
    (lit "Month 4: Unusual number of days (27)") = 1%nat.
Proof.
  apply (proj1 (day_count_warning
                  {| month := Some 4; days := Some (Samples.sampleDays 1 27) |}
                  3 (Samples.sampleDays 1 27) eq_refl)).
Defined.

End DayCountWarning.

Section MoreSampleChecks.
Import Samples.

Lemma convertNepaliToEnglish_idempotent_witness :
  Validation.convertNepaliToEnglish (lit "15") = lit "15".
Proof.
  apply (proj1 (proj2 (convertNepaliToEnglish_idempotent (lit "15")))).
  repeat constructor; cbn; lia.
Defined.

Lemma validateScrapedData_accepts_witness :
  isValid (Validation.validateScrapedData
             (Some [(lit "2081", Some yearWithMisplacedMonth); (lit "x", None)]))
  = isValid (Validation.validateScrapedData
               (Some [(lit "x", None); (lit "2081", Some yearWithMisplacedMonth)])).
Proof.
  apply (proj2 validateScrapedData_accepts). apply perm_swap.
Defined.

Lemma close_outcome_witness :
  @Scraper.close Z healthyBrowser (Scraper.construct oneUnitConfig) freshMachine
  = (inr tt, Scraper.construct oneUnitConfig, freshMachine).
Proof.
  apply (proj1 (@close_outcome Z healthyBrowser
                  (Scraper.construct oneUnitConfig) freshMachine)).
  reflexivity.
Defined.

Lemma yearSheetNames_distinct_witness :
  List.NoDup (ExcelExporter.yearSheetNames 2081 (map sampleMonth [1; 2; 13])).
Proof.
  apply (proj2 (proj2 (proj2 (yearSheetNames_distinct 2081
                                (map sampleMonth [1; 2; 13]))))).
  apply NoDup_ListNoDup; apply (bool_decide_unpack _); vm_compute; exact I.
Defined.

End MoreSampleChecks.
